(** * lsaddr: a shallow embedding of [lsaddr.c]

    The program lists the addresses of the host's network interfaces.  It
    reads [/proc/net/dev] (interface listing), asks the kernel through a
    socket ([SIOCGIFINDEX] to probe a name, [SIOCGIFCONF] for the IPv4
    table) and reads [/proc/net/if_inet6] (IPv6 table).

    Conventions of the embedding:
    - a C string (a [char *] to NUL-terminated text) is the [list ascii] of
      its characters before the terminator;
    - a [char] array is the [list ascii] of all its bytes, terminator and
      stale bytes included; [cstr] reads the C string it holds;
    - a stream opened for reading is the [list ascii] still to be read;
    - [size_t] counters are [nat]; the kernel and the file system are the
      fields of the record [sys];
    - undefined behaviour (a write through NULL, an array overrun, a read
      of an array without terminator) is an outcome of its own.

    Outside the model: read errors on a stream that was opened ([ferror]),
    allocation failures inside [getline] and [sscanf], and the command
    lines that [argp_parse] answers itself (--help, unknown options). *)

From Stdlib Require Import Ascii String ZArith Lia.
From Stdlib.Strings Require Byte.
From stdpp Require Import base list option strings.
From Equations Require Import Equations.

Open Scope Z_scope.

(** ** Characters, C strings and [char] arrays *)

Definition NUL : ascii := "000"%char.
Definition LF : ascii := "010"%char.
Definition COLON : ascii := ":"%char.
Definition DOT : ascii := "."%char.

(** A string literal as its characters. *)
Definition chars (s : string) : list ascii := list_ascii_of_string s.

(** [isspace] of the C locale: space, \t, \n, \v, \f, \r. *)
Definition isspace (c : ascii) : bool :=
  match N_of_ascii c with
  | 32 | 9 | 10 | 11 | 12 | 13 => true
  | _ => false
  end%N.

(** Sizes of the arrays of [main]: [ADDRSTRLEN] is [INET6_ADDRSTRLEN]
    because [INET_ADDRSTRLEN] (16) is not larger. *)
Definition INET_ADDRSTRLEN : nat := 16.
Definition INET6_ADDRSTRLEN : nat := 46.
Definition ADDRSTRLEN : nat :=
  if (INET6_ADDRSTRLEN <? INET_ADDRSTRLEN)%nat then INET_ADDRSTRLEN
  else INET6_ADDRSTRLEN.
Definition IFNAMSIZ : nat := 16.
Definition PROC_NET_DEV_HEADER_LINES : nat := 2.

(** The C string an array holds: the bytes before the first NUL; [None]
    when the array holds no NUL (the read would run past its end). *)
Fixpoint cstr (b : list ascii) : option (list ascii) :=
  match b with
  | [] => None
  | c :: b' => if Ascii.eqb c NUL then Some [] else (c ::.) <$> cstr b'
  end.

(** The C string at the front of bytes that the C library terminates
    itself (the line [getline] returns): the bytes before the first NUL, all
    of them when there is none. *)
Fixpoint upto_nul (b : list ascii) : list ascii :=
  match b with
  | [] => []
  | c :: b' => if Ascii.eqb c NUL then [] else c :: upto_nul b'
  end.

(** ["%.4s"]: at most [n] bytes, stopping early at a NUL. *)
Fixpoint strn (n : nat) (b : list ascii) : list ascii :=
  match n, b with
  | S n', c :: b' => if Ascii.eqb c NUL then [] else c :: strn n' b'
  | _, _ => []
  end.

(** What the [%s] conversion does to its destination array: the token and a
    terminator overwrite the front; bytes behind stay.  A token that does
    not fit overruns the array ([None]). *)
Definition stored (tok b : list ascii) : list ascii :=
  tok ++ NUL :: drop (S (length tok)) b.

Definition store (tok b : list ascii) : option (list ascii) :=
  if decide (length tok < length b)%nat then Some (stored tok b) else None.

(** [strncpy(dst, src, n)] into an [n]-byte field: [src] cut at [n] bytes,
    NUL-padded when shorter. *)
Definition strncpy (src : list ascii) (n : nat) : list ascii :=
  resize n NUL src.

(** [strcmp] on C strings. *)
Fixpoint strcmp (a b : list ascii) : Z :=
  match a, b with
  | [], [] => 0
  | [], d :: _ => - Z.of_N (N_of_ascii d)
  | c :: _, [] => Z.of_N (N_of_ascii c)
  | c :: a', d :: b' =>
      if Ascii.eqb c d then strcmp a' b'
      else Z.of_N (N_of_ascii c) - Z.of_N (N_of_ascii d)
  end.

(** [index(s, c)]: offset of the first [c] in [s], [None] for the NULL
    pointer returned when there is none. *)
Fixpoint index (s : list ascii) (c : ascii) : option nat :=
  match s with
  | [] => None
  | x :: s' => if Ascii.eqb x c then Some O else S <$> index s' c
  end.

(** ** Reading streams *)

(** [getline]: the next line with its newline, or the rest of the stream
    when it does not end in one; [None] (the C [-1]) at end of file. *)
Fixpoint getline (f : list ascii) : option (list ascii * list ascii) :=
  match f with
  | [] => None
  | c :: f' =>
      if Ascii.eqb c LF then Some ([c], f')
      else match getline f' with
           | None => Some ([c], [])
           | Some (l, r) => Some (c :: l, r)
           end
  end.

(** White space skipped before a conversion. *)
Fixpoint skip_space (f : list ascii) : list ascii :=
  match f with
  | [] => []
  | c :: f' => if isspace c then skip_space f' else f
  end.

(** The run of non-space characters at the front of the stream. *)
Fixpoint span_nonspace (f : list ascii) : list ascii * list ascii :=
  match f with
  | [] => ([], [])
  | c :: f' =>
      if isspace c then ([], f)
      else let '(t, r) := span_nonspace f' in (c :: t, r)
  end.

(** One [%s] conversion (also [%*s] and [%ms]): skip white space, read a
    token; [None] is the input failure at end of input. *)
Definition scan_s (f : list ascii) : option (list ascii * list ascii) :=
  match skip_space f with
  | [] => None
  | f1 => Some (span_nonspace f1)
  end.

(** [%*s]: the token is read and dropped. *)
Definition scan_skip (f : list ascii) : option (list ascii) :=
  snd <$> scan_s f.

(** [sscanf(line, "%ms", &p)]: [line] is a C string, so the scan stops at
    an embedded NUL; the result is the freshly allocated token. *)
Definition sscanf_ms (line : list ascii) : option (list ascii) :=
  fst <$> scan_s (upto_nul line).

Lemma getline_shorter f l r :
  getline f = Some (l, r) → (length r < length f)%nat.
Proof.
  revert l r. induction f as [|c f IH]; intros l r; simpl; [done|].
  destruct (Ascii.eqb c LF).
  - intros [= <- <-]. lia.
  - destruct (getline f) as [[l' r']|] eqn:E.
    + intros [= <- <-]. specialize (IH _ _ eq_refl). lia.
    + intros [= <- <-]. simpl. lia.
Qed.

(** ** The interface lister: [get_interfaces] *)

(** A value together with the equation that it is the result of the call,
    for the termination proofs of the loops that read a stream. *)
Definition inspect {A} (a : A) : {b : A | a = b} := exist _ a eq_refl.

(** The counting loop [for (; getline(...) != -1; ++*num_interfaces);]. *)
Equations? count_lines (f : list ascii) (num : nat) : nat
  by wf (length f) lt :=
  count_lines f num with inspect (getline f) := {
    | exist _ (Some (_, f')) E => count_lines f' (S num)
    | exist _ None _ => num }.
Proof. eapply getline_shorter; eauto. Qed.

(** How a call that can stop the process ends. *)
Inductive lister_result :=
| Listed (interfaces : list (option (list ascii))) (num_interfaces : nat)
| ListerFatal (message : list ascii)   (* error(EXIT_FAILURE, ...) *)
| ListerCrash.                         (* write through a NULL pointer *)

(** The parsing loop.  [n] is [*num_interfaces - i]; the array was
    [calloc]ed, so a slot never assigned is NULL ([None]).
    [sscanf] leaves the slot NULL on a blank line and [index] returns NULL
    on a token without colon: both make the store [*index(...) = 0] go
    through a NULL pointer. *)
Fixpoint parse_lines (n i : nat) (f : list ascii)
    (interfaces : list (option (list ascii))) : option (list (option (list ascii))) :=
  match n with
  | O => Some interfaces
  | S n' =>
      match getline f with
      | None => Some interfaces
      | Some (line, f') =>
          match sscanf_ms line with
          | None => None
          | Some tok =>
              match index tok COLON with
              | None => None
              | Some k =>
                  parse_lines n' (S i) f' (<[i := Some (take k tok)]> interfaces)
              end
          end
      end
  end.

(** Skipping the header lines: [None] when a [getline] fails. *)
Fixpoint skip_header (n : nat) (f : list ascii) : option (list ascii) :=
  match n with
  | O => Some f
  | S n' => match getline f with
            | None => None
            | Some (_, f') => skip_header n' f'
            end
  end.

Definition could_not_open_dev : list ascii :=
  chars "error listing interfaces: could not open file /proc/net/dev".
Definition could_not_parse_dev : list ascii :=
  chars "error listing interfaces: could not parse file /proc/net/dev".

(** [get_interfaces]; the argument is what [fopen("/proc/net/dev")] gives:
    [None] for a failed open, else the text of the file. *)
Definition get_interfaces (proc_net_dev : option (list ascii)) : lister_result :=
  match proc_net_dev with
  | None => ListerFatal could_not_open_dev
  | Some f0 =>
      match skip_header PROC_NET_DEV_HEADER_LINES f0 with
      | None => ListerFatal could_not_parse_dev
      | Some first_ifc_line =>
          let num_interfaces := count_lines first_ifc_line 0 in
          let interfaces := replicate num_interfaces None in
          match parse_lines num_interfaces 0 first_ifc_line interfaces with
          | None => ListerCrash
          | Some interfaces' => Listed interfaces' num_interfaces
          end
      end
  end.

(** ** The interface validator: [remove_bad_interfaces] *)

Definition could_not_open_interface (name : list ascii) : list ascii :=
  chars "could not open interface " ++ name.

(** What the function leaves behind: the array (compacted in place), the
    new [*num_interfaces], the lines [error] wrote and the return value. *)
Record removed := Removed {
  rm_interfaces : list (list ascii);
  rm_num_interfaces : nat;
  rm_stderr : list (list ascii);
  rm_return : Z
}.

(** The loop of [remove_bad_interfaces]; [n] is [*num_interfaces - in_ix].
    [ifindex_ok in_ix name] tells whether the [SIOCGIFINDEX] ioctl of the
    iteration [in_ix], asked about the 16-byte field [name], returns 0.
    [errno] is kept as "non-zero".  Reading [interfaces[in_ix]] outside the
    array is undefined ([None]). *)
Fixpoint remove_bad_loop (ifindex_ok : nat → list ascii → bool)
    (n in_ix out_ix : nat) (interfaces : list (list ascii))
    (stderr : list (list ascii)) (errno : bool) : option removed :=
  match n with
  | O => Some (Removed interfaces out_ix stderr (if errno then -1 else 0))
  | S n' =>
      match interfaces !! in_ix with
      | None => None
      | Some name =>
          let ifr_name := strncpy name IFNAMSIZ in
          if ifindex_ok in_ix ifr_name
          then remove_bad_loop ifindex_ok n' (S in_ix) (S out_ix)
                 (<[out_ix := name]> interfaces) stderr errno
          else remove_bad_loop ifindex_ok n' (S in_ix) out_ix interfaces
                 (stderr ++ [could_not_open_interface name]) true
      end
  end.

Definition remove_bad_interfaces (ifindex_ok : nat → list ascii → bool)
    (interfaces : list (list ascii)) (num_interfaces : nat) : option removed :=
  remove_bad_loop ifindex_ok num_interfaces 0 0 interfaces [] false.

(** ** Command line *)

Record args := Args {
  ip_version_specified : bool;
  ipv4 : bool;
  ipv6 : bool;
  include_loopback : bool;
  include_link_local : bool;
  interfaces_specified : bool;
  list_interfaces : bool;
  interfaces : list (list ascii);
  num_interfaces : nat
}.

Definition OPT_INCLUDE_LOOPBACK : Z := 1.
Definition OPT_INCLUDE_LINK_LOCAL : Z := 2.
Definition OPT_LIST_INTERFACES : Z := 3.
Definition KEY_4 : Z := Z.of_N (N_of_ascii "4").
Definition KEY_6 : Z := Z.of_N (N_of_ascii "6").
(** Values of [<argp.h>]. *)
Definition ARGP_KEY_ARGS : Z := 0x1000006.
Definition ARGP_ERR_UNKNOWN : Z := 7.

(** [parse_opt]; [rest] is [state->argv + state->next], the arguments left
    when the key is [ARGP_KEY_ARGS]. *)
Definition parse_opt (key : Z) (rest : list (list ascii)) (a : args) : Z * args :=
  if key =? KEY_4 then
    (0, Args true true (ipv6 a) (include_loopback a) (include_link_local a)
          (interfaces_specified a) (list_interfaces a) (interfaces a) (num_interfaces a))
  else if key =? KEY_6 then
    (0, Args true (ipv4 a) true (include_loopback a) (include_link_local a)
          (interfaces_specified a) (list_interfaces a) (interfaces a) (num_interfaces a))
  else if key =? OPT_INCLUDE_LOOPBACK then
    (0, Args (ip_version_specified a) (ipv4 a) (ipv6 a) true (include_link_local a)
          (interfaces_specified a) (list_interfaces a) (interfaces a) (num_interfaces a))
  else if key =? OPT_INCLUDE_LINK_LOCAL then
    (0, Args (ip_version_specified a) (ipv4 a) (ipv6 a) (include_loopback a) true
          (interfaces_specified a) (list_interfaces a) (interfaces a) (num_interfaces a))
  else if key =? OPT_LIST_INTERFACES then
    (0, Args (ip_version_specified a) (ipv4 a) (ipv6 a) (include_loopback a)
          (include_link_local a) (interfaces_specified a) true (interfaces a) (num_interfaces a))
  else if key =? ARGP_KEY_ARGS then
    (0, Args (ip_version_specified a) (ipv4 a) (ipv6 a) (include_loopback a)
          (include_link_local a) true (list_interfaces a) rest (length rest))
  else (ARGP_ERR_UNKNOWN, a).

(** The options of the table [options]. *)
Inductive flag :=
| Flag4 | Flag6 | FlagIncludeLoopback | FlagIncludeLinkLocal | FlagListInterfaces.

#[global] Instance flag_eq_dec : EqDecision flag.
Proof. solve_decision. Defined.

Definition key_of (o : flag) : Z :=
  match o with
  | Flag4 => KEY_4
  | Flag6 => KEY_6
  | FlagIncludeLoopback => OPT_INCLUDE_LOOPBACK
  | FlagIncludeLinkLocal => OPT_INCLUDE_LINK_LOCAL
  | FlagListInterfaces => OPT_LIST_INTERFACES
  end.

(** A command line that [argp_parse] accepts: the options given, in order,
    and the positional arguments (interface names). *)
Record cmdline := Cmdline {
  flags : list flag;
  names : list (list ascii)
}.

Definition initial_args : args :=
  Args false false false false false false false [] 0.

(** [argp_parse]: [parse_opt] once per option, then once with
    [ARGP_KEY_ARGS] when positional arguments are left. *)
Definition argp_parse (c : cmdline) (a : args) : args :=
  let a1 := foldl (λ a o, snd (parse_opt (key_of o) [] a)) a (flags c) in
  match names c with
  | [] => a1
  | rest => snd (parse_opt ARGP_KEY_ARGS rest a1)
  end.

(** ** Addresses *)

Inductive family := AF_INET | AF_INET6.

(** An emitted address: the printed text, with the interface and family it
    was printed for. *)
Record AddressRecord := AddressLine {
  ar_interface : list ascii;
  ar_family : family;
  ar_address : list ascii
}.

(** [struct in_addr]: the four bytes in memory (network) order. *)
Record in_addr := InAddr {
  s_b0 : Byte.byte; s_b1 : Byte.byte; s_b2 : Byte.byte; s_b3 : Byte.byte
}.

(** An entry of the [SIOCGIFCONF] table. *)
Record ifreq := Ifreq { ifr_name : list ascii; sin_addr : in_addr }.

(** [sizeof(struct ifreq)] on Linux/LP64. *)
Definition sizeof_ifreq : nat := 40.

Definition digit (n : N) : ascii := ascii_of_N (48 + n).

(** ["%u"] of one byte. *)
Definition fmt_u8 (b : Byte.byte) : list ascii :=
  let n := Byte.to_N b in
  if (n <? 10)%N then [digit n]
  else if (n <? 100)%N then [digit (n / 10); digit (n mod 10)]
  else [digit (n / 100); digit (n / 10 mod 10); digit (n mod 10)].

(** [inet_ntop(AF_INET, src, dst, size)]: dotted decimal. *)
Definition inet_ntop (src : in_addr) : list ascii :=
  fmt_u8 (s_b0 src) ++ DOT :: fmt_u8 (s_b1 src) ++ DOT ::
  fmt_u8 (s_b2 src) ++ DOT :: fmt_u8 (s_b3 src).

(** [lfind(&key, base, &nmemb, sizeof(char * ), cmp)]: the first of the
    [nmemb] leading entries that [cmp] (that is [strcmp]) finds equal. *)
Definition cmp (left right : list ascii) : Z := strcmp left right.

Definition lfind (key : list ascii) (base : list (list ascii)) (nmemb : nat)
    : option (list ascii) :=
  find (λ e, cmp key e =? 0) (take nmemb base).

(** The loop over the [SIOCGIFCONF] table. *)
Fixpoint ipv4_loop (a : args) (ifc_req : list ifreq) : list AddressRecord :=
  match ifc_req with
  | [] => []
  | r :: rest =>
      let ifc := ifr_name r in
      if negb (interfaces_specified a)
         || bool_decide (is_Some (lfind ifc (interfaces a) (num_interfaces a)))
      then
        if negb (ip_version_specified a) || ipv4 a
        then AddressLine ifc AF_INET (inet_ntop (sin_addr r)) :: ipv4_loop a rest
        else ipv4_loop a rest
      else ipv4_loop a rest
  end.

(** [snprintf(pretty_ip, sizeof(pretty_ip), "%.4s:%.4s:...:%.4s", ip, ip + 4,
    ..., ip + 28)]: eight groups of at most four bytes of the array, cut to
    the size of [pretty_ip]. *)
Definition pretty_ip (ip : list ascii) : list ascii :=
  take (ADDRSTRLEN - 1)
    (strn 4 ip ++ COLON :: strn 4 (drop 4 ip) ++ COLON ::
     strn 4 (drop 8 ip) ++ COLON :: strn 4 (drop 12 ip) ++ COLON ::
     strn 4 (drop 16 ip) ++ COLON :: strn 4 (drop 20 ip) ++ COLON ::
     strn 4 (drop 24 ip) ++ COLON :: strn 4 (drop 28 ip)).

(** ** The IPv6 table *)

(** What [fscanf(if_inet6, "%s %*s %*s %*s %*s %s", ip, ifc)] does.  The
    conversions read white-space delimited tokens wherever the line breaks
    are.  End of input before the first token gives [EOF]; end of input
    later gives the number of assignments made so far (1, [ifc] untouched);
    six tokens give 2.  A token that does not fit its array overruns it. *)
Inductive fscanf_result :=
| FscanfEOF
| FscanfItems (n : nat) (ip ifc rest : list ascii)
| FscanfOverrun.

Definition fscanf_if_inet6 (f ip ifc : list ascii) : fscanf_result :=
  match scan_s f with
  | None => FscanfEOF
  | Some (t1, f1) =>
      match store t1 ip with
      | None => FscanfOverrun
      | Some ip' =>
          match f2 ← scan_skip f1; f3 ← scan_skip f2; f4 ← scan_skip f3;
                f5 ← scan_skip f4; scan_s f5 with
          | None => FscanfItems 1 ip' ifc []
          | Some (t6, f6) =>
              match store t6 ifc with
              | None => FscanfOverrun
              | Some ifc' => FscanfItems 2 ip' ifc' f6
              end
          end
      end
  end.

(** The body of the [while] loop: the interface test, then the line.
    [None] when names were given and the array [ifc] holds no terminator:
    [strcmp] may then read past its end.  This counts every such run as
    undefined, also one in which [lfind] has no element to compare or
    [strcmp] stops at a difference before the end of the array; the array
    holds a terminator as soon as one row of six fields was read. *)
Definition ipv6_body (a : args) (ip ifc : list ascii) : option (list AddressRecord) :=
  let line := AddressLine (upto_nul ifc) AF_INET6 (pretty_ip ip) in
  if negb (interfaces_specified a) then Some [line]
  else
    ifc_p ← cstr ifc;
    Some (if bool_decide (is_Some (lfind ifc_p (interfaces a) (num_interfaces a)))
          then [line] else []).

Lemma skip_space_length f : (length (skip_space f) ≤ length f)%nat.
Proof.
  induction f as [|c f IH]; simpl; [lia|].
  destruct (isspace c); simpl; lia.
Qed.

Lemma span_nonspace_length f :
  (length (span_nonspace f).2 ≤ length f)%nat.
Proof.
  induction f as [|c f IH]; simpl; [lia|].
  destruct (isspace c); simpl; [lia|].
  destruct (span_nonspace f); simpl in *; lia.
Qed.

Lemma scan_s_shorter f t r :
  scan_s f = Some (t, r) → (length r < length f)%nat.
Proof.
  unfold scan_s. pose proof (skip_space_length f) as Hs.
  destruct (skip_space f) as [|c g] eqn:E; [done|].
  assert (isspace c = false) as Hc.
  { clear Hs. induction f as [|d f IH]; simpl in E; [done|].
    destruct (isspace d) eqn:Hd; [auto | congruence]. }
  simpl. rewrite Hc. pose proof (span_nonspace_length g) as Hg.
  destruct (span_nonspace g) as [t' r']; simpl in *.
  intros [= <- <-]. lia.
Qed.

Lemma scan_skip_shorter f r :
  scan_skip f = Some r → (length r < length f)%nat.
Proof.
  unfold scan_skip. destruct (scan_s f) as [[t r']|] eqn:E; [|done].
  intros [= <-]. eapply scan_s_shorter, E.
Qed.

Lemma fscanf_if_inet6_shorter f ip ifc n ip' ifc' rest :
  fscanf_if_inet6 f ip ifc = FscanfItems n ip' ifc' rest →
  (length rest < length f)%nat.
Proof.
  unfold fscanf_if_inet6.
  destruct (scan_s f) as [[t1 f1]|] eqn:E1; [|done].
  apply scan_s_shorter in E1.
  destruct (store t1 ip); [|done].
  destruct (scan_skip f1) as [f2|] eqn:E2; simpl;
    [apply scan_skip_shorter in E2 | intros [= <- <- <- <-]; simpl; lia].
  destruct (scan_skip f2) as [f3|] eqn:E3; simpl;
    [apply scan_skip_shorter in E3 | intros [= <- <- <- <-]; simpl; lia].
  destruct (scan_skip f3) as [f4|] eqn:E4; simpl;
    [apply scan_skip_shorter in E4 | intros [= <- <- <- <-]; simpl; lia].
  destruct (scan_skip f4) as [f5|] eqn:E5; simpl;
    [apply scan_skip_shorter in E5 | intros [= <- <- <- <-]; simpl; lia].
  destruct (scan_s f5) as [[t6 f6]|] eqn:E6;
    [apply scan_s_shorter in E6 | intros [= <- <- <- <-]; simpl; lia].
  destruct (store t6 ifc); [|done].
  intros [= <- <- <- <-]. lia.
Qed.

(** [while (fscanf(...) != EOF) { body }]: what the bodies produce, and
    whether the loop ran to the end of the table ([false]: undefined
    behaviour was reached, after what is given).  [body] receives the two
    arrays as [fscanf] left them. *)
Equations? while_fscanf {A} (body : list ascii → list ascii → option (list A))
    (f ip ifc : list ascii) : list A * bool by wf (length f) lt :=
  while_fscanf body f ip ifc with inspect (fscanf_if_inet6 f ip ifc) := {
    | exist _ FscanfEOF _ => ([], true)
    | exist _ FscanfOverrun _ => ([], false)
    | exist _ (FscanfItems _ ip' ifc' f') E =>
        match body ip' ifc' with
        | None => ([], false)
        | Some out =>
            let '(more, ok) := while_fscanf body f' ip' ifc' in (out ++ more, ok)
        end }.
Proof. eapply fscanf_if_inet6_shorter, E. Qed.

(** The loop of [main] over the IPv6 table. *)
Definition ipv6_loop (a : args) (f ip ifc : list ascii) : list AddressRecord * bool :=
  while_fscanf (ipv6_body a) f ip ifc.

(** The same loop with a body that only records the two arrays: the rows
    the parser reads off the table. *)
Definition table_rows (f ip ifc : list ascii) : list (list ascii * list ascii) * bool :=
  while_fscanf (λ ip ifc, Some [(ip, ifc)]) f ip ifc.

(** ** The system and the program *)

(** What the program is run against.  Every field is the answer of one
    call of [main]. *)
Record sys := Sys {
  (** [fopen("/proc/net/dev")]: [None] when it fails, else the text *)
  proc_net_dev : option (list ascii);
  (** [access("/proc/net", R_OK) == 0] *)
  access_proc_net : bool;
  (** [access("/proc/net/if_inet6", R_OK) == 0] *)
  access_if_inet6 : bool;
  (** [socket(AF_INET6, SOCK_DGRAM, IPPROTO_IP) != -1] *)
  socket_ok : bool;
  (** [ioctl(sockfd, SIOCGIFINDEX, &req) == 0] at iteration [in_ix] *)
  ifindex_ok : nat → list ascii → bool;
  (** first [SIOCGIFCONF] (no buffer): [None] when it fails, else the
      [ifc_len] the kernel asks for *)
  ifconf_len : option nat;
  (** [malloc(stuff.ifc_len) != NULL] *)
  malloc_ok : bool;
  (** second [SIOCGIFCONF]: [None] when it fails, else the kernel's table at
      that time, of which it copies what fits the buffer *)
  ifconf_table : option (list ifreq);
  (** [fopen("/proc/net/if_inet6")]: [None] when it fails, else the text *)
  if_inet6 : option (list ascii);
  (** the bytes the automatic arrays [ip] and [ifc] hold before the first
      [fscanf] (indeterminate in C) *)
  stack_ip : list ascii;
  stack_ifc : list ascii
}.

Definition EXIT_SUCCESS : Z := 0.
Definition EXIT_FAILURE : Z := 1.

(** How a run ends: [exit]/[return] with a code, or undefined behaviour. *)
Inductive status := Exited (code : Z) | Undefined.

(** A run: the lines written to standard output and to standard error (each
    without its newline; for [error] and [perror] the message without the
    program name and the [errno] text), how it ended, and the address
    records behind the address lines. *)
Record run := Run {
  stdout : list (list ascii);
  stderr : list (list ascii);
  exit_status : status;
  emitted : list AddressRecord
}.

Definition something_went_wrong : list ascii := chars "something went wrong".
Definition could_not_open_if_inet6 : list ascii :=
  chars "could not open file /proc/net/if_inet6".

(** The label [errorout]: [perror] and [exit(EXIT_FAILURE)]; what was
    printed before stays printed. *)
Definition errorout (out : list AddressRecord) (err : list (list ascii)) : run :=
  Run (ar_address <$> out) (err ++ [something_went_wrong]) (Exited EXIT_FAILURE) out.

(** [for (i = 0; i < num_interfaces; ++i) printf("%s\n", interfaces[i]);]
    with [n] for [num_interfaces - i]; a NULL or missing slot is undefined. *)
Fixpoint print_interfaces (n i : nat) (interfaces : list (option (list ascii)))
    : option (list (list ascii)) :=
  match n with
  | O => Some []
  | S n' =>
      match interfaces !! i with
      | Some (Some name) => (name ::.) <$> print_interfaces n' (S i) interfaces
      | _ => None
      end
  end.

(** The call [remove_bad_interfaces(sockfd, args.interfaces,
    &args.num_interfaces)] of [main]: [args] afterwards, and the lines
    written to standard error. *)
Definition validated (a : args) (s : sys) : option (args * list (list ascii)) :=
  rm ← remove_bad_interfaces (ifindex_ok s) (interfaces a) (num_interfaces a);
  Some (Args (ip_version_specified a) (ipv4 a) (ipv6 a)
          (include_loopback a) (include_link_local a)
          (interfaces_specified a) (list_interfaces a)
          (rm_interfaces rm) (rm_num_interfaces rm),
        rm_stderr rm).

(** [main] from the [access] checks on: [a] holds the parsed options. *)
Definition list_addresses (a : args) (s : sys) : run :=
  if negb (access_proc_net s) then errorout [] []
  else if negb (access_if_inet6 s) then errorout [] []
  else if negb (socket_ok s) then errorout [] []
  else
    match validated a s with
    | None => Run [] [] Undefined []
    | Some (a, err) =>
        match ifconf_len s with
        | None => errorout [] err
        | Some ifc_len =>
            if negb (malloc_ok s) then errorout [] err
            else
              match ifconf_table s with
              | None => errorout [] err
              | Some table =>
                  let ifc_req := take (ifc_len / sizeof_ifreq) table in
                  let out4 := ipv4_loop a ifc_req in
                  if negb (ip_version_specified a) || ipv6 a then
                    match if_inet6 s with
                    | None => errorout out4 (err ++ [could_not_open_if_inet6])
                    | Some f =>
                        let ip := resize ADDRSTRLEN NUL (stack_ip s) in
                        let ifc := resize IFNAMSIZ NUL (stack_ifc s) in
                        let '(out6, ok) := ipv6_loop a f ip ifc in
                        Run (ar_address <$> out4 ++ out6) err
                          (if ok then Exited EXIT_SUCCESS else Undefined)
                          (out4 ++ out6)
                    end
                  else Run (ar_address <$> out4) err (Exited EXIT_SUCCESS) out4
              end
        end
    end.

Definition main (c : cmdline) (s : sys) : run :=
  let a := argp_parse c initial_args in
  match get_interfaces (proc_net_dev s) with
  | ListerFatal message => Run [] [message] (Exited EXIT_FAILURE) []
  | ListerCrash => Run [] [] Undefined []
  | Listed interfaces num_interfaces =>
      if list_interfaces a then
        match print_interfaces num_interfaces 0 interfaces with
        | Some out => Run out [] (Exited EXIT_SUCCESS) []
        | None => Run [] [] Undefined []
        end
      else list_addresses a s
  end.

(** ** Notions the properties are stated with *)

(** The names, of those probed from iteration [i] on, whose probe succeeds
    ([probed_ok]) or fails ([probed_bad]), in their order. *)
Fixpoint probed_ok (ok : nat → list ascii → bool) (i : nat)
    (names : list (list ascii)) : list (list ascii) :=
  match names with
  | [] => []
  | n :: rest =>
      if ok i (strncpy n IFNAMSIZ) then n :: probed_ok ok (S i) rest
      else probed_ok ok (S i) rest
  end.

Fixpoint probed_bad (ok : nat → list ascii → bool) (i : nat)
    (names : list (list ascii)) : list (list ascii) :=
  match names with
  | [] => []
  | n :: rest =>
      if ok i (strncpy n IFNAMSIZ) then probed_bad ok (S i) rest
      else n :: probed_bad ok (S i) rest
  end.

(** A hexadecimal digit, as [/proc/net/if_inet6] writes addresses. *)
Definition isxdigit (c : ascii) : bool :=
  let n := N_of_ascii c in
  ((48 <=? n) && (n <=? 57) || (97 <=? n) && (n <=? 102)
   || (65 <=? n) && (n <=? 70))%N.

(** The first [n] consecutive groups of four characters of a string. *)
Fixpoint groups_of (n : nat) (s : list ascii) : list (list ascii) :=
  match n with
  | O => []
  | S n' => take 4 s :: groups_of n' (drop 4 s)
  end.

(** Groups joined by colons. *)
Fixpoint colon_join (groups : list (list ascii)) : list ascii :=
  match groups with
  | [] => []
  | [g] => g
  | g :: rest => g ++ COLON :: colon_join rest
  end.

(** The white-space delimited tokens of a text. *)
Definition starts_token (s : list ascii) : bool :=
  match s with
  | [] => false
  | d :: _ => negb (isspace d)
  end.

Definition push_char (c : ascii) (ts : list (list ascii)) : list (list ascii) :=
  match ts with
  | [] => [[c]]
  | t :: ts' => (c :: t) :: ts'
  end.

Fixpoint tokens (s : list ascii) : list (list ascii) :=
  match s with
  | [] => []
  | c :: s' =>
      if isspace c then tokens s'
      else if starts_token s' then push_char c (tokens s')
      else [c] :: tokens s'
  end.

(** The text of a table given by its lines, each ended by a newline. *)
Definition table_of_lines (ls : list (list ascii)) : list ascii :=
  concat ((λ l, l ++ [LF]) <$> ls).

(** The first and the last field of a line of six fields. *)
Definition six_fields (l : list ascii) : option (list ascii * list ascii) :=
  match tokens l with
  | [t1; _; _; _; _; t6] => Some (t1, t6)
  | _ => None
  end.

(** A line of the IPv6 table as the kernel writes it, as far as the parser
    depends on it: six fields, the first shorter than the array [ip], the
    last shorter than the array [ifc], no NUL byte in either. *)
Definition table_line (l : list ascii) : bool :=
  match six_fields l with
  | Some (t1, t6) =>
      bool_decide (length t1 < ADDRSTRLEN)%nat
      && bool_decide (length t6 < IFNAMSIZ)%nat
      && forallb (λ c, negb (Ascii.eqb c NUL)) (t1 ++ t6)
  | None => false
  end.

(** The two arrays after each of a sequence of stores. *)
Fixpoint arrays_after (fields : list (list ascii * list ascii))
    (ip ifc : list ascii) : list (list ascii * list ascii) :=
  match fields with
  | [] => []
  | (t1, t6) :: rest =>
      (stored t1 ip, stored t6 ifc)
      :: arrays_after rest (stored t1 ip) (stored t6 ifc)
  end.

(** The part of a token before its first colon. *)
Fixpoint before_colon (tok : list ascii) : list ascii :=
  match tok with
  | [] => []
  | c :: tok' => if Ascii.eqb c COLON then [] else c :: before_colon tok'
  end.

(** The name a line of the interface listing carries: its first token with
    the colon suffix stripped. *)
Definition interface_name (l : list ascii) : option (list ascii) :=
  before_colon <$> head (tokens l).

(** A line of text: no newline and no NUL byte inside. *)
Definition text_line (l : list ascii) : bool :=
  forallb (λ c, negb (Ascii.eqb c LF) && negb (Ascii.eqb c NUL)) l.

(** A data line of the interface listing: a line of text whose first token
    carries a colon (the kernel writes ["%6s:"] and the counters). *)
Definition data_line (l : list ascii) : bool :=
  text_line l
  && match head (tokens l) with
     | Some tok => existsb (λ c, Ascii.eqb c COLON) tok
     | None => false
     end.

(** A decimal digit. *)
Definition isdigit (c : ascii) : bool :=
  let n := N_of_ascii c in ((48 <=? n) && (n <=? 57))%N.

(** A group of one to three decimal digits. *)
Definition decimal_group (g : list ascii) : Prop :=
  (1 ≤ length g ≤ 3)%nat ∧ Forall (λ c, isdigit c = true) g.

(** Dotted-decimal IPv4 form: four decimal groups separated by dots. *)
Definition dotted_decimal (line : list ascii) : Prop :=
  ∃ a b c d, decimal_group a ∧ decimal_group b ∧ decimal_group c ∧ decimal_group d
    ∧ line = a ++ DOT :: b ++ DOT :: c ++ DOT :: d.

(** What a run prints in address mode: an address record is only emitted
    when its family is asked for; IPv4 records are printed in
    dotted-decimal form, IPv6 records with colons. *)
Definition permitted (a : args) (r : AddressRecord) : Prop :=
  (ar_family r = AF_INET
   ∧ (ip_version_specified a = false ∨ ipv4 a = true)
   ∧ dotted_decimal (ar_address r))
  ∨ (ar_family r = AF_INET6
     ∧ (ip_version_specified a = false ∨ ipv6 a = true)
     ∧ COLON ∈ ar_address r).

(** The interface test of both loops: no names were given, or [lfind]
    finds the name among those given. *)
Definition selected (a : args) (name : list ascii) : bool :=
  negb (interfaces_specified a)
  || bool_decide (is_Some (lfind name (interfaces a) (num_interfaces a))).

(** The number a string of decimal digits denotes. *)
Definition u8_of_digits (l : list ascii) : N :=
  foldl (λ acc c, acc * 10 + (N_of_ascii c - 48))%N 0%N l.

(** A well-formed line of the IPv6 table whose first field has the 32
    characters of a packed address. *)
Definition full_address_line (l : list ascii) : bool :=
  table_line l
  && match six_fields l with
     | Some (t1, _) => (length t1 =? 32)%nat
     | None => false
     end.

(** The record printed for an entry of the IPv4 table, and for the address
    and name fields of a line of the IPv6 table. *)
Definition line4 (e : ifreq) : AddressRecord :=
  AddressLine (ifr_name e) AF_INET (inet_ntop (sin_addr e)).

Definition line6 (fields : list ascii * list ascii) : AddressRecord :=
  AddressLine fields.2 AF_INET6 (colon_join (groups_of 8 fields.1)).

(** Two [args] that differ at most in [include_loopback] and
    [include_link_local]. *)
Definition same_but_include (a1 a2 : args) : Prop :=
  ip_version_specified a1 = ip_version_specified a2
  ∧ ipv4 a1 = ipv4 a2 ∧ ipv6 a1 = ipv6 a2
  ∧ interfaces_specified a1 = interfaces_specified a2
  ∧ list_interfaces a1 = list_interfaces a2
  ∧ interfaces a1 = interfaces a2
  ∧ num_interfaces a1 = num_interfaces a2.

(** The command line without its --include-loopback and
    --include-link-local options. *)
Definition without_include (c : cmdline) : cmdline :=
  Cmdline (filter (λ o, o ≠ FlagIncludeLoopback ∧ o ≠ FlagIncludeLinkLocal) (flags c))
          (names c).

(** Whether [strcmp] finds a name equal to one of a list of names. *)
Definition matches (valid : list (list ascii)) (name : list ascii) : bool :=
  existsb (λ n, strcmp name n =? 0) valid.

(** A host on which no call of [main] other than the probes of interface
    names fails: the listing parses, the [access] checks, the socket, both
    [SIOCGIFCONF] calls and [malloc] succeed, and the IPv6 table opens and
    is made of well-formed lines. *)
Definition no_fatal_error (s : sys) : Prop :=
  (∃ interfaces num, get_interfaces (proc_net_dev s) = Listed interfaces num)
  ∧ access_proc_net s = true ∧ access_if_inet6 s = true ∧ socket_ok s = true
  ∧ is_Some (ifconf_len s) ∧ malloc_ok s = true ∧ is_Some (ifconf_table s)
  ∧ ∃ ls, if_inet6 s = Some (table_of_lines ls)
          ∧ Forall (λ l, table_line l = true) ls.

(** ** Notions of the further properties of the code *)

(** The command line without its -4 and -6 options. *)
Definition without_family (c : cmdline) : cmdline :=
  Cmdline (filter (λ o, o ≠ Flag4 ∧ o ≠ Flag6) (flags c)) (names c).

(** Whether the options ask for the lines of a family: its option was
    given, or neither -4 nor -6 was. *)
Definition wants4 (c : cmdline) : bool :=
  bool_decide (Flag4 ∈ flags c) || negb (bool_decide (Flag6 ∈ flags c)).
Definition wants6 (c : cmdline) : bool :=
  bool_decide (Flag6 ∈ flags c) || negb (bool_decide (Flag4 ∈ flags c)).

(** [main] from the first [SIOCGIFCONF] on: [a] is [args] as
    [remove_bad_interfaces] left it, [err] what was written to standard
    error so far. *)
Definition resolve (a : args) (err : list (list ascii)) (s : sys) : run :=
  match ifconf_len s with
  | None => errorout [] err
  | Some ifc_len =>
      if negb (malloc_ok s) then errorout [] err
      else
        match ifconf_table s with
        | None => errorout [] err
        | Some table =>
            let ifc_req := take (ifc_len / sizeof_ifreq) table in
            let out4 := ipv4_loop a ifc_req in
            if negb (ip_version_specified a) || ipv6 a then
              match if_inet6 s with
              | None => errorout out4 (err ++ [could_not_open_if_inet6])
              | Some f =>
                  let ip := resize ADDRSTRLEN NUL (stack_ip s) in
                  let ifc := resize IFNAMSIZ NUL (stack_ifc s) in
                  let '(out6, ok) := ipv6_loop a f ip ifc in
                  Run (ar_address <$> out4 ++ out6) err
                    (if ok then Exited EXIT_SUCCESS else Undefined)
                    (out4 ++ out6)
              end
            else Run (ar_address <$> out4) err (Exited EXIT_SUCCESS) out4
        end
  end.

(** Two [args] under which the loops of [main] print the same: the same
    families are asked for and the interface test accepts the same names. *)
Definition same_selection (a1 a2 : args) : Prop :=
  negb (ip_version_specified a1) || ipv4 a1 = negb (ip_version_specified a2) || ipv4 a2
  ∧ negb (ip_version_specified a1) || ipv6 a1 = negb (ip_version_specified a2) || ipv6 a2
  ∧ interfaces_specified a1 = interfaces_specified a2
  ∧ ∀ name, selected a1 name = selected a2 name.

(** The interface test of a run, as the command line and the probes
    determine it: no names were given, or the name compares equal to one of
    the names that passed the probe. *)
Definition kept (c : cmdline) (s : sys) (name : list ascii) : bool :=
  bool_decide (names c = [])
  || matches (probed_ok (ifindex_ok s) 0 (names c)) name.

(** The calls of [main] between the interface listing and the loops all
    succeed. *)
Definition setup_ok (s : sys) : bool :=
  access_proc_net s && access_if_inet6 s && socket_ok s
  && match ifconf_len s with Some _ => true | None => false end
  && malloc_ok s
  && match ifconf_table s with Some _ => true | None => false end.

(** The arrays after the last of a sequence of stores. *)
Definition arrays_at_end (fields : list (list ascii * list ascii))
    (ip ifc : list ascii) : list ascii * list ascii :=
  default (ip, ifc) (last (arrays_after fields ip ifc)).

(** The eight groups printed for an address field [tok] stored over an
    array that held [old]: a group that starts within the field (or at its
    terminator) is made of the field's characters, a group that starts past
    the terminator is read from the bytes the array held before. *)
Definition groups_after_store (tok old : list ascii) : list (list ascii) :=
  (λ j, if decide (4 * j ≤ length tok)%nat
        then take 4 (drop (4 * j) tok)
        else strn 4 (drop (4 * j) old)) <$> seq 0 8.

(** The record printed for a row of the IPv6 table, read off the two arrays
    as [fscanf] left them: the name that [ifc] holds, and the address
    reconstructed from [ip]. *)
Definition record6 (row : list ascii * list ascii) : AddressRecord :=
  AddressLine (upto_nul row.2) AF_INET6 (pretty_ip row.1).

(** ** A sample host *)

Definition sample_header1 : list ascii :=
  chars "Inter-|   Receive                |  Transmit".
Definition sample_header2 : list ascii :=
  chars " face |bytes    packets errs drop|bytes    packets errs drop".
Definition sample_dev_lines : list (list ascii) :=
  [ chars "    lo: 1500 10 0 0 1500 10 0 0";
    chars "  eth0:9000000 70 0 0 8000 60 0 0" ].

Definition sample_dev : list ascii :=
  table_of_lines (sample_header1 :: sample_header2 :: sample_dev_lines).

Definition sample_if_inet6_lines : list (list ascii) :=
  [ chars "00000000000000000000000000000001 01 80 10 80       lo";
    chars "fe800000000000000a0027fffe4e66a1 02 40 20 80     eth0";
    chars "20010db8000000000000000000000042 02 40 00 80     eth0" ].

Definition sample_if_inet6 : list ascii := table_of_lines sample_if_inet6_lines.

(** A listing whose second data line has no colon after the name. *)
Definition colonless_dev : list ascii :=
  table_of_lines [ sample_header1; sample_header2;
                   chars "    lo: 1500 10 0 0 1500 10 0 0";
                   chars "  eth0 9000 70 0 0 8000 60 0 0";
                   chars "  wlan0: 100 1 0 0 100 1 0 0" ].

(** A host with another interface listing, another answer of the
    [access] check of the IPv6 table, another IPv4 table or another IPv6
    table. *)
Definition with_proc_net_dev (text : option (list ascii)) (s : sys) : sys :=
  Sys text (access_proc_net s) (access_if_inet6 s) (socket_ok s) (ifindex_ok s)
      (ifconf_len s) (malloc_ok s) (ifconf_table s) (if_inet6 s)
      (stack_ip s) (stack_ifc s).

Definition with_access_if_inet6 (ok : bool) (s : sys) : sys :=
  Sys (proc_net_dev s) (access_proc_net s) ok (socket_ok s) (ifindex_ok s)
      (ifconf_len s) (malloc_ok s) (ifconf_table s) (if_inet6 s)
      (stack_ip s) (stack_ifc s).

Definition with_ifconf_table (table : list ifreq) (s : sys) : sys :=
  Sys (proc_net_dev s) (access_proc_net s) (access_if_inet6 s) (socket_ok s)
      (ifindex_ok s) (Some (length table * sizeof_ifreq)%nat) (malloc_ok s)
      (Some table) (if_inet6 s) (stack_ip s) (stack_ifc s).

Definition with_if_inet6 (text : option (list ascii)) (s : sys) : sys :=
  Sys (proc_net_dev s) (access_proc_net s) (access_if_inet6 s) (socket_ok s)
      (ifindex_ok s) (ifconf_len s) (malloc_ok s) (ifconf_table s) text
      (stack_ip s) (stack_ifc s).

(** An IPv4 table in which eth0 carries the same address twice (as when
    it was added with two prefix lengths). *)
Definition repeated_table : list ifreq :=
  [ Ifreq (chars "eth0") (InAddr Byte.xc0 Byte.xa8 Byte.x01 Byte.x0a);
    Ifreq (chars "eth0") (InAddr Byte.xc0 Byte.xa8 Byte.x01 Byte.x0a) ].

(** A line of the IPv6 table whose first field has 48 characters. *)
Definition overlong_line : list ascii :=
  chars "fe800000000000000a0027fffe4e66a1fe800000000000ff 02 40 20 80 eth0".

(** A line with a seventh field. *)
Definition seven_field_line : list ascii :=
  chars "fe800000000000000a0027fffe4e66a1 02 40 20 80 eth0 extra".

Definition sample_table : list ifreq :=
  [ Ifreq (chars "lo") (InAddr Byte.x7f Byte.x00 Byte.x00 Byte.x01);
    Ifreq (chars "eth0") (InAddr Byte.xc0 Byte.xa8 Byte.x01 Byte.x0a) ].

Definition known_names : list (list ascii) := [chars "lo"; chars "eth0"].

Definition sample_sys : sys :=
  Sys (Some sample_dev) true true true
      (λ _ name, bool_decide (upto_nul name ∈ known_names))
      (Some 80%nat) true (Some sample_table) (Some sample_if_inet6) [] [].

(** * Properties *)

(** ** [remove_bad_interfaces] *)

Lemma remove_bad_loop_spec ok n : ∀ in_ix out_ix arr err errno,
  (out_ix ≤ in_ix)%nat → (in_ix + n ≤ length arr)%nat →
  ∃ rm, remove_bad_loop ok n in_ix out_ix arr err errno = Some rm
    ∧ take (rm_num_interfaces rm) (rm_interfaces rm)
      = take out_ix arr ++ probed_ok ok in_ix (take n (drop in_ix arr))
    ∧ rm_num_interfaces rm
      = (out_ix + length (probed_ok ok in_ix (take n (drop in_ix arr))))%nat
    ∧ length (rm_interfaces rm) = length arr
    ∧ rm_stderr rm
      = err ++ (could_not_open_interface <$> probed_bad ok in_ix (take n (drop in_ix arr))).
Proof.
  induction n as [|n IH]; intros in_ix out_ix arr err errno Hle Hlen.
  - eexists. split; [reflexivity|]. simpl. rewrite !app_nil_r. auto with lia.
  - destruct (lookup_lt_is_Some_2 arr in_ix) as [name Hname]; [lia|].
    simpl. rewrite Hname. rewrite (drop_S _ _ _ Hname). simpl.
    destruct (ok in_ix (strncpy name IFNAMSIZ)) eqn:Hok.
    + destruct (IH (S in_ix) (S out_ix) (<[out_ix:=name]> arr) err errno)
        as (rm & Hrm & Htake & Hnum & Hlength & Herr);
        [lia | rewrite length_insert; lia |].
      exists rm. split; [exact Hrm|].
      rewrite drop_insert_lt in Htake, Hnum, Herr by lia.
      rewrite length_insert in Hlength.
      assert (take (S out_ix) (<[out_ix:=name]> arr) = take out_ix arr ++ [name]) as Hhead.
      { erewrite take_S_r by (apply list_lookup_insert_eq; lia).
        by rewrite take_insert_ge by lia. }
      rewrite Hhead, <- app_assoc in Htake. simpl in *.
      repeat split; [exact Htake | lia | exact Hlength | exact Herr].
    + destruct (IH (S in_ix) out_ix arr
                  (err ++ [could_not_open_interface name]) true)
        as (rm & Hrm & Htake & Hnum & Hlength & Herr); [lia | lia |].
      exists rm. split; [exact Hrm|].
      rewrite <- app_assoc in Herr. simpl in *. auto.
Qed.

(** C10.  For every array of candidate names, every count [num] of entries
    within it and every outcome of the probes, [remove_bad_interfaces]
    returns, leaves in the first [*num_interfaces] slots of the array
    exactly the names whose probe succeeded, in their original order, and
    sets [*num_interfaces] to the number of those names; the array keeps
    its size. *)
Theorem remove_bad_interfaces_keeps_probed_ok
    (ok : nat → list ascii → bool) (arr : list (list ascii)) (num : nat) :
  (num ≤ length arr)%nat →
  ∃ rm, remove_bad_interfaces ok arr num = Some rm
    ∧ take (rm_num_interfaces rm) (rm_interfaces rm) = probed_ok ok 0 (take num arr)
    ∧ rm_num_interfaces rm = length (probed_ok ok 0 (take num arr))
    ∧ length (rm_interfaces rm) = length arr.
Proof.
  intros Hnum. unfold remove_bad_interfaces.
  destruct (remove_bad_loop_spec ok num 0 0 arr [] false)
    as (rm & Hrm & Htake & Hn & Hlength & _); [lia | lia |].
  exists rm. rewrite drop_0 in Htake, Hn. simpl in *. auto.
Qed.

(** An array of four names, two of which the sample host knows. *)
Lemma remove_bad_interfaces_keeps_probed_ok_witness :
  ∃ rm, remove_bad_interfaces (λ _ name, bool_decide (upto_nul name ∈ known_names))
          [chars "nope"; chars "eth0"; chars "wlan7"; chars "lo"] 4 = Some rm
    ∧ take (rm_num_interfaces rm) (rm_interfaces rm) = [chars "eth0"; chars "lo"]
    ∧ rm_num_interfaces rm = 2%nat
    ∧ length (rm_interfaces rm) = 4%nat.
Proof.
  pose proof (remove_bad_interfaces_keeps_probed_ok
                (λ _ name, bool_decide (upto_nul name ∈ known_names))
                [chars "nope"; chars "eth0"; chars "wlan7"; chars "lo"] 4) as H.
  vm_compute in H |- *. apply H. lia.
Defined.

(** ** IPv6 address reconstruction *)

Lemma isxdigit_not_NUL c : isxdigit c = true → Ascii.eqb c NUL = false.
Proof.
  intros H. apply Ascii.eqb_neq. intros ->. discriminate H.
Qed.

Lemma strn_app_take n : ∀ l r,
  Forall (λ c, Ascii.eqb c NUL = false) l → (n ≤ length l)%nat →
  strn n (l ++ r) = take n l.
Proof.
  induction n as [|n IH]; intros l r Hl Hn; [by destruct l|].
  destruct l as [|c l]; simpl in *; [lia|].
  inversion Hl as [|? ? Hc Hl']; subst. rewrite Hc.
  f_equal. apply IH; [done | lia].
Qed.

(** The group read at offset [k] of an array that holds [tok]. *)
Lemma strn_group tok r k :
  Forall (λ c, Ascii.eqb c NUL = false) tok → (k + 4 ≤ length tok)%nat →
  strn 4 (drop k (tok ++ NUL :: r)) = take 4 (drop k tok).
Proof.
  intros Htok Hk. rewrite drop_app_le by lia.
  apply strn_app_take; [by apply Forall_drop | rewrite length_drop; lia].
Qed.

Lemma store_fits tok b :
  (length tok < length b)%nat → store tok b = Some (stored tok b).
Proof. intros H. unfold store. by rewrite decide_True. Qed.

Lemma pretty_ip_of_stored tok r :
  Forall (λ c, Ascii.eqb c NUL = false) tok → length tok = 32%nat →
  pretty_ip (tok ++ NUL :: r) = colon_join (groups_of 8 tok).
Proof.
  intros Htok Hlen. unfold pretty_ip.
  rewrite <- (drop_0 (tok ++ NUL :: r)) at 1.
  rewrite !strn_group by (done || lia).
  simpl groups_of. rewrite !drop_drop, drop_0. simpl colon_join.
  apply take_ge. repeat (rewrite ?length_app, ?length_cons, ?length_take, ?length_drop).
  rewrite Hlen. vm_compute. lia.
Qed.

(** C4.  Address reconstruction is a function of the packed address alone:
    whatever the array [ip] held before, once [fscanf] has stored a string
    of 32 hexadecimal digits in it, [pretty_ip] is the eight consecutive
    groups of four characters of that string joined by colons, 39
    characters long: nothing is compressed. *)
Theorem pretty_ip_colon_joined_groups (hex old : list ascii) :
  length hex = 32%nat →
  Forall (λ c, isxdigit c = true) hex →
  length old = ADDRSTRLEN →
  ∃ ip, store hex old = Some ip
    ∧ pretty_ip ip = colon_join (groups_of 8 hex)
    ∧ length (pretty_ip ip) = 39%nat.
Proof.
  intros Hlen Hhex Hold.
  assert (Forall (λ c, Ascii.eqb c NUL = false) hex) as Hnul.
  { eapply Forall_impl; [exact Hhex|]. apply isxdigit_not_NUL. }
  eexists. split; [apply store_fits; rewrite Hlen, Hold; vm_compute; lia|].
  unfold stored. rewrite pretty_ip_of_stored by done. split; [done|].
  do 33 (destruct hex as [|? hex]; try discriminate Hlen). reflexivity.
Qed.

(** The address fe80::1, stored over an array full of other bytes. *)
Lemma pretty_ip_colon_joined_groups_witness :
  ∃ ip, store (chars "fe800000000000000000000000000001")
              (replicate ADDRSTRLEN "x"%char) = Some ip
    ∧ pretty_ip ip = chars "fe80:0000:0000:0000:0000:0000:0000:0001"
    ∧ length (pretty_ip ip) = 39%nat.
Proof.
  apply (pretty_ip_colon_joined_groups
           (chars "fe800000000000000000000000000001")
           (replicate ADDRSTRLEN "x"%char)).
  - reflexivity.
  - repeat constructor.
  - reflexivity.
Defined.

(** ** Tokens of a stream and the [%s] conversion *)

Lemma tokens_skip_space f : tokens (skip_space f) = tokens f.
Proof.
  induction f as [|c f IH]; simpl; [done|].
  destruct (isspace c) eqn:Hc; [done|]. simpl. by rewrite Hc.
Qed.

Lemma skip_space_head f c g : skip_space f = c :: g → isspace c = false.
Proof.
  induction f as [|d f IH]; simpl; [done|].
  destruct (isspace d) eqn:Hd; [auto | congruence].
Qed.

Lemma tokens_span g : ∀ c t r,
  isspace c = false → span_nonspace (c :: g) = (t, r) →
  tokens (c :: g) = t :: tokens r.
Proof.
  induction g as [|d g IH]; intros c t r Hc; simpl; rewrite Hc.
  - by intros [= <- <-].
  - destruct (isspace d) eqn:Hd; simpl.
    + intros [= <- <-]. simpl. by rewrite Hd.
    + destruct (span_nonspace g) as [t' r'] eqn:Hsp.
      intros [= <- <-].
      pose proof (IH d (d :: t') r' Hd) as IH'. simpl in IH'.
      rewrite Hd, Hsp in IH'. by rewrite IH'.
Qed.

Lemma scan_s_tokens f :
  match scan_s f with
  | None => tokens f = []
  | Some (t, r) => tokens f = t :: tokens r
  end.
Proof.
  unfold scan_s. rewrite <- (tokens_skip_space f).
  destruct (skip_space f) as [|c g] eqn:E; [done|].
  destruct (span_nonspace (c :: g)) as [t r] eqn:Hsp.
  eapply tokens_span; [eapply skip_space_head, E | exact Hsp].
Qed.

Lemma scan_s_cons f t ts :
  tokens f = t :: ts → ∃ r, scan_s f = Some (t, r) ∧ tokens r = ts.
Proof.
  intros Hf. pose proof (scan_s_tokens f) as H.
  destruct (scan_s f) as [[t' r]|]; [|congruence].
  rewrite Hf in H. injection H as -> ->. eauto.
Qed.

Lemma scan_skip_cons f t ts :
  tokens f = t :: ts → ∃ r, scan_skip f = Some r ∧ tokens r = ts.
Proof.
  intros Hf. destruct (scan_s_cons f t ts Hf) as (r & Hr & Hts).
  exists r. unfold scan_skip. by rewrite Hr.
Qed.

Lemma scan_s_nil f : tokens f = [] → scan_s f = None.
Proof.
  intros Hf. pose proof (scan_s_tokens f) as H.
  destruct (scan_s f) as [[t' r]|]; [congruence | done].
Qed.

Lemma tokens_starts_token s : starts_token s = true → tokens s ≠ [].
Proof.
  destruct s as [|d s]; simpl; [done|].
  destruct (isspace d); simpl; [done|].
  destruct (starts_token s); [by destruct (tokens s) | done].
Qed.

(** A white-space character ends the token before it. *)
Lemma tokens_app_space a c b :
  isspace c = true → tokens (a ++ c :: b) = tokens a ++ tokens b.
Proof.
  intros Hc. induction a as [|x a IH]; simpl; [by rewrite Hc|].
  destruct (isspace x); [done|].
  destruct a as [|d a]; simpl in *; [by rewrite Hc|].
  destruct (isspace d) eqn:Hd; simpl in *; [by rewrite IH|].
  rewrite IH.
  assert (tokens (d :: a) ≠ []) as Hne
    by (apply tokens_starts_token; simpl; by rewrite Hd).
  simpl in Hne. rewrite Hd in Hne.
  by destruct (if starts_token a then _ else _).
Qed.

Lemma tokens_table_of_lines ls :
  tokens (table_of_lines ls) = concat (tokens <$> ls).
Proof.
  unfold table_of_lines. induction ls as [|l ls IH]; [done|].
  rewrite !fmap_cons, !concat_cons, <- app_assoc.
  change ([LF] ++ ?x) with (LF :: x).
  rewrite tokens_app_space by done. by rewrite IH.
Qed.

(** ** The loop over the IPv6 table *)

Lemma while_fscanf_step {A} (body : list ascii → list ascii → option (list A))
    f ip ifc :
  while_fscanf body f ip ifc =
  match fscanf_if_inet6 f ip ifc with
  | FscanfEOF => ([], true)
  | FscanfOverrun => ([], false)
  | FscanfItems _ ip' ifc' f' =>
      match body ip' ifc' with
      | None => ([], false)
      | Some out =>
          let '(more, ok) := while_fscanf body f' ip' ifc' in (out ++ more, ok)
      end
  end.
Proof.
  funelim (while_fscanf body f ip ifc);
    match goal with H : fscanf_if_inet6 _ _ _ = _ |- _ => rewrite H end;
    reflexivity.
Qed.

(** Any body sees the rows that [table_rows] records. *)
Lemma while_fscanf_rows {A} (body : list ascii → list ascii → option (list A)) :
  ∀ f ip ifc rows ok,
  table_rows f ip ifc = (rows, ok) →
  Forall (λ r, is_Some (body r.1 r.2)) rows →
  while_fscanf body f ip ifc = (rows ≫= (λ r, default [] (body r.1 r.2)), ok).
Proof.
  intros f. remember (length f) as n eqn:Hn. revert f Hn.
  induction n as [n IH] using lt_wf_ind.
  intros f -> ip ifc rows ok. unfold table_rows.
  rewrite (while_fscanf_step body), (while_fscanf_step (λ ip ifc, Some [(ip, ifc)])).
  destruct (fscanf_if_inet6 f ip ifc) as [|k ip' ifc' f'|] eqn:E.
  - by intros [= <- <-] _.
  - apply fscanf_if_inet6_shorter in E.
    destruct (while_fscanf (λ ip ifc, Some [(ip, ifc)]) f' ip' ifc')
      as [rows' ok'] eqn:Hrows.
    intros [= <- <-] Hbody. inversion Hbody as [|? ? [out Hout] Hbody']; subst.
    simpl in Hout. rewrite Hout.
    rewrite (IH (length f') E f' eq_refl ip' ifc' rows' ok' Hrows Hbody').
    simpl. by rewrite Hout.
  - by intros [= <- <-] _.
Qed.

Lemma fscanf_six f ip ifc t1 t2 t3 t4 t5 t6 ts :
  tokens f = t1 :: t2 :: t3 :: t4 :: t5 :: t6 :: ts →
  (length t1 < length ip)%nat → (length t6 < length ifc)%nat →
  ∃ f', fscanf_if_inet6 f ip ifc = FscanfItems 2 (stored t1 ip) (stored t6 ifc) f'
        ∧ tokens f' = ts.
Proof.
  intros Hf H1 H6. unfold fscanf_if_inet6.
  destruct (scan_s_cons _ _ _ Hf) as (f1 & -> & Hf1).
  rewrite (store_fits _ _ H1).
  destruct (scan_skip_cons _ _ _ Hf1) as (f2 & -> & Hf2).
  destruct (scan_skip_cons _ _ _ Hf2) as (f3 & E3 & Hf3).
  destruct (scan_skip_cons _ _ _ Hf3) as (f4 & E4 & Hf4).
  destruct (scan_skip_cons _ _ _ Hf4) as (f5 & E5 & Hf5).
  destruct (scan_s_cons _ _ _ Hf5) as (f6 & E6 & Hf6).
  simpl. rewrite E3. simpl. rewrite E4. simpl. rewrite E5. simpl. rewrite E6.
  rewrite (store_fits _ _ H6). eauto.
Qed.

Lemma length_stored tok b : (length tok < length b)%nat → length (stored tok b) = length b.
Proof.
  intros H. unfold stored. rewrite length_app, length_cons, length_drop. lia.
Qed.

Lemma cstr_app_NUL tok r :
  forallb (λ c, negb (Ascii.eqb c NUL)) tok = true → cstr (tok ++ NUL :: r) = Some tok.
Proof.
  induction tok as [|c tok IH]; simpl; [done|].
  intros [Hc Htok]%andb_prop. destruct (Ascii.eqb c NUL); [done|].
  by rewrite IH.
Qed.

Lemma cstr_upto_nul b s : cstr b = Some s → upto_nul b = s.
Proof.
  revert s. induction b as [|c b IH]; intros s; simpl; [done|].
  destruct (Ascii.eqb c NUL); [by intros [= <-]|].
  destruct (cstr b) as [s'|]; [|done]. intros [= <-]. by rewrite (IH s').
Qed.

Lemma six_fields_tokens l t1 t6 :
  six_fields l = Some (t1, t6) →
  ∃ t2 t3 t4 t5, tokens l = [t1; t2; t3; t4; t5; t6].
Proof.
  unfold six_fields.
  destruct (tokens l) as [|a [|b [|c [|d [|e [|g [|? ?]]]]]]]; try done.
  intros [= <- <-]. eauto 10.
Qed.

(** On a table of well-formed lines the parser reads one row per line. *)
Lemma table_rows_lines ls : ∀ f ip ifc,
  tokens f = concat (tokens <$> ls) →
  Forall (λ l, table_line l = true) ls →
  length ip = ADDRSTRLEN → length ifc = IFNAMSIZ →
  table_rows f ip ifc = (arrays_after (omap six_fields ls) ip ifc, true).
Proof.
  induction ls as [|l ls IH]; intros f ip ifc Hf Hls Hip Hifc; unfold table_rows.
  - rewrite while_fscanf_step. unfold fscanf_if_inet6.
    by rewrite (scan_s_nil f Hf).
  - inversion Hls as [|? ? Hl Hls']; subst. unfold table_line in Hl.
    destruct (six_fields l) as [[t1 t6]|] eqn:Hsix; [|done].
    destruct (six_fields_tokens _ _ _ Hsix) as (t2 & t3 & t4 & t5 & Htok).
    apply andb_prop in Hl as [[H1 H6]%andb_prop _].
    apply bool_decide_eq_true in H1, H6.
    rewrite fmap_cons, concat_cons, Htok in Hf. simpl in Hf.
    destruct (fscanf_six f ip ifc _ _ _ _ _ _ _ Hf) as (f' & Hscan & Hf');
      [lia | lia |].
    rewrite while_fscanf_step, Hscan. simpl. rewrite Hsix. simpl.
    fold (table_rows f' (stored t1 ip) (stored t6 ifc)).
    rewrite (IH f' _ _ Hf' Hls') by (rewrite length_stored; lia).
    reflexivity.
Qed.

Lemma arrays_after_cstr ls : ∀ ip ifc,
  Forall (λ l, table_line l = true) ls →
  (λ r, (cstr r.1, cstr r.2)) <$> arrays_after (omap six_fields ls) ip ifc
  = (λ l, (head (tokens l), last (tokens l))) <$> ls.
Proof.
  induction ls as [|l ls IH]; intros ip ifc Hls; [done|].
  inversion Hls as [|? ? Hl Hls']; subst. unfold table_line in Hl.
  destruct (six_fields l) as [[t1 t6]|] eqn:Hsix; [|done].
  destruct (six_fields_tokens _ _ _ Hsix) as (t2 & t3 & t4 & t5 & Htok).
  apply andb_prop in Hl as [_ Hn]. rewrite forallb_app in Hn.
  apply andb_prop in Hn as [Hn1 Hn6].
  simpl. rewrite Hsix. simpl. rewrite (IH _ _ Hls'), Htok. simpl.
  unfold stored. by rewrite !cstr_app_NUL.
Qed.

(** C5 (as amended).  For every IPv6 table whose lines all hold exactly six
    white-space delimited fields (the first shorter than the array [ip],
    the last shorter than the array [ifc], neither with a NUL byte), the
    parser reads one row per line and takes the line's first token as the
    packed address and its last token as the interface name. *)
Theorem parser_takes_first_and_last_of_six (ls : list (list ascii))
    (ip ifc : list ascii) :
  length ip = ADDRSTRLEN → length ifc = IFNAMSIZ →
  Forall (λ l, table_line l = true) ls →
  ∃ rows, table_rows (table_of_lines ls) ip ifc = (rows, true)
    ∧ (λ r, (cstr r.1, cstr r.2)) <$> rows
      = (λ l, (head (tokens l), last (tokens l))) <$> ls.
Proof.
  intros Hip Hifc Hls.
  exists (arrays_after (omap six_fields ls) ip ifc). split.
  - apply table_rows_lines; [apply tokens_table_of_lines | done..].
  - by apply arrays_after_cstr.
Qed.

(** The IPv6 table of the sample host. *)
Lemma parser_takes_first_and_last_of_six_witness :
  ∃ rows, table_rows sample_if_inet6 (replicate ADDRSTRLEN NUL)
            (replicate IFNAMSIZ NUL) = (rows, true)
    ∧ (λ r, (cstr r.1, cstr r.2)) <$> rows
      = [ (Some (chars "00000000000000000000000000000001"), Some (chars "lo"));
          (Some (chars "fe800000000000000a0027fffe4e66a1"), Some (chars "eth0"));
          (Some (chars "20010db8000000000000000000000042"), Some (chars "eth0")) ].
Proof.
  apply (parser_takes_first_and_last_of_six sample_if_inet6_lines
           (replicate ADDRSTRLEN NUL) (replicate IFNAMSIZ NUL)).
  - reflexivity.
  - reflexivity.
  - repeat constructor.
Defined.

(** C5 as stated fails on a line of seven fields: the parser takes the
    sixth token ("eth0") as the interface name, not the last ("extra"), and
    reads the seventh as the address of a row of its own. *)
Lemma parser_takes_sixth_token_of_seven :
  (λ r, (cstr r.1, cstr r.2)) <$>
    (table_rows (table_of_lines [seven_field_line])
       (replicate ADDRSTRLEN NUL) (replicate IFNAMSIZ NUL)).1
  = [ (Some (chars "fe800000000000000a0027fffe4e66a1"), Some (chars "eth0"));
      (Some (chars "extra"), Some (chars "eth0")) ]
  ∧ (λ l, (head (tokens l), last (tokens l))) <$> [seven_field_line]
    = [ (Some (chars "fe800000000000000a0027fffe4e66a1"), Some (chars "extra")) ].
Proof. split; vm_compute; reflexivity. Qed.

(** ** The interface lister *)

Lemma count_lines_step f num :
  count_lines f num =
  match getline f with
  | Some (_, f') => count_lines f' (S num)
  | None => num
  end.
Proof.
  funelim (count_lines f num);
    match goal with H : getline _ = _ |- _ => rewrite H end; reflexivity.
Qed.

Lemma getline_text_line l rest :
  text_line l = true → getline (l ++ LF :: rest) = Some (l ++ [LF], rest).
Proof.
  unfold text_line. induction l as [|c l IH]; simpl; [done|].
  intros [[Hc _]%andb_prop Hl]%andb_prop.
  apply negb_true_iff in Hc. by rewrite Hc, IH.
Qed.

Lemma getline_table_of_lines l ls :
  text_line l = true →
  getline (table_of_lines (l :: ls)) = Some (l ++ [LF], table_of_lines ls).
Proof.
  intros Hl. unfold table_of_lines. rewrite fmap_cons, concat_cons, <- app_assoc.
  by apply getline_text_line.
Qed.

Lemma data_line_text_line l : data_line l = true → text_line l = true.
Proof. by intros [? _]%andb_prop. Qed.

Lemma count_lines_table_of_lines ls : ∀ num,
  Forall (λ l, text_line l = true) ls →
  count_lines (table_of_lines ls) num = (num + length ls)%nat.
Proof.
  induction ls as [|l ls IH]; intros num Hls; rewrite count_lines_step.
  - simpl. lia.
  - inversion Hls as [|? ? Hl Hls']; subst.
    rewrite getline_table_of_lines by done. rewrite IH by done. simpl. lia.
Qed.

Lemma upto_nul_text_line l : text_line l = true → upto_nul (l ++ [LF]) = l ++ [LF].
Proof.
  unfold text_line. induction l as [|c l IH]; simpl; [done|].
  intros [[_ Hc]%andb_prop Hl]%andb_prop.
  apply negb_true_iff in Hc. by rewrite Hc, IH.
Qed.

Lemma index_before_colon tok :
  existsb (λ c, Ascii.eqb c COLON) tok = true →
  ∃ k, index tok COLON = Some k ∧ take k tok = before_colon tok.
Proof.
  induction tok as [|c tok IH]; simpl; [done|].
  destruct (Ascii.eqb c COLON); simpl; [by exists 0%nat|].
  intros (k & -> & Hk)%IH. exists (S k). simpl. by rewrite Hk.
Qed.

(** What the two calls of the loop body make of a data line. *)
Lemma sscanf_ms_data_line l :
  data_line l = true →
  ∃ tok k, sscanf_ms (l ++ [LF]) = Some tok ∧ index tok COLON = Some k
           ∧ interface_name l = Some (take k tok).
Proof.
  intros [Htext Hcolon]%andb_prop. unfold sscanf_ms, interface_name.
  rewrite upto_nul_text_line by done.
  assert (tokens (l ++ [LF]) = tokens l) as Htok
    by (rewrite tokens_app_space by done; apply app_nil_r).
  destruct (tokens l) as [|tok ts] eqn:Hl; [done|]. simpl in *.
  destruct (scan_s_cons _ _ _ Htok) as (r & -> & _).
  destruct (index_before_colon _ Hcolon) as (k & Hk & Htake).
  exists tok, k. by rewrite Htake.
Qed.

Lemma parse_lines_data ls : ∀ pre,
  Forall (λ l, data_line l = true) ls →
  parse_lines (length ls) (length pre) (table_of_lines ls)
    (pre ++ replicate (length ls) None)
  = Some (pre ++ (interface_name <$> ls)).
Proof.
  induction ls as [|l ls IH]; intros pre Hls; [done|].
  inversion Hls as [|? ? Hl Hls']; subst. simpl parse_lines.
  rewrite getline_table_of_lines by by apply data_line_text_line.
  destruct (sscanf_ms_data_line l Hl) as (tok & k & -> & -> & Hname).
  rewrite insert_app_r_alt by lia. rewrite Nat.sub_diag. simpl.
  specialize (IH (pre ++ [Some (take k tok)]) Hls').
  rewrite length_app, Nat.add_1_r, <- !app_assoc in IH. simpl in IH.
  by rewrite IH, Hname.
Qed.

(** C8.  For every interface listing made of two header lines followed by
    [N] data lines (lines of text whose first token carries a colon),
    [get_interfaces] returns exactly [N] names, the name of each data line
    in order: its first white-space delimited token with the colon suffix
    stripped. *)
Theorem get_interfaces_lists_data_lines (header1 header2 : list ascii)
    (data : list (list ascii)) :
  text_line header1 = true → text_line header2 = true →
  Forall (λ l, data_line l = true) data →
  get_interfaces (Some (table_of_lines (header1 :: header2 :: data)))
  = Listed (interface_name <$> data) (length data)
  ∧ length (interface_name <$> data) = length data
  ∧ Forall (λ n, is_Some n) (interface_name <$> data).
Proof.
  intros H1 H2 Hdata.
  assert (Forall (λ l, text_line l = true) data) as Htext
    by (eapply Forall_impl; [exact Hdata | apply data_line_text_line]).
  split; [|split].
  - unfold get_interfaces. simpl skip_header.
    rewrite !getline_table_of_lines by done.
    rewrite count_lines_table_of_lines by done.
    pose proof (parse_lines_data data [] Hdata) as Hparse.
    simpl in Hparse |- *. by rewrite Hparse.
  - apply length_fmap.
  - apply Forall_fmap. eapply Forall_impl; [exact Hdata|].
    intros l [_ Hl]%andb_prop. unfold interface_name. simpl.
    by destruct (head (tokens l)).
Qed.

(** The interface listing of the sample host. *)
Lemma get_interfaces_lists_data_lines_witness :
  get_interfaces (Some sample_dev) = Listed [Some (chars "lo"); Some (chars "eth0")] 2
  ∧ length [Some (chars "lo"); Some (chars "eth0")] = 2%nat
  ∧ Forall (λ n, is_Some n) [Some (chars "lo"); Some (chars "eth0")].
Proof.
  apply (get_interfaces_lists_data_lines sample_header1 sample_header2 sample_dev_lines).
  - reflexivity.
  - reflexivity.
  - repeat constructor.
Defined.

Lemma index_no_colon tok :
  existsb (λ c, Ascii.eqb c COLON) tok = false → index tok COLON = None.
Proof.
  induction tok as [|c tok IH]; simpl; [done|].
  destruct (Ascii.eqb c COLON); simpl; [done|]. by intros ->%IH.
Qed.

(** The loop body on a line of text that is no data line: the slot stays
    NULL, or [index] returns NULL. *)
Lemma parse_lines_bad_line bad rest n i arr :
  text_line bad = true → data_line bad = false →
  parse_lines (S n) i (table_of_lines (bad :: rest)) arr = None.
Proof.
  intros Htext Hbad. unfold data_line in Hbad. rewrite Htext in Hbad.
  simpl in Hbad. simpl parse_lines.
  rewrite getline_table_of_lines by done. unfold sscanf_ms.
  rewrite upto_nul_text_line by done.
  assert (tokens (bad ++ [LF]) = tokens bad) as Htok
    by (rewrite tokens_app_space by done; apply app_nil_r).
  destruct (tokens bad) as [|tok ts] eqn:Hl.
  - by rewrite (scan_s_nil _ Htok).
  - destruct (scan_s_cons _ _ _ Htok) as (r & -> & _). simpl in *.
    by rewrite index_no_colon.
Qed.

Lemma parse_lines_stops_at_bad_line before bad rest n : ∀ i arr,
  Forall (λ l, data_line l = true) before →
  text_line bad = true → data_line bad = false →
  parse_lines (length before + S n) i
    (table_of_lines (before ++ bad :: rest)) arr = None.
Proof.
  induction before as [|l before IH]; intros i arr Hbefore Htext Hbad.
  - by apply parse_lines_bad_line.
  - inversion Hbefore as [|? ? Hl Hbefore']; subst.
    change (length (l :: before) + S n)%nat with (S (length before + S n)).
    change ((l :: before) ++ bad :: rest) with (l :: (before ++ bad :: rest)).
    simpl parse_lines.
    rewrite getline_table_of_lines by by apply data_line_text_line.
    destruct (sscanf_ms_data_line l Hl) as (tok & k & -> & -> & _).
    by apply IH.
Qed.

(** The interface lister does not skip a malformed line: on a listing with
    a line of text whose first token has no colon (or that is blank),
    [get_interfaces] writes through a NULL pointer. *)
Lemma get_interfaces_crashes_on_bad_line header1 header2 before bad rest :
  text_line header1 = true → text_line header2 = true →
  Forall (λ l, data_line l = true) before →
  text_line bad = true → data_line bad = false →
  Forall (λ l, text_line l = true) rest →
  get_interfaces (Some (table_of_lines (header1 :: header2 :: before ++ bad :: rest)))
  = ListerCrash.
Proof.
  intros H1 H2 Hbefore Htext Hbad Hrest.
  unfold get_interfaces. simpl skip_header.
  rewrite !getline_table_of_lines by done.
  rewrite count_lines_table_of_lines.
  - rewrite length_app. simpl.
    by rewrite parse_lines_stops_at_bad_line.
  - apply Forall_app. split; [|by constructor].
    eapply Forall_impl; [exact Hbefore | apply data_line_text_line].
Qed.

(** C9 (failing input).  With the interface listing [colonless_dev], whose
    line for eth0 has no colon, [get_interfaces] crashes, and so does the
    program, whatever its command line asks for: the line is not skipped
    and the lines after it are not processed.  In the IPv6 table a first
    field longer than the array [ip] is not skipped either: [fscanf]
    overruns the array. *)
Theorem colonless_line_crashes_the_lister :
  get_interfaces (Some colonless_dev) = ListerCrash
  ∧ exit_status (main (Cmdline [] []) (with_proc_net_dev (Some colonless_dev) sample_sys))
    = Undefined
  ∧ stdout (main (Cmdline [FlagListInterfaces] [])
              (with_proc_net_dev (Some colonless_dev) sample_sys)) = []
  ∧ exit_status (main (Cmdline [Flag6] [])
                   (with_if_inet6 (Some (table_of_lines [overlong_line])) sample_sys))
    = Undefined.
Proof.
  assert (get_interfaces (Some colonless_dev) = ListerCrash) as Hcrash.
  { apply (get_interfaces_crashes_on_bad_line sample_header1 sample_header2
             [chars "    lo: 1500 10 0 0 1500 10 0 0"]
             (chars "  eth0 9000 70 0 0 8000 60 0 0")
             [chars "  wlan0: 100 1 0 0 100 1 0 0"]);
      try reflexivity; repeat constructor. }
  split; [exact Hcrash|].
  split; [unfold main; simpl proc_net_dev; by rewrite Hcrash|].
  split; [unfold main; simpl proc_net_dev; by rewrite Hcrash|].
  vm_compute. reflexivity.
Qed.

(** ** The command line *)

Lemma parse_flags_spec fs : ∀ a0,
  let a := foldl (λ a o, snd (parse_opt (key_of o) [] a)) a0 fs in
  (ipv4 a = true ↔ ipv4 a0 = true ∨ Flag4 ∈ fs)
  ∧ (ipv6 a = true ↔ ipv6 a0 = true ∨ Flag6 ∈ fs)
  ∧ (ip_version_specified a = true
     ↔ ip_version_specified a0 = true ∨ Flag4 ∈ fs ∨ Flag6 ∈ fs)
  ∧ (list_interfaces a = true ↔ list_interfaces a0 = true ∨ FlagListInterfaces ∈ fs)
  ∧ interfaces_specified a = interfaces_specified a0
  ∧ interfaces a = interfaces a0
  ∧ num_interfaces a = num_interfaces a0.
Proof.
  induction fs as [|o fs IH]; intros a0; simpl.
  - repeat split; try tauto; intros [?|H]; try done;
      try (by apply elem_of_nil in H); destruct H as [H|H]; by apply elem_of_nil in H.
  - specialize (IH (snd (parse_opt (key_of o) [] a0))). simpl in IH.
    destruct IH as (I4 & I6 & Iv & Il & Is & Ii & In).
    rewrite I4, I6, Iv, Il, Is, Ii, In. rewrite !elem_of_cons.
    destruct o; simpl; intuition congruence.
Qed.

(** What [argp_parse] leaves in [args]. *)
Lemma argp_parse_spec c :
  let a := argp_parse c initial_args in
  (ipv4 a = true ↔ Flag4 ∈ flags c)
  ∧ (ipv6 a = true ↔ Flag6 ∈ flags c)
  ∧ (ip_version_specified a = true ↔ Flag4 ∈ flags c ∨ Flag6 ∈ flags c)
  ∧ (list_interfaces a = true ↔ FlagListInterfaces ∈ flags c)
  ∧ (interfaces_specified a = true ↔ names c ≠ [])
  ∧ interfaces a = names c
  ∧ num_interfaces a = length (names c).
Proof.
  unfold argp_parse.
  destruct (parse_flags_spec (flags c) initial_args) as (I4 & I6 & Iv & Il & Is & Ii & In).
  simpl in *.
  destruct (names c) as [|n rest] eqn:Hnames.
  - rewrite I4, I6, Iv, Il, Is, Ii, In. simpl. intuition congruence.
  - simpl. rewrite I4, I6, Iv, Il. intuition congruence.
Qed.

(** ** The address resolver *)

(** [args] after the call of [remove_bad_interfaces]: the options are
    untouched, the leading entries of the array are the names that passed
    the probe, and one line went to standard error per name that did not. *)
Lemma validated_spec a s :
  (num_interfaces a ≤ length (interfaces a))%nat →
  ∃ a' err, validated a s = Some (a', err)
    ∧ ip_version_specified a' = ip_version_specified a
    ∧ ipv4 a' = ipv4 a ∧ ipv6 a' = ipv6 a
    ∧ interfaces_specified a' = interfaces_specified a
    ∧ take (num_interfaces a') (interfaces a')
      = probed_ok (ifindex_ok s) 0 (take (num_interfaces a) (interfaces a))
    ∧ err = could_not_open_interface
              <$> probed_bad (ifindex_ok s) 0 (take (num_interfaces a) (interfaces a)).
Proof.
  intros Hnum. unfold validated, remove_bad_interfaces.
  destruct (remove_bad_loop_spec (ifindex_ok s) (num_interfaces a) 0 0
              (interfaces a) [] false) as (rm & -> & Htake & _ & _ & Herr);
    [lia | lia |].
  rewrite drop_0 in Htake, Herr. simpl in *. eauto 10.
Qed.

(** On C strings (no NUL inside) [strcmp] returns 0 exactly for equal
    strings: the match of interface names is exact and case-sensitive. *)
Lemma strcmp_0_iff a : ∀ b,
  Forall (λ c, c ≠ NUL) a → Forall (λ c, c ≠ NUL) b →
  strcmp a b = 0 ↔ a = b.
Proof.
  assert (∀ c, c ≠ NUL → Z.of_N (N_of_ascii c) ≠ 0) as Hnz.
  { intros c Hc H. apply Hc. rewrite <- (ascii_N_embedding c).
    replace (N_of_ascii c) with 0%N by lia. reflexivity. }
  induction a as [|c a IH]; intros [|d b] Ha Hb; simpl.
  - done.
  - inversion Hb as [|? ? Hd _]; subst. split; [|done].
    intros H. apply Hnz in Hd. lia.
  - inversion Ha as [|? ? Hc _]; subst. split; [|done].
    intros H. apply Hnz in Hc. lia.
  - inversion Ha; inversion Hb; subst.
    destruct (Ascii.eqb c d) eqn:Hcd.
    + apply Ascii.eqb_eq in Hcd as ->. rewrite IH by done.
      split; [by intros -> | by intros [= ->]].
    + apply Ascii.eqb_neq in Hcd. split; [|by intros [= -> _]].
      intros H. destruct Hcd.
      rewrite <- (ascii_N_embedding c), <- (ascii_N_embedding d).
      f_equal. lia.
Qed.

(** An entry found by [lfind] is one of the leading [nmemb] entries and
    compares equal to the key. *)
Lemma lfind_Some key base nmemb :
  is_Some (lfind key base nmemb) →
  ∃ e, e ∈ take nmemb base ∧ strcmp key e = 0.
Proof.
  intros [e He]. unfold lfind in He. apply find_some in He as [Hin Hcmp].
  exists e. split; [by apply list_elem_of_In | by apply Z.eqb_eq].
Qed.

(** Every line of the IPv4 loop is the dotted-decimal text of an entry of
    the table, asked for by the options, and for a name that [lfind] finds
    when names were given. *)
Lemma ipv4_loop_lines a reqs :
  Forall (λ r, ar_family r = AF_INET
             ∧ (ip_version_specified a = false ∨ ipv4 a = true)
             ∧ (∃ e, e ∈ reqs ∧ r = AddressLine (ifr_name e) AF_INET (inet_ntop (sin_addr e)))
             ∧ (interfaces_specified a = true →
                is_Some (lfind (ar_interface r) (interfaces a) (num_interfaces a))))
         (ipv4_loop a reqs).
Proof.
  induction reqs as [|e reqs IH]; simpl; [constructor|].
  assert (Forall (λ r, ar_family r = AF_INET
             ∧ (ip_version_specified a = false ∨ ipv4 a = true)
             ∧ (∃ e', e' ∈ e :: reqs
                  ∧ r = AddressLine (ifr_name e') AF_INET (inet_ntop (sin_addr e')))
             ∧ (interfaces_specified a = true →
                is_Some (lfind (ar_interface r) (interfaces a) (num_interfaces a))))
            (ipv4_loop a reqs)) as IH'.
  { eapply Forall_impl; [exact IH|]. intros r (? & ? & (e' & ? & ?) & ?).
    repeat split; try done. exists e'. split; [by apply list_elem_of_further | done]. }
  destruct (negb (interfaces_specified a) || _) eqn:Hsel; [|done].
  destruct (negb (ip_version_specified a) || ipv4 a) eqn:Hreq; [|done].
  constructor; [|done]. simpl. repeat split.
  - destruct (ip_version_specified a); simpl in Hreq; auto.
  - exists e. split; [apply list_elem_of_here | done].
  - intros Hspec. rewrite Hspec in Hsel. simpl in Hsel.
    by apply bool_decide_eq_true in Hsel.
Qed.

Lemma ipv4_loop_not_requested a reqs :
  ip_version_specified a = true → ipv4 a = false → ipv4_loop a reqs = [].
Proof.
  intros Hv H4. induction reqs as [|e reqs IH]; simpl; [done|].
  rewrite Hv, H4, IH. simpl. by destruct (_ || _).
Qed.

(** What holds of all that a body can produce holds of all that the loop
    produces. *)
Lemma while_fscanf_Forall {A} (body : list ascii → list ascii → option (list A))
    (P : A → Prop) :
  (∀ ip ifc out, body ip ifc = Some out → Forall P out) →
  ∀ f ip ifc, Forall P (while_fscanf body f ip ifc).1.
Proof.
  intros Hbody f. remember (length f) as n eqn:Hn. revert f Hn.
  induction n as [n IH] using lt_wf_ind. intros f -> ip ifc.
  rewrite while_fscanf_step.
  destruct (fscanf_if_inet6 f ip ifc) as [|k ip' ifc' f'|] eqn:E; simpl;
    [constructor | | constructor].
  apply fscanf_if_inet6_shorter in E.
  destruct (body ip' ifc') as [out|] eqn:Hout; [|constructor].
  specialize (IH (length f') E f' eq_refl ip' ifc').
  destruct (while_fscanf body f' ip' ifc') as [more ok]. simpl in *.
  apply Forall_app. split; [by eapply Hbody | done].
Qed.

(** Every line of the IPv6 loop is a reconstructed address, for a name that
    [lfind] finds when names were given. *)
Lemma ipv6_loop_lines a f ip ifc :
  Forall (λ r, ar_family r = AF_INET6
             ∧ (∃ ip', ar_address r = pretty_ip ip')
             ∧ (interfaces_specified a = true →
                is_Some (lfind (ar_interface r) (interfaces a) (num_interfaces a))))
         (ipv6_loop a f ip ifc).1.
Proof.
  apply while_fscanf_Forall. clear. intros ip ifc out. unfold ipv6_body.
  destruct (interfaces_specified a); simpl.
  - destruct (cstr ifc) as [ifc_p|] eqn:Hifc; simpl; [|done].
    intros [= <-]. case_bool_decide as Hfind; [|constructor].
    constructor; [|constructor]. simpl. repeat split; [by eexists|].
    intros _. by rewrite (cstr_upto_nul _ _ Hifc).
  - intros [= <-]. constructor; [|constructor]. simpl.
    repeat split; [by eexists | done].
Qed.

Lemma arrays_after_defined a ls : ∀ ip ifc,
  Forall (λ l, table_line l = true) ls →
  Forall (λ r, is_Some (ipv6_body a r.1 r.2)) (arrays_after (omap six_fields ls) ip ifc).
Proof.
  induction ls as [|l ls IH]; intros ip ifc Hls; [constructor|].
  inversion Hls as [|? ? Hl Hls']; subst. unfold table_line in Hl.
  destruct (six_fields l) as [[t1 t6]|] eqn:Hsix; [|done].
  apply andb_prop in Hl as [_ Hn]. rewrite forallb_app in Hn.
  apply andb_prop in Hn as [_ Hn6].
  simpl. rewrite Hsix. simpl. constructor; [|by apply IH].
  simpl. unfold ipv6_body, stored. rewrite cstr_app_NUL by done.
  by destruct (negb _).
Qed.

(** On a table of well-formed lines the loop runs to the end of the table. *)
Lemma ipv6_loop_table_lines a ls ip ifc :
  Forall (λ l, table_line l = true) ls →
  length ip = ADDRSTRLEN → length ifc = IFNAMSIZ →
  (ipv6_loop a (table_of_lines ls) ip ifc).2 = true.
Proof.
  intros Hls Hip Hifc. unfold ipv6_loop.
  erewrite while_fscanf_rows; [done | | by apply arrays_after_defined].
  apply table_rows_lines; [apply tokens_table_of_lines | done..].
Qed.

(** The run of [main] on a host where nothing fails, outside the
    list-only mode. *)
Lemma main_no_fatal_error c s :
  no_fatal_error s → FlagListInterfaces ∉ flags c →
  ∃ a err len table f,
    validated (argp_parse c initial_args) s = Some (a, err)
    ∧ ifconf_len s = Some len ∧ ifconf_table s = Some table ∧ if_inet6 s = Some f
    ∧ let out :=
        ipv4_loop a (take (len / sizeof_ifreq) table)
        ++ (if negb (ip_version_specified a) || ipv6 a
            then (ipv6_loop a f (resize ADDRSTRLEN NUL (stack_ip s))
                    (resize IFNAMSIZ NUL (stack_ifc s))).1
            else []) in
      main c s = Run (ar_address <$> out) err (Exited EXIT_SUCCESS) out.
Proof.
  intros ((ifs & num & Hlist) & Hnet & Hacc & Hsock & [len Hlen] & Hmalloc
          & [table Htable] & ls & Hf & Hls) Hmode.
  destruct (argp_parse_spec c) as (_ & _ & _ & Hl & _ & Hi & Hn). simpl in *.
  destruct (validated_spec (argp_parse c initial_args) s)
    as (a & err & Hval & _); [rewrite Hi, Hn; lia|].
  exists a, err, len, table, (table_of_lines ls).
  repeat split; try done. unfold main. rewrite Hlist.
  destruct (list_interfaces (argp_parse c initial_args));
    [destruct Hmode; by apply Hl|].
  unfold list_addresses.
  rewrite Hnet, Hacc, Hsock, Hval, Hlen, Hmalloc, Htable, Hf. simpl.
  destruct (negb (ip_version_specified a) || ipv6 a); [|by rewrite app_nil_r].
  pose proof (ipv6_loop_table_lines a ls (resize ADDRSTRLEN NUL (stack_ip s))
                (resize IFNAMSIZ NUL (stack_ifc s)) Hls) as Hok.
  rewrite !length_resize in Hok. specialize (Hok eq_refl eq_refl).
  destruct (ipv6_loop a _ _ _) as [out6 ok]. simpl in *. by rewrite Hok.
Qed.

(** ** Lines of one family *)

Lemma fmt_u8_decimal_group b : decimal_group (fmt_u8 b).
Proof. destruct b; (split; [simpl; lia | repeat constructor]). Qed.

Lemma inet_ntop_dotted_decimal a : dotted_decimal (inet_ntop a).
Proof.
  exists (fmt_u8 (s_b0 a)), (fmt_u8 (s_b1 a)), (fmt_u8 (s_b2 a)), (fmt_u8 (s_b3 a)).
  repeat split; try apply fmt_u8_decimal_group.
Qed.

Lemma isdigit_not_COLON c : isdigit c = true → c ≠ COLON.
Proof. intros H ->. discriminate H. Qed.

Lemma decimal_group_no_colon g : decimal_group g → COLON ∉ g.
Proof.
  intros [_ Hg] Hin. rewrite Forall_forall in Hg.
  by apply (isdigit_not_COLON _ (Hg _ Hin)).
Qed.

(** A line in dotted-decimal form holds no colon. *)
Lemma dotted_decimal_no_colon line : dotted_decimal line → COLON ∉ line.
Proof.
  intros (a & b & c & d & Ha & Hb & Hc & Hd & ->) Hin.
  repeat (rewrite elem_of_app in Hin || rewrite elem_of_cons in Hin).
  pose proof (decimal_group_no_colon _ Ha). pose proof (decimal_group_no_colon _ Hb).
  pose proof (decimal_group_no_colon _ Hc). pose proof (decimal_group_no_colon _ Hd).
  assert (COLON ≠ DOT) by discriminate. tauto.
Qed.

Lemma strn_length n : ∀ b, (length (strn n b) ≤ n)%nat.
Proof.
  induction n as [|n IH]; intros [|c b]; simpl; try lia.
  destruct (Ascii.eqb c NUL); simpl; [lia|]. specialize (IH b). lia.
Qed.

Lemma ADDRSTRLEN_eq : ADDRSTRLEN = 46%nat.
Proof. reflexivity. Qed.

(** A reconstructed address always holds a colon. *)
Lemma pretty_ip_has_colon ip : COLON ∈ pretty_ip ip.
Proof.
  unfold pretty_ip. pose proof (strn_length 4 ip) as Hlen.
  rewrite take_app.
  apply elem_of_app. right.
  destruct (ADDRSTRLEN - 1 - length (strn 4 ip))%nat as [|k] eqn:Hk;
    [rewrite ADDRSTRLEN_eq in Hk; lia|].
  simpl. apply list_elem_of_here.
Qed.

Lemma index_take_no_colon tok : ∀ k,
  index tok COLON = Some k → COLON ∉ take k tok.
Proof.
  induction tok as [|c tok IH]; intros k; simpl; [done|].
  destruct (Ascii.eqb c COLON) eqn:Hc.
  - intros [= <-]. apply not_elem_of_nil.
  - destruct (index tok COLON) as [k'|] eqn:Hk; [|done]. intros [= <-].
    simpl. rewrite elem_of_cons.
    intros [Heq|Hin]; [subst c; by rewrite Ascii.eqb_refl in Hc|].
    by apply (IH k').
Qed.

(** The names the lister stores hold no colon. *)
Lemma parse_lines_no_colon n : ∀ i f arr arr',
  parse_lines n i f arr = Some arr' →
  Forall (λ o : option (list ascii), ∀ name, o = Some name → COLON ∉ name) arr →
  Forall (λ o : option (list ascii), ∀ name, o = Some name → COLON ∉ name) arr'.
Proof.
  induction n as [|n IH]; intros i f arr arr'; simpl; [by intros [= <-]|].
  destruct (getline f) as [[line f']|]; [|by intros [= <-]].
  destruct (sscanf_ms line) as [tok|]; [|done].
  destruct (index tok COLON) as [k|] eqn:Hk; [|done].
  intros Hparse Harr. eapply IH; [exact Hparse|].
  apply Forall_insert; [done|]. intros name [= <-].
  by apply index_take_no_colon.
Qed.

Lemma print_interfaces_no_colon n : ∀ i arr out,
  print_interfaces n i arr = Some out →
  Forall (λ o : option (list ascii), ∀ name, o = Some name → COLON ∉ name) arr →
  Forall (λ line, COLON ∉ line) out.
Proof.
  induction n as [|n IH]; intros i arr out; simpl; [intros [= <-]; constructor|].
  destruct (arr !! i) as [[name|]|] eqn:Hi; try done.
  destruct (print_interfaces n (S i) arr) as [out'|] eqn:Hout; [|done].
  intros [= <-] Harr. constructor; [|by eapply IH].
  rewrite Forall_lookup in Harr. by eapply Harr.
Qed.

Lemma get_interfaces_no_colon text arr num :
  get_interfaces text = Listed arr num →
  Forall (λ o : option (list ascii), ∀ name, o = Some name → COLON ∉ name) arr.
Proof.
  unfold get_interfaces. destruct text as [f0|]; [|done].
  destruct (skip_header _ f0) as [f|]; [|done].
  destruct (parse_lines _ _ _ _) as [arr'|] eqn:Hparse; [|done].
  intros [= <- <-]. eapply parse_lines_no_colon; [exact Hparse|].
  apply Forall_replicate. by intros name.
Qed.

Lemma validated_fields a s a' err :
  validated a s = Some (a', err) →
  ip_version_specified a' = ip_version_specified a
  ∧ ipv4 a' = ipv4 a ∧ ipv6 a' = ipv6 a.
Proof.
  unfold validated. destruct (remove_bad_interfaces _ _ _); simpl; [|done].
  by intros [= <- <-].
Qed.

Lemma ipv4_loop_permitted a a' reqs :
  ip_version_specified a' = ip_version_specified a → ipv4 a' = ipv4 a →
  Forall (permitted a) (ipv4_loop a' reqs).
Proof.
  intros Hv H4. eapply Forall_impl; [apply ipv4_loop_lines|].
  intros r (Hfam & Hreq & (e & _ & ->) & _). left. simpl.
  rewrite <- Hv, <- H4. repeat split; [done|]. apply inet_ntop_dotted_decimal.
Qed.

Lemma ipv6_loop_permitted a a' f ip ifc :
  negb (ip_version_specified a') || ipv6 a' = true →
  ip_version_specified a' = ip_version_specified a → ipv6 a' = ipv6 a →
  Forall (permitted a) (ipv6_loop a' f ip ifc).1.
Proof.
  intros Hreq Hv H6. eapply Forall_impl; [apply ipv6_loop_lines|].
  intros r (Hfam & (ip' & Hip) & _). right.
  rewrite <- Hv, <- H6, Hip. repeat split; [done | | apply pretty_ip_has_colon].
  destruct (ip_version_specified a'); simpl in Hreq; auto.
Qed.

Lemma list_addresses_permitted a s :
  stdout (list_addresses a s) = ar_address <$> emitted (list_addresses a s)
  ∧ Forall (permitted a) (emitted (list_addresses a s)).
Proof.
  unfold list_addresses.
  destruct (negb (access_proc_net s)); [by split; [|constructor]|].
  destruct (negb (access_if_inet6 s)); [by split; [|constructor]|].
  destruct (negb (socket_ok s)); [by split; [|constructor]|].
  destruct (validated a s) as [[a' err]|] eqn:Hval; [|by split; [|constructor]].
  destruct (validated_fields _ _ _ _ Hval) as (Hv & H4 & H6).
  destruct (ifconf_len s) as [len|]; [|by split; [|constructor]].
  destruct (negb (malloc_ok s)); [by split; [|constructor]|].
  destruct (ifconf_table s) as [table|]; [|by split; [|constructor]].
  simpl.
  pose proof (ipv4_loop_permitted a a' (take (len / sizeof_ifreq) table) Hv H4) as Hout4.
  destruct (negb (ip_version_specified a') || ipv6 a') eqn:Hreq; [|by split].
  destruct (if_inet6 s) as [f|]; [|by split].
  pose proof (ipv6_loop_permitted a a' f (resize ADDRSTRLEN NUL (stack_ip s))
                (resize IFNAMSIZ NUL (stack_ifc s)) Hreq Hv H6) as Hout6.
  destruct (ipv6_loop a' f _ _) as [out6 ok]. simpl in *.
  split; [done | by apply Forall_app].
Qed.

(** C6.  With -4 and without -6 no line of the output holds a colon
    (neither an address line nor, in list-only mode, an interface name);
    with -6 and without -4 no address line is in dotted-decimal form. *)
Theorem single_family_output (c : cmdline) (s : sys) :
  (Flag4 ∈ flags c → Flag6 ∉ flags c →
   ∀ line, line ∈ stdout (main c s) → COLON ∉ line)
  ∧ (Flag6 ∈ flags c → Flag4 ∉ flags c → FlagListInterfaces ∉ flags c →
     ∀ line, line ∈ stdout (main c s) → ¬ dotted_decimal line).
Proof.
  destruct (argp_parse_spec c) as (H4 & H6 & Hv & Hl & _). simpl in *.
  pose proof (list_addresses_permitted (argp_parse c initial_args) s) as [Hout Hperm].
  rewrite Forall_forall in Hperm.
  split.
  - intros Hf4 Hf6 line. unfold main.
    destruct (get_interfaces (proc_net_dev s)) as [arr num| |] eqn:Hlist;
      try (intros []%elem_of_nil).
    destruct (list_interfaces _).
    + destruct (print_interfaces num 0 arr) as [out|] eqn:Hprint;
        [|intros []%elem_of_nil].
      simpl. intros Hline.
      pose proof (print_interfaces_no_colon _ _ _ _ Hprint
                    (get_interfaces_no_colon _ _ _ Hlist)) as Hnames.
      rewrite Forall_forall in Hnames. by apply Hnames.
    + rewrite Hout. intros (r & -> & Hr)%list_elem_of_fmap.
      destruct (Hperm r Hr) as [(_ & _ & Hdot)|(_ & [Hnv|Hr6] & _)].
      * by apply dotted_decimal_no_colon.
      * assert (ip_version_specified (argp_parse c initial_args) = true)
          by (apply Hv; auto). congruence.
      * by apply H6 in Hr6.
  - intros Hf6 Hf4 Hmode line. unfold main.
    destruct (get_interfaces (proc_net_dev s)) as [arr num| |] eqn:Hlist;
      try (intros []%elem_of_nil).
    destruct (list_interfaces _); [destruct Hmode; by apply Hl|].
    rewrite Hout. intros (r & -> & Hr)%list_elem_of_fmap Hdot.
    destruct (Hperm r Hr) as [(_ & [Hnv|Hr4] & _)|(_ & _ & Hcolon)].
    + assert (ip_version_specified (argp_parse c initial_args) = true)
        by (apply Hv; auto). congruence.
    + by apply H4 in Hr4.
    + by apply (dotted_decimal_no_colon _ Hdot).
Qed.

(** The sample host with -4 alone and with -6 alone. *)
Lemma single_family_output_witness :
  (∀ line, line ∈ stdout (main (Cmdline [Flag4] []) sample_sys) → COLON ∉ line)
  ∧ (∀ line, line ∈ stdout (main (Cmdline [Flag6] []) sample_sys) →
       ¬ dotted_decimal line).
Proof.
  split.
  - apply (single_family_output (Cmdline [Flag4] []) sample_sys).
    + simpl. apply list_elem_of_here.
    + simpl. by intros [=]%list_elem_of_singleton.
  - apply (single_family_output (Cmdline [Flag6] []) sample_sys).
    + simpl. apply list_elem_of_here.
    + simpl. by intros [=]%list_elem_of_singleton.
    + simpl. by intros [=]%list_elem_of_singleton.
Defined.

(** ** The IPv6 table cannot be read *)

(** The run of [main] once the checks before the loops have passed. *)
Lemma main_resolver c s len table :
  (∃ interfaces num, get_interfaces (proc_net_dev s) = Listed interfaces num) →
  FlagListInterfaces ∉ flags c →
  access_proc_net s = true → access_if_inet6 s = true → socket_ok s = true →
  ifconf_len s = Some len → malloc_ok s = true → ifconf_table s = Some table →
  ∃ a err,
    validated (argp_parse c initial_args) s = Some (a, err)
    ∧ main c s =
      let out4 := ipv4_loop a (take (len / sizeof_ifreq) table) in
      if negb (ip_version_specified a) || ipv6 a then
        match if_inet6 s with
        | None => errorout out4 (err ++ [could_not_open_if_inet6])
        | Some f =>
            let '(out6, ok) := ipv6_loop a f (resize ADDRSTRLEN NUL (stack_ip s))
                                 (resize IFNAMSIZ NUL (stack_ifc s)) in
            Run (ar_address <$> out4 ++ out6) err
              (if ok then Exited EXIT_SUCCESS else Undefined) (out4 ++ out6)
        end
      else Run (ar_address <$> out4) err (Exited EXIT_SUCCESS) out4.
Proof.
  intros (ifs & num & Hlist) Hmode Hnet Hacc Hsock Hlen Hmalloc Htable.
  destruct (argp_parse_spec c) as (_ & _ & _ & Hl & _ & Hi & Hn). simpl in *.
  destruct (validated_spec (argp_parse c initial_args) s)
    as (a & err & Hval & _); [rewrite Hi, Hn; lia|].
  exists a, err. split; [done|]. unfold main. rewrite Hlist.
  destruct (list_interfaces (argp_parse c initial_args));
    [destruct Hmode; by apply Hl|].
  unfold list_addresses.
  by rewrite Hnet, Hacc, Hsock, Hval, Hlen, Hmalloc, Htable.
Qed.

Lemma ipv6_loop_empty a ip ifc : ipv6_loop a [] ip ifc = ([], true).
Proof. unfold ipv6_loop. by rewrite while_fscanf_step. Qed.

(** C3 (as amended).  Outside list-only mode, once the interface listing
    was read and [/proc/net] is accessible:
    - when the start-up [access] check of the IPv6 table fails, the run
      ends with a non-zero exit and no address output, whichever families
      were asked for;
    - when that check and the calls before the loops succeed and the table
      then cannot be opened, a run with -4 and without -6 never opens it and
      exits 0, while a run that was asked for IPv6 output exits non-zero;
      both print the IPv4 lines first (the output of the same run against
      an empty table). *)
Theorem unreadable_if_inet6 (c : cmdline) (s : sys) :
  (∃ interfaces num, get_interfaces (proc_net_dev s) = Listed interfaces num) →
  FlagListInterfaces ∉ flags c →
  access_proc_net s = true →
  (access_if_inet6 s = false →
   exit_status (main c s) = Exited EXIT_FAILURE ∧ stdout (main c s) = [])
  ∧ (access_if_inet6 s = true → socket_ok s = true → is_Some (ifconf_len s) →
     malloc_ok s = true → is_Some (ifconf_table s) → if_inet6 s = None →
     stdout (main c s) = stdout (main c (with_if_inet6 (Some []) s))
     ∧ (Flag4 ∈ flags c ∧ Flag6 ∉ flags c →
        exit_status (main c s) = Exited EXIT_SUCCESS)
     ∧ (Flag6 ∈ flags c ∨ Flag4 ∉ flags c →
        exit_status (main c s) = Exited EXIT_FAILURE)).
Proof.
  intros Hlist Hmode Hnet. split.
  - intros Hacc. destruct Hlist as (ifs & num & Hlist).
    destruct (argp_parse_spec c) as (_ & _ & _ & Hl & _). simpl in Hl.
    unfold main. rewrite Hlist.
    destruct (list_interfaces (argp_parse c initial_args));
      [destruct Hmode; by apply Hl|].
    unfold list_addresses. by rewrite Hnet, Hacc.
  - intros Hacc Hsock [len Hlen] Hmalloc [table Htable] Hopen.
    destruct (main_resolver c s len table) as (a & err & Hval & Hmain); try done.
    destruct (main_resolver c (with_if_inet6 (Some []) s) len table)
      as (a' & err' & Hval' & Hmain'); try done.
    change (validated (argp_parse c initial_args) (with_if_inet6 (Some []) s))
      with (validated (argp_parse c initial_args) s) in Hval'.
    rewrite Hval in Hval'. injection Hval' as <- <-.
    rewrite Hmain, Hmain'. simpl. rewrite Hopen, ipv6_loop_empty.
    destruct (argp_parse_spec c) as (H4 & H6 & Hv & _). simpl in *.
    destruct (validated_fields _ _ _ _ Hval) as (Hav & Ha4 & Ha6).
    rewrite <- Hav in Hv. rewrite <- Ha4 in H4. rewrite <- Ha6 in H6.
    destruct (ip_version_specified a), (ipv6 a); simpl;
      rewrite ?app_nil_r; (split; [done|]);
      split; intros Hflags; try done; exfalso; intuition congruence.
Qed.

Lemma sample_sys_lists_interfaces s :
  proc_net_dev s = Some sample_dev →
  ∃ interfaces num, get_interfaces (proc_net_dev s) = Listed interfaces num.
Proof. intros ->. by exists [Some (chars "lo"); Some (chars "eth0")], 2%nat. Qed.

(** The sample host with a table that fails the [access] check, and with
    one that passes it and cannot be opened. *)
Lemma unreadable_if_inet6_witness :
  (exit_status (main (Cmdline [Flag4] []) (with_access_if_inet6 false sample_sys))
   = Exited EXIT_FAILURE
   ∧ stdout (main (Cmdline [Flag4] []) (with_access_if_inet6 false sample_sys)) = [])
  ∧ (stdout (main (Cmdline [Flag4] []) (with_if_inet6 None sample_sys))
     = stdout (main (Cmdline [Flag4] []) (with_if_inet6 (Some []) (with_if_inet6 None sample_sys)))
     ∧ exit_status (main (Cmdline [Flag4] []) (with_if_inet6 None sample_sys))
       = Exited EXIT_SUCCESS)
  ∧ exit_status (main (Cmdline [Flag6] []) (with_if_inet6 None sample_sys))
    = Exited EXIT_FAILURE.
Proof.
  assert (FlagListInterfaces ∉ [Flag4]) as Hm4 by (by intros [=]%list_elem_of_singleton).
  assert (FlagListInterfaces ∉ [Flag6]) as Hm6 by (by intros [=]%list_elem_of_singleton).
  split; [|split].
  - apply (unreadable_if_inet6 (Cmdline [Flag4] []) (with_access_if_inet6 false sample_sys));
      [by apply sample_sys_lists_interfaces | done..].
  - destruct (unreadable_if_inet6 (Cmdline [Flag4] []) (with_if_inet6 None sample_sys))
      as [_ H]; [by apply sample_sys_lists_interfaces | done | done |].
    destruct (H eq_refl eq_refl ltac:(by eexists) eq_refl ltac:(by eexists) eq_refl)
      as (Hout & Hok & _).
    split; [exact Hout|]. apply Hok. split; [apply list_elem_of_here|].
    by intros [=]%list_elem_of_singleton.
  - destruct (unreadable_if_inet6 (Cmdline [Flag6] []) (with_if_inet6 None sample_sys))
      as [_ H]; [by apply sample_sys_lists_interfaces | done | done |].
    destruct (H eq_refl eq_refl ltac:(by eexists) eq_refl ltac:(by eexists) eq_refl)
      as (_ & _ & Hfail).
    apply Hfail. left. apply list_elem_of_here.
Defined.

(** C3 as stated fails: invoked with -4 alone on a host whose IPv6 table
    does not pass the [access] check, the program exits non-zero and prints
    nothing, although the same host prints its IPv4 addresses and exits 0
    once the table is readable. *)
Lemma ipv4_only_run_aborts_on_unreadable_if_inet6 :
  exit_status (main (Cmdline [Flag4] []) (with_access_if_inet6 false sample_sys))
  = Exited EXIT_FAILURE
  ∧ stdout (main (Cmdline [Flag4] []) (with_access_if_inet6 false sample_sys)) = []
  ∧ stderr (main (Cmdline [Flag4] []) (with_access_if_inet6 false sample_sys))
    = [something_went_wrong]
  ∧ exit_status (main (Cmdline [Flag4] []) sample_sys) = Exited EXIT_SUCCESS
  ∧ stdout (main (Cmdline [Flag4] []) sample_sys)
    = [chars "127.0.0.1"; chars "192.168.1.10"].
Proof. repeat split; vm_compute; reflexivity. Qed.

(** ** Loopback and link-local addresses *)

Lemma while_fscanf_ext {A} (body1 body2 : list ascii → list ascii → option (list A)) :
  (∀ ip ifc, body1 ip ifc = body2 ip ifc) →
  ∀ f ip ifc, while_fscanf body1 f ip ifc = while_fscanf body2 f ip ifc.
Proof.
  intros Hbody f. remember (length f) as n eqn:Hn. revert f Hn.
  induction n as [n IH] using lt_wf_ind. intros f -> ip ifc.
  rewrite (while_fscanf_step body1), (while_fscanf_step body2).
  destruct (fscanf_if_inet6 f ip ifc) as [|k ip' ifc' f'|] eqn:E; try done.
  apply fscanf_if_inet6_shorter in E. rewrite Hbody.
  destruct (body2 ip' ifc'); [|done].
  by rewrite (IH (length f') E f' eq_refl ip' ifc').
Qed.

Lemma ipv4_loop_same_but_include a1 a2 reqs :
  same_but_include a1 a2 → ipv4_loop a1 reqs = ipv4_loop a2 reqs.
Proof.
  intros (Hv & H4 & _ & Hs & _ & Hi & Hn).
  induction reqs as [|e reqs IH]; simpl; [done|].
  by rewrite IH, Hv, H4, Hs, Hi, Hn.
Qed.

Lemma ipv6_loop_same_but_include a1 a2 f ip ifc :
  same_but_include a1 a2 → ipv6_loop a1 f ip ifc = ipv6_loop a2 f ip ifc.
Proof.
  intros (_ & _ & _ & Hs & _ & Hi & Hn). apply while_fscanf_ext.
  intros ip' ifc'. unfold ipv6_body. by rewrite Hs, Hi, Hn.
Qed.

Lemma validated_same_but_include a1 a2 s :
  same_but_include a1 a2 →
  match validated a1 s, validated a2 s with
  | Some (a1', err1), Some (a2', err2) => same_but_include a1' a2' ∧ err1 = err2
  | None, None => True
  | _, _ => False
  end.
Proof.
  intros (Hv & H4 & H6 & Hs & Hl & Hi & Hn). unfold validated. rewrite Hi, Hn.
  destruct (remove_bad_interfaces _ _ _) as [rm|]; simpl; [|done].
  by repeat split.
Qed.

(** [main] from the [access] checks on never reads the two fields. *)
Lemma list_addresses_same_but_include a1 a2 s :
  same_but_include a1 a2 → list_addresses a1 s = list_addresses a2 s.
Proof.
  intros Hsame. unfold list_addresses.
  destruct (negb (access_proc_net s)); [done|].
  destruct (negb (access_if_inet6 s)); [done|].
  destruct (negb (socket_ok s)); [done|].
  pose proof (validated_same_but_include a1 a2 s Hsame) as Hval.
  destruct (validated a1 s) as [[a1' err1]|], (validated a2 s) as [[a2' err2]|];
    try done.
  destruct Hval as [Hsame' <-].
  pose proof Hsame' as (Hv & H4 & H6 & Hs & Hl & Hi & Hn).
  destruct (ifconf_len s) as [len|]; [|done].
  destruct (negb (malloc_ok s)); [done|].
  destruct (ifconf_table s) as [table|]; [|done].
  cbv zeta. rewrite Hv, H6.
  rewrite (ipv4_loop_same_but_include a1' a2') by done.
  destruct (negb (ip_version_specified a2') || ipv6 a2'); [|done].
  destruct (if_inet6 s) as [f|]; [|done].
  by rewrite (ipv6_loop_same_but_include a1' a2') by done.
Qed.

Lemma parse_flags_same_but_include fs : ∀ a1 a2,
  same_but_include a1 a2 →
  same_but_include
    (foldl (λ a o, snd (parse_opt (key_of o) [] a)) a1 fs)
    (foldl (λ a o, snd (parse_opt (key_of o) [] a)) a2
       (filter (λ o, o ≠ FlagIncludeLoopback ∧ o ≠ FlagIncludeLinkLocal) fs)).
Proof.
  induction fs as [|o fs IH]; intros a1 a2 Hsame; [done|].
  pose proof Hsame as (Hv & H4 & H6 & Hs & Hl & Hi & Hn).
  rewrite filter_cons.
  destruct o; case_decide as Hkeep;
    try (destruct Hkeep as [? ?]; congruence);
    try (destruct Hkeep; split; discriminate);
    simpl; apply IH; repeat split; simpl; congruence.
Qed.

(** X23.  The options --include-loopback and --include-link-local change
    nothing: the run is the same with and without them. *)
Lemma main_ignores_include_options c s : main c s = main (without_include c) s.
Proof.
  assert (same_but_include (argp_parse c initial_args)
            (argp_parse (without_include c) initial_args)) as Hsame.
  { unfold argp_parse, without_include. simpl.
    pose proof (parse_flags_same_but_include (flags c) initial_args initial_args) as H.
    destruct (names c);
      [apply H; by repeat split|].
    destruct H as (Hv & H4 & H6 & Hs & Hl & Hi & Hn); [by repeat split|].
    repeat split; simpl; congruence. }
  unfold main. pose proof Hsame as (_ & _ & _ & _ & Hl & _).
  destruct (get_interfaces (proc_net_dev s)); [|done..].
  rewrite Hl.
  destruct (list_interfaces (argp_parse (without_include c) initial_args)); [done|].
  by apply list_addresses_same_but_include.
Qed.

(** C1 (failing input).  On the sample host, whose IPv6 table holds the
    loopback address ::1 and a link-local address fe80::..., a run without
    --include-loopback and --include-link-local prints both, and so does a
    run with the two options: [main] never reads [include_loopback] and
    [include_link_local]. *)
Theorem loopback_and_link_local_are_printed :
  stdout (main (Cmdline [Flag6] []) sample_sys)
  = [ chars "0000:0000:0000:0000:0000:0000:0000:0001";
      chars "fe80:0000:0000:0000:0a00:27ff:fe4e:66a1";
      chars "2001:0db8:0000:0000:0000:0000:0000:0042" ]
  ∧ stdout (main (Cmdline [Flag6; FlagIncludeLoopback; FlagIncludeLinkLocal] []) sample_sys)
    = stdout (main (Cmdline [Flag6] []) sample_sys)
  ∧ include_loopback (argp_parse (Cmdline [Flag6] []) initial_args) = false
  ∧ include_link_local (argp_parse (Cmdline [Flag6] []) initial_args) = false.
Proof. repeat split; vm_compute; reflexivity. Qed.

(** ** Repeated lines *)

Lemma u8_of_digits_fmt_u8 b : u8_of_digits (fmt_u8 b) = Byte.to_N b.
Proof. by destruct b. Qed.

Lemma fmt_u8_inj x y : fmt_u8 x = fmt_u8 y → x = y.
Proof.
  intros H. apply (f_equal u8_of_digits) in H. rewrite !u8_of_digits_fmt_u8 in H.
  pose proof (Byte.of_to_N x) as Hx. rewrite H, Byte.of_to_N in Hx. congruence.
Qed.

Lemma fmt_u8_no_dot b : DOT ∉ fmt_u8 b.
Proof.
  destruct (fmt_u8_decimal_group b) as [_ Hd]. rewrite Forall_forall in Hd.
  intros Hin. by specialize (Hd _ Hin).
Qed.

Lemma app_DOT_inj (l1 : list ascii) : ∀ l2 r1 r2,
  DOT ∉ l1 → DOT ∉ l2 → l1 ++ DOT :: r1 = l2 ++ DOT :: r2 → l1 = l2 ∧ r1 = r2.
Proof.
  induction l1 as [|c l1 IH]; intros [|d l2] r1 r2 H1 H2; simpl.
  - by intros [= <-].
  - intros [= <- _]. destruct H2. apply list_elem_of_here.
  - intros [= -> _]. destruct H1. apply list_elem_of_here.
  - intros [= <- Hrest]. rewrite not_elem_of_cons in H1, H2.
    destruct (IH l2 r1 r2) as [-> ->]; tauto.
Qed.

(** Dotted decimal determines the address. *)
Lemma inet_ntop_inj a b : inet_ntop a = inet_ntop b → a = b.
Proof.
  destruct a as [a0 a1 a2 a3], b as [b0 b1 b2 b3]. unfold inet_ntop. simpl.
  intros H.
  apply app_DOT_inj in H as [H0 H]; [|apply fmt_u8_no_dot..].
  apply app_DOT_inj in H as [H1 H]; [|apply fmt_u8_no_dot..].
  apply app_DOT_inj in H as [H2 H3]; [|apply fmt_u8_no_dot..].
  by rewrite (fmt_u8_inj _ _ H0), (fmt_u8_inj _ _ H1), (fmt_u8_inj _ _ H2),
             (fmt_u8_inj _ _ H3).
Qed.

Lemma line4_inj e1 e2 : line4 e1 = line4 e2 → e1 = e2.
Proof.
  destruct e1 as [n1 a1], e2 as [n2 a2]. unfold line4. simpl.
  intros [= -> Ha]. by rewrite (inet_ntop_inj _ _ Ha).
Qed.

(** The IPv4 loop prints one line per selected entry of the table. *)
Lemma ipv4_loop_filter a reqs :
  ipv4_loop a reqs =
  if negb (ip_version_specified a) || ipv4 a
  then line4 <$> filter (λ e, Is_true (selected a (ifr_name e))) reqs
  else [].
Proof.
  induction reqs as [|e reqs IH]; simpl; [by destruct (_ || _)|].
  rewrite IH. fold (selected a (ifr_name e)).
  destruct (negb (ip_version_specified a) || ipv4 a) eqn:Hreq.
  - destruct (selected a (ifr_name e)) eqn:Hsel.
    + rewrite filter_cons_True; [done | by apply Is_true_true].
    + rewrite filter_cons_False; [done | by apply Is_true_false].
  - by destruct (selected a (ifr_name e)).
Qed.

Lemma ipv4_loop_NoDup a reqs : NoDup reqs → NoDup (ipv4_loop a reqs).
Proof.
  intros Hreqs. rewrite ipv4_loop_filter.
  destruct (_ || _); [|apply NoDup_nil_2].
  apply NoDup_fmap_2_strong; [|by apply NoDup_filter].
  intros e1 e2 _ _. apply line4_inj.
Qed.

Lemma forallb_not_NUL l :
  forallb (λ c, negb (Ascii.eqb c NUL)) l = true →
  Forall (λ c, Ascii.eqb c NUL = false) l.
Proof.
  intros H. apply Forall_forall. intros c Hc%list_elem_of_In.
  rewrite forallb_forall in H. by apply negb_true_iff, H.
Qed.

(** The IPv6 loop prints one line per selected line of a table of full
    address lines. *)
Lemma arrays_after_lines a ls : ∀ ip ifc,
  Forall (λ l, full_address_line l = true) ls →
  arrays_after (omap six_fields ls) ip ifc
    ≫= (λ r, default [] (ipv6_body a r.1 r.2))
  = line6 <$> filter (λ p, Is_true (selected a p.2)) (omap six_fields ls).
Proof.
  induction ls as [|l ls IH]; intros ip ifc Hls; [done|].
  inversion Hls as [|? ? Hl Hls']; subst.
  apply andb_prop in Hl as [Hl Hlen]. unfold table_line in Hl.
  destruct (six_fields l) as [[t1 t6]|] eqn:Hsix; [|done].
  apply Nat.eqb_eq in Hlen.
  apply andb_prop in Hl as [_ Hn]. rewrite forallb_app in Hn.
  apply andb_prop in Hn as [Hn1 Hn6].
  simpl. rewrite Hsix. simpl. rewrite IH by done.
  unfold ipv6_body, stored.
  rewrite (cstr_app_NUL _ _ Hn6), (cstr_upto_nul _ _ (cstr_app_NUL _ _ Hn6)).
  rewrite pretty_ip_of_stored by (done || by apply forallb_not_NUL).
  destruct (interfaces_specified a) eqn:Hspec; simpl.
  - case_bool_decide as Hfind.
    + rewrite filter_cons_True; [done|]. apply Is_true_true. unfold selected.
      simpl. rewrite Hspec. by rewrite bool_decide_eq_true_2.
    + rewrite filter_cons_False; [done|]. apply Is_true_false. unfold selected.
      simpl. rewrite Hspec. by rewrite bool_decide_eq_false_2.
  - rewrite filter_cons_True; [done|]. apply Is_true_true. unfold selected.
    by rewrite Hspec.
Qed.

Lemma ipv6_loop_full_lines a ls ip ifc :
  Forall (λ l, full_address_line l = true) ls →
  length ip = ADDRSTRLEN → length ifc = IFNAMSIZ →
  ipv6_loop a (table_of_lines ls) ip ifc
  = (line6 <$> filter (λ p, Is_true (selected a p.2)) (omap six_fields ls), true).
Proof.
  intros Hls Hip Hifc.
  assert (Forall (λ l, table_line l = true) ls) as Hls'.
  { eapply Forall_impl; [exact Hls|]. by intros l [? _]%andb_prop. }
  unfold ipv6_loop.
  erewrite while_fscanf_rows; [ | | by apply arrays_after_defined].
  - by rewrite arrays_after_lines.
  - apply table_rows_lines; [apply tokens_table_of_lines | done..].
Qed.

Lemma colon_join_groups_inj (t u : list ascii) :
  length t = 32%nat → length u = 32%nat →
  colon_join (groups_of 8 t) = colon_join (groups_of 8 u) → t = u.
Proof.
  intros Ht Hu.
  do 33 (destruct t as [|? t]; try discriminate Ht).
  do 33 (destruct u as [|? u]; try discriminate Hu).
  simpl. intros H. by injection H as -> -> -> -> -> -> -> -> -> -> -> -> -> -> -> ->
                                    -> -> -> -> -> -> -> -> -> -> -> -> -> -> -> ->.
Qed.

Lemma six_fields_full ls p :
  Forall (λ l, full_address_line l = true) ls → p ∈ omap six_fields ls →
  length p.1 = 32%nat.
Proof.
  intros Hls (l & Hl & Hsix)%list_elem_of_omap. rewrite Forall_forall in Hls.
  specialize (Hls l Hl). apply andb_prop in Hls as [_ Hlen].
  rewrite Hsix in Hlen. destruct p as [t1 t6]. by apply Nat.eqb_eq.
Qed.

Lemma line6_inj_full ls p q :
  Forall (λ l, full_address_line l = true) ls →
  p ∈ omap six_fields ls → q ∈ omap six_fields ls →
  line6 p = line6 q → p = q.
Proof.
  intros Hls Hp%(six_fields_full _ _ Hls) Hq%(six_fields_full _ _ Hls).
  destruct p as [p1 p6], q as [q1 q6]. unfold line6. simpl in *.
  intros [= -> Haddr]. by rewrite (colon_join_groups_inj _ _ Hp Hq Haddr).
Qed.

Lemma list_addresses_NoDup a s :
  (∀ table, ifconf_table s = Some table → NoDup table) →
  (∀ f, if_inet6 s = Some f →
     ∃ ls, f = table_of_lines ls
       ∧ Forall (λ l, full_address_line l = true) ls
       ∧ NoDup (omap six_fields ls)) →
  NoDup (emitted (list_addresses a s)).
Proof.
  intros H4 H6. unfold list_addresses.
  destruct (negb (access_proc_net s)); [apply NoDup_nil_2|].
  destruct (negb (access_if_inet6 s)); [apply NoDup_nil_2|].
  destruct (negb (socket_ok s)); [apply NoDup_nil_2|].
  destruct (validated a s) as [[a' err]|]; [|apply NoDup_nil_2].
  destruct (ifconf_len s) as [len|]; [|apply NoDup_nil_2].
  destruct (negb (malloc_ok s)); [apply NoDup_nil_2|].
  destruct (ifconf_table s) as [table|]; [|apply NoDup_nil_2].
  simpl.
  assert (NoDup (ipv4_loop a' (take (len / sizeof_ifreq) table))) as Hout4.
  { apply ipv4_loop_NoDup.
    apply (sublist_NoDup _ table); [by apply H4 | apply sublist_take]. }
  destruct (negb (ip_version_specified a') || ipv6 a'); [|done].
  destruct (if_inet6 s) as [f|]; [|done].
  destruct (H6 f eq_refl) as (ls & -> & Hls & Hnodup).
  rewrite ipv6_loop_full_lines by (done || apply length_resize). simpl.
  apply NoDup_app. repeat split; [done | |].
  - intros r Hr (p & -> & _)%list_elem_of_fmap.
    pose proof (ipv4_loop_lines a' (take (len / sizeof_ifreq) table)) as Hfam.
    rewrite Forall_forall in Hfam. by destruct (Hfam _ Hr) as [? _].
  - apply NoDup_fmap_2_strong; [|by apply NoDup_filter].
    intros p q [_ Hp]%list_elem_of_filter [_ Hq]%list_elem_of_filter.
    by apply (line6_inj_full ls).
Qed.

(** C2 (as amended).  In one run no address line is emitted twice for the
    same (interface name, address family, address value) triple, provided
    the tables hold no repeated entry: the IPv4 bulk configuration table
    lists no (interface, address) pair twice, and the IPv6 address table is
    made of well-formed lines with 32-character addresses, no two with the
    same address and interface name.  Outside list-only mode the lines
    printed are exactly the addresses of the emitted triples. *)
Theorem no_line_twice_from_duplicate_free_tables (c : cmdline) (s : sys) :
  (∀ table, ifconf_table s = Some table → NoDup table) →
  (∀ f, if_inet6 s = Some f →
     ∃ ls, f = table_of_lines ls
       ∧ Forall (λ l, full_address_line l = true) ls
       ∧ NoDup (omap six_fields ls)) →
  NoDup (emitted (main c s))
  ∧ (FlagListInterfaces ∉ flags c →
     stdout (main c s) = ar_address <$> emitted (main c s)).
Proof.
  intros H4 H6.
  pose proof (list_addresses_NoDup (argp_parse c initial_args) s H4 H6) as Hnodup.
  pose proof (list_addresses_permitted (argp_parse c initial_args) s) as [Hout _].
  destruct (argp_parse_spec c) as (_ & _ & _ & Hl & _). simpl in Hl.
  unfold main.
  destruct (get_interfaces (proc_net_dev s)) as [arr num| |];
    [|split; [apply NoDup_nil_2 | done]..].
  destruct (list_interfaces (argp_parse c initial_args)).
  - split; [destruct (print_interfaces num 0 arr); apply NoDup_nil_2|].
    intros Hmode. destruct Hmode. by apply Hl.
  - by split.
Qed.

(** Closed lists without repetition. *)
Ltac distinct :=
  repeat (apply NoDup_cons_2;
          [ let H := fresh in
            rewrite ?elem_of_cons, ?elem_of_nil; intros H;
            decompose [or] H; (discriminate || done)
          | ]);
  apply NoDup_nil_2.

(** The tables of the sample host hold no repeated entry. *)
Lemma no_line_twice_from_duplicate_free_tables_witness :
  NoDup (emitted (main (Cmdline [] []) sample_sys))
  ∧ stdout (main (Cmdline [] []) sample_sys)
    = ar_address <$> emitted (main (Cmdline [] []) sample_sys).
Proof.
  destruct (no_line_twice_from_duplicate_free_tables (Cmdline [] []) sample_sys)
    as [Hnodup Hout].
  - intros table [= <-]. unfold sample_table. distinct.
  - intros f [= <-]. exists sample_if_inet6_lines.
    split; [reflexivity|]. split; [repeat constructor|].
    vm_compute. distinct.
  - split; [exact Hnodup|]. apply Hout. simpl. apply not_elem_of_nil.
Defined.

(** C2 as stated fails on an IPv4 table that lists the same interface and
    address twice: the line is printed twice. *)
Lemma repeated_entry_is_printed_twice :
  emitted (main (Cmdline [Flag4] []) (with_ifconf_table repeated_table sample_sys))
  = [ AddressLine (chars "eth0") AF_INET (chars "192.168.1.10");
      AddressLine (chars "eth0") AF_INET (chars "192.168.1.10") ]
  ∧ stdout (main (Cmdline [Flag4] []) (with_ifconf_table repeated_table sample_sys))
    = [ chars "192.168.1.10"; chars "192.168.1.10" ]
  ∧ ¬ NoDup (emitted (main (Cmdline [Flag4] [])
                        (with_ifconf_table repeated_table sample_sys))).
Proof.
  assert (emitted (main (Cmdline [Flag4] []) (with_ifconf_table repeated_table sample_sys))
          = [ AddressLine (chars "eth0") AF_INET (chars "192.168.1.10");
              AddressLine (chars "eth0") AF_INET (chars "192.168.1.10") ]) as Hem
    by (vm_compute; reflexivity).
  split; [exact Hem|]. split; [vm_compute; reflexivity|].
  rewrite Hem. intros [Hin _]%NoDup_cons. apply Hin, list_elem_of_here.
Qed.

(** ** Further properties of the program *)

Lemma print_interfaces_Some names : ∀ pre,
  print_interfaces (length names) (length pre) (pre ++ (Some <$> names)) = Some names.
Proof.
  induction names as [|n names IH]; intros pre; [done|].
  simpl. rewrite lookup_app_r, Nat.sub_diag by lia. simpl.
  specialize (IH (pre ++ [Some n])).
  rewrite length_app, Nat.add_1_r, <- app_assoc in IH. simpl in IH.
  unfold fmap in IH |- *. by rewrite IH.
Qed.

Lemma interface_name_data_lines data :
  Forall (λ l, data_line l = true) data →
  interface_name <$> data = Some <$> omap interface_name data.
Proof.
  induction data as [|l data IH]; intros Hdata; [done|].
  inversion Hdata as [|? ? Hl Hdata']; subst.
  apply andb_prop in Hl as [_ Hl].
  assert (∃ n, interface_name l = Some n) as [n Hn].
  { unfold interface_name. destruct (head (tokens l)); [by eexists | done]. }
  change (omap interface_name (l :: data))
    with (match interface_name l with
          | Some y => y :: omap interface_name data
          | None => omap interface_name data
          end).
  by rewrite !fmap_cons, Hn, IH.
Qed.

(** X1, list-only mode.  With --list-interfaces, whatever the other options,
    the names given and the rest of the system, the program prints exactly
    the names of the data lines of the interface listing, one per line and
    in order, writes nothing to standard error and exits 0. *)
Theorem list_interfaces_prints_the_listing (c : cmdline) (s : sys)
    (header1 header2 : list ascii) (data : list (list ascii)) :
  FlagListInterfaces ∈ flags c →
  proc_net_dev s = Some (table_of_lines (header1 :: header2 :: data)) →
  text_line header1 = true → text_line header2 = true →
  Forall (λ l, data_line l = true) data →
  main c s = Run (omap interface_name data) [] (Exited EXIT_SUCCESS) [].
Proof.
  intros Hflag Hdev H1 H2 Hdata.
  assert (Forall (λ l, text_line l = true) data) as Htext
    by (eapply Forall_impl; [exact Hdata | apply data_line_text_line]).
  destruct (argp_parse_spec c) as (_ & _ & _ & Hl & _). simpl in Hl.
  apply Hl in Hflag. unfold main. rewrite Hflag, Hdev.
  unfold get_interfaces. simpl skip_header.
  rewrite !getline_table_of_lines by done.
  rewrite count_lines_table_of_lines by done.
  pose proof (parse_lines_data data [] Hdata) as Hparse.
  simpl in Hparse |- *. rewrite Hparse.
  rewrite interface_name_data_lines by done.
  pose proof (print_interfaces_Some (omap interface_name data) []) as Hprint.
  simpl in Hprint.
  assert (length data = length (omap interface_name data)) as ->.
  { rewrite <- (length_fmap Some (omap interface_name data)).
    rewrite <- interface_name_data_lines by done. by rewrite length_fmap. }
  by rewrite Hprint.
Qed.

(** The sample host in list-only mode, with other options and its IPv6
    table unreadable. *)
Lemma list_interfaces_prints_the_listing_witness :
  main (Cmdline [Flag6; FlagListInterfaces] [chars "nope"])
       (with_access_if_inet6 false sample_sys)
  = Run [chars "lo"; chars "eth0"] [] (Exited EXIT_SUCCESS) [].
Proof.
  apply (list_interfaces_prints_the_listing
           (Cmdline [Flag6; FlagListInterfaces] [chars "nope"])
           (with_access_if_inet6 false sample_sys)
           sample_header1 sample_header2 sample_dev_lines).
  - simpl. apply list_elem_of_further, list_elem_of_here.
  - reflexivity.
  - reflexivity.
  - reflexivity.
  - repeat constructor.
Defined.

Lemma probed_ok_subset ok names : ∀ i n, n ∈ probed_ok ok i names → n ∈ names.
Proof.
  induction names as [|m names IH]; intros i n; simpl; [done|].
  destruct (ok i (strncpy m IFNAMSIZ)).
  - rewrite !elem_of_cons. intros [->|Hn]; [by left | right; by eapply IH].
  - intros Hn. apply list_elem_of_further. by eapply IH.
Qed.

(** In address mode, when names were given, every record is for a name that
    [strcmp] finds equal to one of them. *)
Lemma list_addresses_selected a s r :
  (num_interfaces a ≤ length (interfaces a))%nat →
  interfaces_specified a = true →
  r ∈ emitted (list_addresses a s) →
  ∃ n, n ∈ take (num_interfaces a) (interfaces a) ∧ strcmp (ar_interface r) n = 0.
Proof.
  intros Hnum Hspec. unfold list_addresses.
  destruct (negb (access_proc_net s)); [by intros []%elem_of_nil|].
  destruct (negb (access_if_inet6 s)); [by intros []%elem_of_nil|].
  destruct (negb (socket_ok s)); [by intros []%elem_of_nil|].
  destruct (validated_spec a s Hnum)
    as (a' & err & -> & _ & _ & _ & Hspec' & Htake & _).
  rewrite Hspec in Hspec'.
  assert (∀ r, is_Some (lfind (ar_interface r) (interfaces a') (num_interfaces a')) →
            ∃ n, n ∈ take (num_interfaces a) (interfaces a)
                 ∧ strcmp (ar_interface r) n = 0) as Hfound.
  { intros r' (n & Hn & Hcmp)%lfind_Some. exists n. split; [|done].
    rewrite Htake in Hn. by eapply probed_ok_subset. }
  destruct (ifconf_len s) as [len|]; [|by intros []%elem_of_nil].
  destruct (negb (malloc_ok s)); [by intros []%elem_of_nil|].
  destruct (ifconf_table s) as [table|]; [|by intros []%elem_of_nil].
  cbv zeta.
  pose proof (ipv4_loop_lines a' (take (len / sizeof_ifreq) table)) as H4.
  rewrite Forall_forall in H4.
  assert (r ∈ ipv4_loop a' (take (len / sizeof_ifreq) table) →
          ∃ n, n ∈ take (num_interfaces a) (interfaces a)
               ∧ strcmp (ar_interface r) n = 0) as Hout4.
  { intros Hr. destruct (H4 r Hr) as (_ & _ & _ & Hfind). by apply Hfound, Hfind. }
  destruct (negb (ip_version_specified a') || ipv6 a'); [|done].
  destruct (if_inet6 s) as [f|]; [|done].
  pose proof (ipv6_loop_lines a' f (resize ADDRSTRLEN NUL (stack_ip s))
                (resize IFNAMSIZ NUL (stack_ifc s))) as H6.
  rewrite Forall_forall in H6.
  destruct (ipv6_loop a' f _ _) as [out6 ok]. simpl in *.
  rewrite elem_of_app. intros [Hr|Hr]; [by apply Hout4|].
  destruct (H6 r Hr) as (_ & _ & Hfind). by apply Hfound, Hfind.
Qed.

(** X2, emission rule.  An address record is only emitted if its family was
    asked for (-4, -6, or neither option) and, when interface names were
    given, its interface compares equal to one of them; IPv4 addresses are
    printed in dotted-decimal form and IPv6 addresses with colons. *)
Theorem records_are_only_emitted_when_asked_for (c : cmdline) (s : sys)
    (r : AddressRecord) :
  r ∈ emitted (main c s) →
  ((ar_family r = AF_INET ∧ (Flag4 ∈ flags c ∨ Flag6 ∉ flags c)
    ∧ dotted_decimal (ar_address r))
   ∨ (ar_family r = AF_INET6 ∧ (Flag6 ∈ flags c ∨ Flag4 ∉ flags c)
      ∧ COLON ∈ ar_address r))
  ∧ (names c ≠ [] → ∃ n, n ∈ names c ∧ strcmp (ar_interface r) n = 0).
Proof.
  destruct (argp_parse_spec c) as (H4 & H6 & Hv & _ & Hspec & Hi & Hn). simpl in *.
  unfold main.
  destruct (get_interfaces (proc_net_dev s)); try (by intros []%elem_of_nil).
  destruct (list_interfaces (argp_parse c initial_args)).
  { destruct (print_interfaces _ _ _); by intros []%elem_of_nil. }
  intros Hr. split.
  - pose proof (list_addresses_permitted (argp_parse c initial_args) s) as [_ Hperm].
    rewrite Forall_forall in Hperm.
    destruct (Hperm r Hr) as [(Hfam & Hreq & Hdot)|(Hfam & Hreq & Hcolon)].
    + left. repeat split; try done.
      destruct Hreq as [Hreq|Hreq]; [|left; by apply H4].
      right. intros Hf6. assert (ip_version_specified (argp_parse c initial_args) = true)
        by (apply Hv; auto). congruence.
    + right. repeat split; try done.
      destruct Hreq as [Hreq|Hreq]; [|left; by apply H6].
      right. intros Hf4. assert (ip_version_specified (argp_parse c initial_args) = true)
        by (apply Hv; auto). congruence.
  - intros Hnames%Hspec.
    destruct (list_addresses_selected (argp_parse c initial_args) s r)
      as (n & Hin & Hcmp); [rewrite Hi, Hn; lia | done | done |].
    rewrite Hi, Hn, firstn_all in Hin. eauto.
Qed.

(** A record of the sample host, asked for the IPv6 addresses of eth0. *)
Lemma records_are_only_emitted_when_asked_for_witness :
  let c := Cmdline [Flag6] [chars "eth0"] in
  let r := AddressLine (chars "eth0") AF_INET6
             (chars "2001:0db8:0000:0000:0000:0000:0000:0042") in
  ((ar_family r = AF_INET ∧ (Flag4 ∈ flags c ∨ Flag6 ∉ flags c)
    ∧ dotted_decimal (ar_address r))
   ∨ (ar_family r = AF_INET6 ∧ (Flag6 ∈ flags c ∨ Flag4 ∉ flags c)
      ∧ COLON ∈ ar_address r))
  ∧ (names c ≠ [] → ∃ n, n ∈ names c ∧ strcmp (ar_interface r) n = 0).
Proof.
  apply (records_are_only_emitted_when_asked_for
           (Cmdline [Flag6] [chars "eth0"]) sample_sys).
  vm_compute. apply list_elem_of_further, list_elem_of_here.
Defined.

Lemma filter_selected_all a (fields : list (list ascii * list ascii)) :
  interfaces_specified a = false →
  filter (λ p, Is_true (selected a p.2)) fields = fields.
Proof.
  intros Hspec. induction fields as [|p fields IH]; [done|].
  rewrite filter_cons_True, IH; [done|].
  apply Is_true_true. unfold selected. by rewrite Hspec.
Qed.

(** IPv6 output.  On a host where the calls before the loops succeed and
    the IPv6 table is made of well-formed lines with 32-character
    addresses, a run with -6, without -4 and without interface names
    prints, for each line of the table in order, the eight groups of four
    characters of its address joined by colons, and nothing else; it
    writes nothing to standard error and exits 0.  No line is left out:
    the loop has no test for loopback or link-local addresses (see C1). *)
Theorem ipv6_run_prints_every_table_line (c : cmdline) (s : sys)
    (ls : list (list ascii)) :
  Flag6 ∈ flags c → Flag4 ∉ flags c → FlagListInterfaces ∉ flags c →
  names c = [] →
  (∃ interfaces num, get_interfaces (proc_net_dev s) = Listed interfaces num) →
  access_proc_net s = true → access_if_inet6 s = true → socket_ok s = true →
  is_Some (ifconf_len s) → malloc_ok s = true → is_Some (ifconf_table s) →
  if_inet6 s = Some (table_of_lines ls) →
  Forall (λ l, full_address_line l = true) ls →
  stdout (main c s) = (λ p, colon_join (groups_of 8 p.1)) <$> omap six_fields ls
  ∧ stderr (main c s) = []
  ∧ exit_status (main c s) = Exited EXIT_SUCCESS.
Proof.
  intros Hf6 Hf4 Hmode Hnames Hlist Hnet Hacc Hsock [len Hlen] Hmalloc
         [table Htable] Hopen Hls.
  destruct (main_resolver c s len table) as (a & err & Hval & Hmain); try done.
  destruct (argp_parse_spec c) as (H4 & H6 & Hv & _ & Hspec & Hi & Hn). simpl in *.
  destruct (validated_spec (argp_parse c initial_args) s)
    as (a' & err' & Hval' & Hav & Ha4 & Ha6 & Has & _ & Herr);
    [rewrite Hi, Hn; lia|].
  rewrite Hval in Hval'. injection Hval' as <- <-.
  assert (ip_version_specified a = true) as Ev by (rewrite Hav; apply Hv; auto).
  assert (ipv4 a = false) as E4.
  { rewrite Ha4. destruct (ipv4 (argp_parse c initial_args)); [|done].
    destruct Hf4. by apply H4. }
  assert (ipv6 a = true) as E6 by (rewrite Ha6; by apply H6).
  assert (interfaces_specified a = false) as Es.
  { rewrite Has. destruct (interfaces_specified (argp_parse c initial_args)); [|done].
    by destruct (proj1 Hspec eq_refl). }
  rewrite Hmain. cbv zeta. rewrite Ev, E6, Hopen. simpl negb. simpl orb.
  rewrite ipv4_loop_not_requested by done.
  rewrite ipv6_loop_full_lines by (done || apply length_resize).
  rewrite filter_selected_all by done. simpl.
  rewrite <- list_fmap_compose. split; [done|]. split; [|done].
  rewrite Herr, Hi, Hnames. by rewrite take_nil.
Qed.

(** The sample host with -6. *)
Lemma ipv6_run_prints_every_table_line_witness :
  stdout (main (Cmdline [Flag6] []) sample_sys)
  = [ chars "0000:0000:0000:0000:0000:0000:0000:0001";
      chars "fe80:0000:0000:0000:0a00:27ff:fe4e:66a1";
      chars "2001:0db8:0000:0000:0000:0000:0000:0042" ]
  ∧ stderr (main (Cmdline [Flag6] []) sample_sys) = []
  ∧ exit_status (main (Cmdline [Flag6] []) sample_sys) = Exited EXIT_SUCCESS.
Proof.
  apply (ipv6_run_prints_every_table_line (Cmdline [Flag6] []) sample_sys
           sample_if_inet6_lines); try reflexivity.
  - simpl. apply list_elem_of_here.
  - simpl. by intros [=]%list_elem_of_singleton.
  - simpl. by intros [=]%list_elem_of_singleton.
  - by apply sample_sys_lists_interfaces.
  - by eexists.
  - by eexists.
  - repeat constructor.
Defined.

Lemma lfind_matches key base nmemb :
  bool_decide (is_Some (lfind key base nmemb)) = matches (take nmemb base) key.
Proof.
  unfold lfind, matches, cmp.
  induction (take nmemb base) as [|e l IH]; simpl; [done|].
  by destruct (strcmp key e =? 0).
Qed.

(** X4.  IPv4 output.  On a host where the calls before the loops succeed, a
    run with -4 and without -6 prints, in table order, the dotted-decimal
    address of each entry of the IPv4 table that fits the buffer, or, when
    interface names were given, of each such entry whose name compares
    equal to a name that passed the probe; it exits 0.  The loop has no
    test for the loopback interface either. *)
Theorem ipv4_run_prints_selected_entries (c : cmdline) (s : sys)
    (len : nat) (table : list ifreq) :
  Flag4 ∈ flags c → Flag6 ∉ flags c → FlagListInterfaces ∉ flags c →
  (∃ interfaces num, get_interfaces (proc_net_dev s) = Listed interfaces num) →
  access_proc_net s = true → access_if_inet6 s = true → socket_ok s = true →
  ifconf_len s = Some len → malloc_ok s = true → ifconf_table s = Some table →
  stdout (main c s)
  = (λ e, inet_ntop (sin_addr e))
      <$> filter (λ e, Is_true (bool_decide (names c = [])
                                || matches (probed_ok (ifindex_ok s) 0 (names c))
                                     (ifr_name e)))
            (take (len / sizeof_ifreq) table)
  ∧ exit_status (main c s) = Exited EXIT_SUCCESS.
Proof.
  intros Hf4 Hf6 Hmode Hlist Hnet Hacc Hsock Hlen Hmalloc Htable.
  destruct (main_resolver c s len table) as (a & err & Hval & Hmain); try done.
  destruct (argp_parse_spec c) as (H4 & H6 & Hv & _ & Hspec & Hi & Hn). simpl in *.
  destruct (validated_spec (argp_parse c initial_args) s)
    as (a' & err' & Hval' & Hav & Ha4 & Ha6 & Has & Htake & _);
    [rewrite Hi, Hn; lia|].
  rewrite Hval in Hval'. injection Hval' as <- <-.
  rewrite Hi, Hn, firstn_all in Htake.
  assert (ip_version_specified a = true) as Ev by (rewrite Hav; apply Hv; auto).
  assert (ipv4 a = true) as E4 by (rewrite Ha4; by apply H4).
  assert (ipv6 a = false) as E6.
  { rewrite Ha6. destruct (ipv6 (argp_parse c initial_args)); [|done].
    destruct Hf6. by apply H6. }
  rewrite Hmain. cbv zeta. rewrite Ev, E6. simpl. split; [|done].
  rewrite ipv4_loop_filter, Ev, E4. simpl. rewrite <- list_fmap_compose.
  f_equal. apply list_filter_iff. intros e. unfold selected.
  rewrite lfind_matches, Htake, Has.
  destruct (interfaces_specified (argp_parse c initial_args)).
  - rewrite bool_decide_eq_false_2; [done|]. by apply Hspec.
  - rewrite bool_decide_eq_true_2; [done|].
    destruct (names c); [done|].
    assert (false = true) by (by apply Hspec). done.
Qed.

(** The sample host with -4, asked for eth0 and an unknown name. *)
Lemma ipv4_run_prints_selected_entries_witness :
  stdout (main (Cmdline [Flag4] [chars "nope"; chars "eth0"]) sample_sys)
  = [chars "192.168.1.10"]
  ∧ exit_status (main (Cmdline [Flag4] [chars "nope"; chars "eth0"]) sample_sys)
    = Exited EXIT_SUCCESS.
Proof.
  apply (ipv4_run_prints_selected_entries
           (Cmdline [Flag4] [chars "nope"; chars "eth0"]) sample_sys 80 sample_table);
    try reflexivity.
  - simpl. apply list_elem_of_here.
  - simpl. by intros [=]%list_elem_of_singleton.
  - simpl. by intros [=]%list_elem_of_singleton.
  - by apply sample_sys_lists_interfaces.
Defined.

(** ** Further properties of the code *)

Lemma list_addresses_resolve a s :
  list_addresses a s =
  if negb (access_proc_net s) then errorout [] []
  else if negb (access_if_inet6 s) then errorout [] []
  else if negb (socket_ok s) then errorout [] []
  else match validated a s with
       | None => Run [] [] Undefined []
       | Some (a', err) => resolve a' err s
       end.
Proof. reflexivity. Qed.

Lemma ipv4_loop_same_selection a1 a2 reqs :
  same_selection a1 a2 → ipv4_loop a1 reqs = ipv4_loop a2 reqs.
Proof.
  intros (H4 & _ & _ & Hsel). rewrite !ipv4_loop_filter, H4.
  destruct (negb (ip_version_specified a2) || ipv4 a2); [|done].
  f_equal. apply list_filter_iff.
  intros e. by rewrite Hsel.
Qed.

Lemma ipv6_loop_same_selection a1 a2 f ip ifc :
  same_selection a1 a2 → ipv6_loop a1 f ip ifc = ipv6_loop a2 f ip ifc.
Proof.
  intros (_ & _ & Hs & Hsel). apply while_fscanf_ext.
  intros ip' ifc'. unfold ipv6_body. rewrite Hs.
  destruct (interfaces_specified a2) eqn:Hspec; [|done]. simpl.
  destruct (cstr ifc') as [ifc_p|]; [|done]. simpl.
  specialize (Hsel ifc_p). unfold selected in Hsel.
  rewrite Hs, Hspec in Hsel. simpl in Hsel. by rewrite Hsel.
Qed.

(** What [resolve] prints depends on [args] through the selection only. *)
Lemma resolve_same_selection a1 a2 err1 err2 s :
  same_selection a1 a2 →
  stdout (resolve a1 err1 s) = stdout (resolve a2 err2 s)
  ∧ emitted (resolve a1 err1 s) = emitted (resolve a2 err2 s)
  ∧ exit_status (resolve a1 err1 s) = exit_status (resolve a2 err2 s)
  ∧ (err1 = err2 → resolve a1 err1 s = resolve a2 err2 s).
Proof.
  intros Hsame. pose proof Hsame as (H4 & H6 & Hs & Hsel). unfold resolve.
  destruct (ifconf_len s) as [len|]; [|by repeat split; try intros ->].
  destruct (negb (malloc_ok s)); [by repeat split; try intros ->|].
  destruct (ifconf_table s) as [table|]; [|by repeat split; try intros ->].
  cbv zeta. rewrite H6, (ipv4_loop_same_selection a1 a2) by done.
  destruct (negb (ip_version_specified a2) || ipv6 a2);
    [|by repeat split; try intros ->].
  destruct (if_inet6 s) as [f|]; [|by repeat split; try intros ->].
  rewrite (ipv6_loop_same_selection a1 a2) by done.
  destruct (ipv6_loop a2 f _ _) as [out6 ok].
  by repeat split; try intros ->.
Qed.

(** *** Options *)

Lemma args_eq a1 a2 :
  ip_version_specified a1 = ip_version_specified a2 → ipv4 a1 = ipv4 a2 →
  ipv6 a1 = ipv6 a2 → include_loopback a1 = include_loopback a2 →
  include_link_local a1 = include_link_local a2 →
  interfaces_specified a1 = interfaces_specified a2 →
  list_interfaces a1 = list_interfaces a2 → interfaces a1 = interfaces a2 →
  num_interfaces a1 = num_interfaces a2 → a1 = a2.
Proof. destruct a1, a2. simpl. by intros -> -> -> -> -> -> -> -> ->. Qed.

Lemma bool_eq_iff (b1 b2 : bool) (P1 P2 : Prop) :
  (b1 = true ↔ P1) → (b2 = true ↔ P2) → (P1 ↔ P2) → b1 = b2.
Proof. destruct b1, b2; intuition congruence. Qed.

Lemma parse_flags_include fs : ∀ a0,
  let a := foldl (λ a o, snd (parse_opt (key_of o) [] a)) a0 fs in
  (include_loopback a = true
   ↔ include_loopback a0 = true ∨ FlagIncludeLoopback ∈ fs)
  ∧ (include_link_local a = true
     ↔ include_link_local a0 = true ∨ FlagIncludeLinkLocal ∈ fs).
Proof.
  induction fs as [|o fs IH]; intros a0; simpl.
  - split; (split; [auto | intros [?|H]; [done | by apply elem_of_nil in H]]).
  - specialize (IH (snd (parse_opt (key_of o) [] a0))). simpl in IH.
    destruct IH as (I1 & I2). rewrite I1, I2, !elem_of_cons.
    destruct o; simpl; intuition congruence.
Qed.

(** The options, whatever [args] held before, only depend on which options
    occur. *)
Lemma parse_flags_same_set fs1 fs2 a0 :
  (∀ o, o ∈ fs1 ↔ o ∈ fs2) →
  foldl (λ a o, snd (parse_opt (key_of o) [] a)) a0 fs1
  = foldl (λ a o, snd (parse_opt (key_of o) [] a)) a0 fs2.
Proof.
  intros Hset.
  destruct (parse_flags_spec fs1 a0) as (A4 & A6 & Av & Al & As & Ai & An).
  destruct (parse_flags_spec fs2 a0) as (B4 & B6 & Bv & Bl & Bs & Bi & Bn).
  destruct (parse_flags_include fs1 a0) as (Ab & Ak).
  destruct (parse_flags_include fs2 a0) as (Bb & Bk).
  simpl in *.
  apply args_eq; try congruence;
    (eapply bool_eq_iff; [eassumption | eassumption |]); rewrite !Hset; tauto.
Qed.

(** X6.  Options may be given in any order and any number of times: what
    [argp_parse] leaves in [args], and so the run, only depends on which
    options occur (and on the positional arguments). *)
Theorem options_order_does_not_matter (c1 c2 : cmdline) (a : args) :
  (∀ o, o ∈ flags c1 ↔ o ∈ flags c2) → names c1 = names c2 →
  argp_parse c1 a = argp_parse c2 a ∧ ∀ s, main c1 s = main c2 s.
Proof.
  intros Hset Hnames.
  assert (∀ a, argp_parse c1 a = argp_parse c2 a) as Heq.
  { intros a0. unfold argp_parse.
    by rewrite (parse_flags_same_set (flags c1) (flags c2) a0 Hset), Hnames. }
  split; [apply Heq|]. intros s. unfold main. by rewrite Heq.
Qed.

(** -6 -4 -6 eth0 and -4 -6 eth0. *)
Lemma options_order_does_not_matter_witness :
  argp_parse (Cmdline [Flag6; Flag4; Flag6] [chars "eth0"]) initial_args
  = argp_parse (Cmdline [Flag4; Flag6] [chars "eth0"]) initial_args
  ∧ ∀ s, main (Cmdline [Flag6; Flag4; Flag6] [chars "eth0"]) s
         = main (Cmdline [Flag4; Flag6] [chars "eth0"]) s.
Proof.
  apply (options_order_does_not_matter
           (Cmdline [Flag6; Flag4; Flag6] [chars "eth0"])
           (Cmdline [Flag4; Flag6] [chars "eth0"]) initial_args).
  - intros o. simpl. rewrite !elem_of_cons. tauto.
  - reflexivity.
Defined.

Lemma validated_Some a s a' err :
  validated a s = Some (a', err) →
  ip_version_specified a' = ip_version_specified a
  ∧ ipv4 a' = ipv4 a ∧ ipv6 a' = ipv6 a
  ∧ interfaces_specified a' = interfaces_specified a.
Proof.
  unfold validated. destruct (remove_bad_interfaces _ _ _); simpl; [|done].
  by intros [= <- <-].
Qed.

(** The validator reads the names and their number only. *)
Lemma validated_same_names a1 a2 s :
  interfaces a1 = interfaces a2 → num_interfaces a1 = num_interfaces a2 →
  match validated a1 s, validated a2 s with
  | Some (a1', err1), Some (a2', err2) =>
      interfaces a1' = interfaces a2' ∧ num_interfaces a1' = num_interfaces a2'
      ∧ err1 = err2
  | None, None => True
  | _, _ => False
  end.
Proof.
  intros Hi Hn. unfold validated. rewrite Hi, Hn.
  by destruct (remove_bad_interfaces _ _ _).
Qed.

(** X5.  -4 together with -6 asks for what the program prints without either:
    the run is the same as without the two options. *)
Theorem both_families_is_the_default (c : cmdline) (s : sys) :
  Flag4 ∈ flags c → Flag6 ∈ flags c → main c s = main (without_family c) s.
Proof.
  intros Hf4 Hf6.
  destruct (argp_parse_spec c) as (A4 & A6 & Av & Al & As & Ai & An).
  destruct (argp_parse_spec (without_family c)) as (B4 & B6 & Bv & Bl & Bs & Bi & Bn).
  simpl in *.
  set (a1 := argp_parse c initial_args) in *.
  set (a2 := argp_parse (without_family c) initial_args) in *.
  assert (∀ o, o ∈ filter (λ o, o ≠ Flag4 ∧ o ≠ Flag6) (flags c)
               ↔ o ∈ flags c ∧ o ≠ Flag4 ∧ o ≠ Flag6) as Hfilter.
  { intros o. rewrite list_elem_of_filter. tauto. }
  assert (list_interfaces a1 = list_interfaces a2) as El.
  { eapply bool_eq_iff; [exact Al | exact Bl |]. rewrite Hfilter.
    intuition congruence. }
  assert (interfaces_specified a1 = interfaces_specified a2) as Es
    by (eapply bool_eq_iff; [exact As | exact Bs | tauto]).
  assert (ip_version_specified a1 = true) as Ev1 by (apply Av; auto).
  assert (ipv4 a1 = true) as E41 by (by apply A4).
  assert (ipv6 a1 = true) as E61 by (by apply A6).
  assert (ip_version_specified a2 = false) as Ev2.
  { destruct (ip_version_specified a2); [|done].
    destruct (proj1 Bv eq_refl) as [H|H]; apply Hfilter in H; tauto. }
  unfold main. fold a1 a2.
  destruct (get_interfaces (proc_net_dev s)); [|done..].
  rewrite El. destruct (list_interfaces a2); [done|].
  rewrite !list_addresses_resolve.
  destruct (negb (access_proc_net s)); [done|].
  destruct (negb (access_if_inet6 s)); [done|].
  destruct (negb (socket_ok s)); [done|].
  pose proof (validated_same_names a1 a2 s) as Hval.
  pose proof (validated_Some a1 s) as Hv1. pose proof (validated_Some a2 s) as Hv2.
  destruct (validated a1 s) as [[a1' err1]|], (validated a2 s) as [[a2' err2]|];
    try (by destruct Hval; congruence).
  destruct Hval as (Hi' & Hn' & <-); [congruence | congruence |].
  destruct (Hv1 _ _ eq_refl) as (Hv1' & H41' & H61' & Hs1').
  destruct (Hv2 _ _ eq_refl) as (Hv2' & H42' & H62' & Hs2').
  apply resolve_same_selection; [|done].
  repeat split.
  - by rewrite Hv1', H41', Hv2', Ev1, E41, Ev2.
  - by rewrite Hv1', H61', Hv2', Ev1, E61, Ev2.
  - congruence.
  - intros name. unfold selected. by rewrite Hs1', Hs2', Es, Hi', Hn'.
Qed.

(** The sample host with -4 -6 and with no option. *)
Lemma both_families_is_the_default_witness :
  main (Cmdline [Flag4; Flag6] []) sample_sys = main (Cmdline [] []) sample_sys.
Proof.
  apply (both_families_is_the_default (Cmdline [Flag4; Flag6] []) sample_sys).
  - simpl. apply list_elem_of_here.
  - simpl. apply list_elem_of_further, list_elem_of_here.
Defined.

(** *** Positional names *)

Lemma probed_ok_elem ok names :
  (∀ i j name, ok i name = ok j name) →
  ∀ i n, n ∈ probed_ok ok i names ↔ n ∈ names ∧ ok 0%nat (strncpy n IFNAMSIZ) = true.
Proof.
  intros Hok. induction names as [|m names IH]; intros i n; simpl.
  - split; [by intros ?%elem_of_nil | by intros [?%elem_of_nil _]].
  - destruct (ok i (strncpy m IFNAMSIZ)) eqn:Hm; rewrite (Hok i 0%nat) in Hm.
    + rewrite !elem_of_cons, IH. split; [|tauto].
      intros [->|[? ?]]; auto.
    + rewrite elem_of_cons, IH. split; [tauto|].
      intros [[->|?] ?]; [congruence | done].
Qed.

Lemma matches_true valid name :
  matches valid name = true ↔ ∃ n, n ∈ valid ∧ strcmp name n = 0.
Proof.
  unfold matches. rewrite existsb_exists. split.
  - intros (n & Hn%list_elem_of_In & Hcmp%Z.eqb_eq). eauto.
  - intros (n & Hn%list_elem_of_In & Hcmp%Z.eqb_eq). eauto.
Qed.

Lemma matches_same_set valid1 valid2 name :
  (∀ n, n ∈ valid1 ↔ n ∈ valid2) → matches valid1 name = matches valid2 name.
Proof.
  intros Hset. eapply bool_eq_iff; [apply matches_true | apply matches_true |].
  split; intros (n & Hn & Hcmp); exists n; (split; [by apply Hset | done]).
Qed.

(** X7.  The positional names may be given in any order and any number of times:
    on a host whose answer to the probe of a name does not change during the
    run, the lines printed, the records behind them and the exit status
    only depend on which names occur.  (The diagnostics follow the order of
    the names.) *)
Theorem names_order_does_not_matter (c1 c2 : cmdline) (s : sys) :
  (∀ i j name, ifindex_ok s i name = ifindex_ok s j name) →
  flags c1 = flags c2 → (∀ n, n ∈ names c1 ↔ n ∈ names c2) →
  stdout (main c1 s) = stdout (main c2 s)
  ∧ emitted (main c1 s) = emitted (main c2 s)
  ∧ exit_status (main c1 s) = exit_status (main c2 s).
Proof.
  intros Hok Hflags Hset.
  destruct (argp_parse_spec c1) as (A4 & A6 & Av & Al & As & Ai & An).
  destruct (argp_parse_spec c2) as (B4 & B6 & Bv & Bl & Bs & Bi & Bn).
  simpl in *.
  set (a1 := argp_parse c1 initial_args) in *.
  set (a2 := argp_parse c2 initial_args) in *.
  rewrite Hflags in A4, A6, Av, Al.
  assert (ipv4 a1 = ipv4 a2) as E4 by (eapply bool_eq_iff; eauto).
  assert (ipv6 a1 = ipv6 a2) as E6 by (eapply bool_eq_iff; eauto).
  assert (ip_version_specified a1 = ip_version_specified a2) as Ev
    by (eapply bool_eq_iff; eauto).
  assert (list_interfaces a1 = list_interfaces a2) as El
    by (eapply bool_eq_iff; eauto).
  assert (interfaces_specified a1 = interfaces_specified a2) as Es.
  { eapply bool_eq_iff; [exact As | exact Bs |].
    destruct (names c1) as [|n1 l1], (names c2) as [|n2 l2]; try done.
    - exfalso. eapply elem_of_nil, Hset, list_elem_of_here.
    - exfalso. eapply elem_of_nil, Hset, list_elem_of_here. }
  unfold main. fold a1 a2.
  destruct (get_interfaces (proc_net_dev s)); [|done..].
  rewrite El. destruct (list_interfaces a2); [done|].
  rewrite !list_addresses_resolve.
  destruct (negb (access_proc_net s)); [done|].
  destruct (negb (access_if_inet6 s)); [done|].
  destruct (negb (socket_ok s)); [done|].
  destruct (validated_spec a1 s) as (a1' & err1 & -> & Hv1 & H41 & H61 & Hs1 & Ht1 & _);
    [rewrite Ai, An; lia|].
  destruct (validated_spec a2 s) as (a2' & err2 & -> & Hv2 & H42 & H62 & Hs2 & Ht2 & _);
    [rewrite Bi, Bn; lia|].
  rewrite Ai, An, firstn_all in Ht1. rewrite Bi, Bn, firstn_all in Ht2.
  destruct (resolve_same_selection a1' a2' err1 err2 s) as (? & ? & ? & _); [|done].
  repeat split; try congruence.
  intros name. unfold selected. rewrite !lfind_matches, Ht1, Ht2, Hs1, Hs2, Es.
  f_equal. apply matches_same_set. intros n.
  rewrite !probed_ok_elem by done. by rewrite Hset.
Qed.

(** The sample host asked for eth0 and lo, and for lo, eth0 and eth0. *)
Lemma names_order_does_not_matter_witness :
  stdout (main (Cmdline [] [chars "eth0"; chars "lo"]) sample_sys)
  = stdout (main (Cmdline [] [chars "lo"; chars "eth0"; chars "eth0"]) sample_sys)
  ∧ emitted (main (Cmdline [] [chars "eth0"; chars "lo"]) sample_sys)
    = emitted (main (Cmdline [] [chars "lo"; chars "eth0"; chars "eth0"]) sample_sys)
  ∧ exit_status (main (Cmdline [] [chars "eth0"; chars "lo"]) sample_sys)
    = exit_status (main (Cmdline [] [chars "lo"; chars "eth0"; chars "eth0"]) sample_sys).
Proof.
  apply (names_order_does_not_matter
           (Cmdline [] [chars "eth0"; chars "lo"])
           (Cmdline [] [chars "lo"; chars "eth0"; chars "eth0"]) sample_sys).
  - reflexivity.
  - reflexivity.
  - intros n. simpl. rewrite !elem_of_cons. tauto.
Defined.

(** *** What a run prints *)

Lemma wants_spec c :
  let a := argp_parse c initial_args in
  negb (ip_version_specified a) || ipv4 a = wants4 c
  ∧ negb (ip_version_specified a) || ipv6 a = wants6 c.
Proof.
  destruct (argp_parse_spec c) as (H4 & H6 & Hv & _). simpl in *.
  unfold wants4, wants6.
  destruct (ip_version_specified _), (ipv4 _), (ipv6 _);
    repeat case_bool_decide; simpl; intuition congruence.
Qed.

(** [args] after [argp_parse] and [remove_bad_interfaces]. *)
Lemma validated_main c s :
  ∃ a err, validated (argp_parse c initial_args) s = Some (a, err)
    ∧ negb (ip_version_specified a) || ipv4 a = wants4 c
    ∧ negb (ip_version_specified a) || ipv6 a = wants6 c
    ∧ (∀ name, selected a name = kept c s name)
    ∧ (interfaces_specified a = true ↔ names c ≠ [])
    ∧ err = could_not_open_interface <$> probed_bad (ifindex_ok s) 0 (names c).
Proof.
  destruct (argp_parse_spec c) as (_ & _ & _ & _ & Hspec & Hi & Hn).
  destruct (wants_spec c) as (W4 & W6). simpl in *.
  destruct (validated_spec (argp_parse c initial_args) s)
    as (a & err & Hval & Hav & Ha4 & Ha6 & Has & Htake & Herr);
    [rewrite Hi, Hn; lia|].
  rewrite Hi, Hn, firstn_all in Htake, Herr.
  exists a, err. rewrite Hav, Ha4, Ha6, Has. repeat split; try done.
  - intros name. unfold selected, kept. rewrite lfind_matches, Htake, Has.
    f_equal. destruct (interfaces_specified (argp_parse c initial_args)).
    + rewrite bool_decide_eq_false_2; [done|]. by apply Hspec.
    + rewrite bool_decide_eq_true_2; [done|].
      destruct (names c); [done|].
      assert (false = true) by (by apply Hspec). done.
  - by apply Hspec.
  - by apply Hspec.
Qed.

(** [main] outside list-only mode, once the listing was read. *)
Lemma main_address_mode c s arr num :
  get_interfaces (proc_net_dev s) = Listed arr num →
  FlagListInterfaces ∉ flags c →
  main c s = list_addresses (argp_parse c initial_args) s.
Proof.
  intros Hlist Hmode.
  destruct (argp_parse_spec c) as (_ & _ & _ & Hl & _). simpl in Hl.
  unfold main. rewrite Hlist.
  destruct (list_interfaces (argp_parse c initial_args)); [|done].
  destruct Hmode. by apply Hl.
Qed.

Lemma filter_selected_kept {A} a c s (f : A → list ascii) (l : list A) :
  (∀ name, selected a name = kept c s name) →
  filter (λ x, Is_true (selected a (f x))) l = filter (λ x, Is_true (kept c s (f x))) l.
Proof. intros Hsel. apply list_filter_iff. intros x. by rewrite Hsel. Qed.

(** X3.  The output of a run that lists addresses.  On a host where the calls
    before the loops succeed and the IPv6 table is made of well-formed lines
    with 32-character addresses, the run prints first, in table order, the
    dotted-decimal address of every entry of the IPv4 table that fits the
    buffer and passes the interface test (when IPv4 is wanted), then, in
    table order, the colon-separated address of every line of the IPv6
    table that passes the interface test (when IPv6 is wanted); standard
    error holds one diagnostic per name that failed the probe, and the exit
    status is 0. *)
Theorem address_mode_output (c : cmdline) (s : sys) (len : nat)
    (table : list ifreq) (ls : list (list ascii)) :
  FlagListInterfaces ∉ flags c →
  (∃ interfaces num, get_interfaces (proc_net_dev s) = Listed interfaces num) →
  access_proc_net s = true → access_if_inet6 s = true → socket_ok s = true →
  ifconf_len s = Some len → malloc_ok s = true → ifconf_table s = Some table →
  if_inet6 s = Some (table_of_lines ls) →
  Forall (λ l, full_address_line l = true) ls →
  emitted (main c s)
  = (if wants4 c
     then line4 <$> filter (λ e, Is_true (kept c s (ifr_name e)))
                      (take (len / sizeof_ifreq) table)
     else [])
    ++ (if wants6 c
        then line6 <$> filter (λ p, Is_true (kept c s p.2)) (omap six_fields ls)
        else [])
  ∧ stdout (main c s) = ar_address <$> emitted (main c s)
  ∧ stderr (main c s)
    = could_not_open_interface <$> probed_bad (ifindex_ok s) 0 (names c)
  ∧ exit_status (main c s) = Exited EXIT_SUCCESS.
Proof.
  intros Hmode (arr & num & Hlist) Hnet Hacc Hsock Hlen Hmalloc Htable Hopen Hls.
  rewrite (main_address_mode c s arr num Hlist Hmode), list_addresses_resolve.
  rewrite Hnet, Hacc, Hsock. simpl.
  destruct (validated_main c s) as (a & err & -> & W4 & W6 & Hsel & _ & Herr).
  unfold resolve. rewrite Hlen, Hmalloc, Htable. cbv zeta. simpl negb. cbv iota.
  rewrite ipv4_loop_filter, W4, W6, Hopen.
  rewrite (filter_selected_kept a c s ifr_name) by done.
  destruct (wants6 c).
  - rewrite ipv6_loop_full_lines by (done || apply length_resize).
    rewrite (filter_selected_kept a c s snd) by done. by rewrite Herr.
  - rewrite app_nil_r. by rewrite Herr.
Qed.

(** The sample host asked for eth0 and for a name it does not know. *)
Lemma address_mode_output_witness :
  let c := Cmdline [] [chars "nope"; chars "eth0"] in
  emitted (main c sample_sys)
  = [ AddressLine (chars "eth0") AF_INET (chars "192.168.1.10");
      AddressLine (chars "eth0") AF_INET6
        (chars "fe80:0000:0000:0000:0a00:27ff:fe4e:66a1");
      AddressLine (chars "eth0") AF_INET6
        (chars "2001:0db8:0000:0000:0000:0000:0000:0042") ]
  ∧ stdout (main c sample_sys) = ar_address <$> emitted (main c sample_sys)
  ∧ stderr (main c sample_sys) = [chars "could not open interface nope"]
  ∧ exit_status (main c sample_sys) = Exited EXIT_SUCCESS.
Proof.
  apply (address_mode_output (Cmdline [] [chars "nope"; chars "eth0"]) sample_sys
           80 sample_table sample_if_inet6_lines); try reflexivity.
  - simpl. apply not_elem_of_nil.
  - by apply sample_sys_lists_interfaces.
  - repeat constructor.
Defined.

(** ** Positional names that do not exist *)

(** On the rows of well-formed lines the loop body prints the record of
    every row whose name passes the interface test. *)
Lemma arrays_after_records a ls : ∀ ip ifc,
  Forall (λ l, table_line l = true) ls →
  arrays_after (omap six_fields ls) ip ifc
    ≫= (λ r, default [] (ipv6_body a r.1 r.2))
  = record6 <$> filter (λ r, Is_true (selected a (upto_nul r.2)))
                  (arrays_after (omap six_fields ls) ip ifc).
Proof.
  induction ls as [|l ls IH]; intros ip ifc Hls; [done|].
  inversion Hls as [|? ? Hl Hls']; subst. unfold table_line in Hl.
  destruct (six_fields l) as [[t1 t6]|] eqn:Hsix; [|done].
  apply andb_prop in Hl as [_ Hn]. rewrite forallb_app in Hn.
  apply andb_prop in Hn as [_ Hn6].
  simpl omap. rewrite Hsix. simpl arrays_after.
  change ((?r :: ?rows) ≫= ?g) with (g r ++ (rows ≫= g)).
  rewrite IH by done. cbn [fst snd].
  assert (cstr (stored t6 ifc) = Some t6) as Hcstr by by apply cstr_app_NUL.
  pose proof (cstr_upto_nul _ _ Hcstr) as Hname.
  unfold ipv6_body at 1. rewrite Hcstr. simpl mbind.
  destruct (interfaces_specified a) eqn:Hspec; simpl negb; cbv iota.
  - case_bool_decide as Hfind.
    + rewrite filter_cons_True.
      * simpl. unfold record6. simpl. by rewrite Hname.
      * apply Is_true_true. unfold selected. cbn [snd].
        rewrite Hspec, Hname. simpl. by apply bool_decide_eq_true_2.
    + rewrite filter_cons_False; [done|].
      apply Is_true_false. unfold selected. cbn [snd].
      rewrite Hspec, Hname. simpl. by apply bool_decide_eq_false_2.
  - rewrite filter_cons_True.
    + simpl. unfold record6. simpl. by rewrite Hname.
    + apply Is_true_true. unfold selected. by rewrite Hspec.
Qed.

Lemma ipv6_loop_records a ls ip ifc :
  Forall (λ l, table_line l = true) ls →
  length ip = ADDRSTRLEN → length ifc = IFNAMSIZ →
  ipv6_loop a (table_of_lines ls) ip ifc
  = (record6 <$> filter (λ r, Is_true (selected a (upto_nul r.2)))
                   (arrays_after (omap six_fields ls) ip ifc),
     true).
Proof.
  intros Hls Hip Hifc. unfold ipv6_loop.
  erewrite while_fscanf_rows; [ | | by apply arrays_after_defined].
  - by rewrite arrays_after_records.
  - apply table_rows_lines; [apply tokens_table_of_lines | done..].
Qed.

Lemma kept_names c s name :
  names c ≠ [] → kept c s name = matches (probed_ok (ifindex_ok s) 0 (names c)) name.
Proof. intros Hnames. unfold kept. by rewrite bool_decide_eq_false_2. Qed.

(** C7.  When positional interface names are given, on a host where no
    other call fails: one diagnostic goes to standard error per name whose
    probe fails, the run ends with exit code 0, and the addresses printed
    are those of the names whose probe succeeded, all of them and no
    others.  Every address line printed is for an interface that [strcmp]
    finds equal to one of these names, and nothing is printed when no name
    remains.  The records emitted are exactly: for each entry of the IPv4
    table that fits the buffer and whose name compares equal to one of
    these names, in table order, its dotted-decimal address (when IPv4 is
    wanted); then, for each row of the IPv6 table whose name compares equal
    to one of them, in table order, the address reconstructed from the
    array [ip] (when IPv6 is wanted), which for rows with 32-character
    addresses is the eight groups of the address joined by colons. *)
Theorem bad_names_are_dropped_with_a_diagnostic (c : cmdline) (s : sys) :
  names c ≠ [] → FlagListInterfaces ∉ flags c → no_fatal_error s →
  let valid := probed_ok (ifindex_ok s) 0 (names c) in
  let bad := probed_bad (ifindex_ok s) 0 (names c) in
  stderr (main c s) = could_not_open_interface <$> bad
  ∧ exit_status (main c s) = Exited 0
  ∧ stdout (main c s) = ar_address <$> emitted (main c s)
  ∧ (∀ r, r ∈ emitted (main c s) →
       ∃ n, n ∈ valid ∧ strcmp (ar_interface r) n = 0)
  ∧ (valid = [] → stdout (main c s) = [])
  ∧ (∀ len table ls,
       ifconf_len s = Some len → ifconf_table s = Some table →
       if_inet6 s = Some (table_of_lines ls) →
       Forall (λ l, table_line l = true) ls →
       emitted (main c s)
       = (if wants4 c
          then line4 <$> filter (λ e, Is_true (matches valid (ifr_name e)))
                           (take (len / sizeof_ifreq) table)
          else [])
         ++ (if wants6 c
             then record6
                    <$> filter (λ r, Is_true (matches valid (upto_nul r.2)))
                          (arrays_after (omap six_fields ls)
                             (resize ADDRSTRLEN NUL (stack_ip s))
                             (resize IFNAMSIZ NUL (stack_ifc s)))
             else []))
  ∧ (∀ len table ls,
       ifconf_len s = Some len → ifconf_table s = Some table →
       if_inet6 s = Some (table_of_lines ls) →
       Forall (λ l, full_address_line l = true) ls →
       emitted (main c s)
       = (if wants4 c
          then line4 <$> filter (λ e, Is_true (matches valid (ifr_name e)))
                           (take (len / sizeof_ifreq) table)
          else [])
         ++ (if wants6 c
             then line6 <$> filter (λ p, Is_true (matches valid p.2))
                              (omap six_fields ls)
             else [])).
Proof.
  intros Hnames Hmode Hs valid bad. subst valid bad.
  destruct (main_no_fatal_error c s Hs Hmode)
    as (a & err & len0 & table0 & f0 & Hval & Hlen0 & Htable0 & Hf0 & Hmain).
  destruct (argp_parse_spec c) as (_ & _ & _ & _ & Hspec & Hi & Hn). simpl in *.
  destruct (validated_spec (argp_parse c initial_args) s)
    as (a' & err' & Hval' & _ & _ & _ & Hspec' & Htake & Herr);
    [rewrite Hi, Hn; lia|].
  rewrite Hval in Hval'. injection Hval' as <- <-.
  destruct (validated_main c s) as (a' & err' & Hval' & W4 & W6 & Hsel & _ & _).
  rewrite Hval in Hval'. injection Hval' as <- <-.
  rewrite Hi, Hn, firstn_all in Htake, Herr.
  pose proof Hnames as Hnames'. apply Hspec in Hnames. rewrite Hnames in Hspec'.
  assert (∀ name, selected a name
                  = matches (probed_ok (ifindex_ok s) 0 (names c)) name) as Hsel'
    by (intros name; by rewrite Hsel, kept_names).
  assert (∀ r, r ∈ emitted (main c s) →
            ∃ n, n ∈ probed_ok (ifindex_ok s) 0 (names c)
                 ∧ strcmp (ar_interface r) n = 0) as Honly.
  { intros r. rewrite Hmain. simpl. rewrite elem_of_app. intros [Hr|Hr].
    - pose proof (ipv4_loop_lines a (take (len0 / sizeof_ifreq) table0)) as H4.
      rewrite Forall_forall in H4. destruct (H4 r Hr) as (_ & _ & _ & Hfind).
      destruct (lfind_Some _ _ _ (Hfind Hspec')) as (n & Hn' & Hcmp).
      exists n. split; [by rewrite <- Htake | done].
    - destruct (negb (ip_version_specified a) || ipv6 a); [|by apply elem_of_nil in Hr].
      pose proof (ipv6_loop_lines a f0 (resize ADDRSTRLEN NUL (stack_ip s))
                    (resize IFNAMSIZ NUL (stack_ifc s))) as H6.
      rewrite Forall_forall in H6. destruct (H6 r Hr) as (_ & _ & Hfind).
      destruct (lfind_Some _ _ _ (Hfind Hspec')) as (n & Hn' & Hcmp).
      exists n. split; [by rewrite <- Htake | done]. }
  assert (∀ len table, ifconf_len s = Some len → ifconf_table s = Some table →
            ipv4_loop a (take (len0 / sizeof_ifreq) table0)
            = if wants4 c
              then line4 <$> filter (λ e, Is_true (matches
                                (probed_ok (ifindex_ok s) 0 (names c)) (ifr_name e)))
                               (take (len / sizeof_ifreq) table)
              else []) as Hout4.
  { intros len table Hlen Htable.
    rewrite Hlen0 in Hlen. injection Hlen as <-.
    rewrite Htable0 in Htable. injection Htable as <-.
    rewrite ipv4_loop_filter, W4. destruct (wants4 c); [|done].
    f_equal. apply list_filter_iff. intros e. by rewrite Hsel'. }
  rewrite Hmain in *. simpl in *.
  split; [done|]. split; [done|]. split; [done|]. split; [done|].
  split; [|split].
  - intros Hvalid. rewrite Hvalid in Honly.
    destruct (_ ++ _) as [|r out]; [done|].
    destruct (Honly r (list_elem_of_here _ _)) as (n & Hn' & _).
    by apply elem_of_nil in Hn'.
  - intros len table ls Hlen Htable Hf Hls.
    rewrite (Hout4 len table Hlen Htable), W6. f_equal.
    destruct (wants6 c); [|done].
    rewrite Hf0 in Hf. injection Hf as ->.
    rewrite ipv6_loop_records by (done || apply length_resize). simpl.
    f_equal. apply list_filter_iff. intros r. by rewrite Hsel'.
  - intros len table ls Hlen Htable Hf Hls.
    rewrite (Hout4 len table Hlen Htable), W6. f_equal.
    destruct (wants6 c); [|done].
    rewrite Hf0 in Hf. injection Hf as ->.
    rewrite ipv6_loop_full_lines by (done || apply length_resize). simpl.
    f_equal. apply list_filter_iff. intros p. by rewrite Hsel'.
Qed.

(** The sample host, asked for eth0 and for a name it does not know: the
    three addresses of eth0 are printed, those of lo are not; asked for the
    unknown name alone it prints nothing and exits 0. *)
Lemma bad_names_are_dropped_with_a_diagnostic_witness :
  stderr (main (Cmdline [] [chars "eth0"; chars "nope"]) sample_sys)
  = [chars "could not open interface nope"]
  ∧ exit_status (main (Cmdline [] [chars "eth0"; chars "nope"]) sample_sys)
    = Exited 0
  ∧ stdout (main (Cmdline [] [chars "eth0"; chars "nope"]) sample_sys)
    = ar_address
        <$> emitted (main (Cmdline [] [chars "eth0"; chars "nope"]) sample_sys)
  ∧ emitted (main (Cmdline [] [chars "eth0"; chars "nope"]) sample_sys)
    = [ AddressLine (chars "eth0") AF_INET (chars "192.168.1.10");
        AddressLine (chars "eth0") AF_INET6
          (chars "fe80:0000:0000:0000:0a00:27ff:fe4e:66a1");
        AddressLine (chars "eth0") AF_INET6
          (chars "2001:0db8:0000:0000:0000:0000:0000:0042") ]
  ∧ stdout (main (Cmdline [] [chars "nope"]) sample_sys) = []
  ∧ exit_status (main (Cmdline [] [chars "nope"]) sample_sys) = Exited 0.
Proof.
  assert (no_fatal_error sample_sys) as Hs.
  { repeat split; try reflexivity.
    - by exists [Some (chars "lo"); Some (chars "eth0")], 2%nat.
    - by eexists.
    - by eexists.
    - exists sample_if_inet6_lines. split; [reflexivity | repeat constructor]. }
  destruct (bad_names_are_dropped_with_a_diagnostic
              (Cmdline [] [chars "eth0"; chars "nope"]) sample_sys)
    as (Herr & Hexit & Hout & _ & _ & _ & Hexact);
    [discriminate | simpl; apply not_elem_of_nil | exact Hs |].
  destruct (bad_names_are_dropped_with_a_diagnostic
              (Cmdline [] [chars "nope"]) sample_sys)
    as (_ & Hexit' & _ & _ & Hnone & _);
    [discriminate | simpl; apply not_elem_of_nil | exact Hs |].
  split; [exact Herr|]. split; [exact Hexit|]. split; [exact Hout|].
  split; [|split; [by apply Hnone | exact Hexit']].
  apply (Hexact 80%nat sample_table sample_if_inet6_lines);
    [reflexivity | reflexivity | reflexivity | repeat constructor].
Defined.

(** *** The interface lister on any file *)

Lemma count_lines_add f : ∀ num, count_lines f num = (num + count_lines f 0)%nat.
Proof.
  remember (length f) as n eqn:Hn. revert f Hn.
  induction n as [n IH] using lt_wf_ind. intros f -> num.
  rewrite (count_lines_step f num), (count_lines_step f 0).
  destruct (getline f) as [[line f']|] eqn:Hg; [|lia].
  apply getline_shorter in Hg.
  rewrite (IH (length f') Hg f' eq_refl (S num)), (IH (length f') Hg f' eq_refl 1%nat).
  lia.
Qed.

(** The header is skipped when the file has as many lines. *)
Lemma skip_header_count f :
  skip_header PROC_NET_DEV_HEADER_LINES f = None
  ↔ (count_lines f 0 < PROC_NET_DEV_HEADER_LINES)%nat.
Proof.
  unfold PROC_NET_DEV_HEADER_LINES. simpl. rewrite (count_lines_step f).
  destruct (getline f) as [[l1 f1]|]; [|split; [lia | done]].
  rewrite (count_lines_step f1).
  destruct (getline f1) as [[l2 f2]|]; [|split; [lia | done]].
  rewrite count_lines_add. split; [done | lia].
Qed.

Lemma upto_nul_Forall b : Forall (λ c, c ≠ NUL) (upto_nul b).
Proof.
  induction b as [|c b IH]; simpl; [constructor|].
  destruct (Ascii.eqb c NUL) eqn:Hc; constructor; [|done].
  by apply Ascii.eqb_neq.
Qed.

Lemma skip_space_Forall (P : ascii → Prop) f : Forall P f → Forall P (skip_space f).
Proof.
  induction f as [|c f IH]; simpl; [done|].
  intros Hf. destruct (isspace c); [|done]. inversion Hf; auto.
Qed.

Lemma span_nonspace_Forall (P : ascii → Prop) f :
  Forall P f → Forall (λ c, isspace c = false ∧ P c) (span_nonspace f).1.
Proof.
  induction f as [|c f IH]; simpl; [constructor|].
  intros Hf. inversion Hf as [|? ? Hc Hf']; subst.
  destruct (isspace c) eqn:Hsp; [constructor|].
  specialize (IH Hf'). destruct (span_nonspace f) as [t r]. simpl in *. by constructor.
Qed.

(** The token [sscanf] allocates holds no white space and no NUL. *)
Lemma sscanf_ms_token line tok :
  sscanf_ms line = Some tok → Forall (λ c, isspace c = false ∧ c ≠ NUL) tok.
Proof.
  unfold sscanf_ms, scan_s.
  pose proof (skip_space_Forall _ _ (upto_nul_Forall line)) as Hf.
  destruct (skip_space (upto_nul line)) as [|c g]; [done|].
  intros [= <-]. exact (span_nonspace_Forall _ (c :: g) Hf).
Qed.

(** When the count is the number of lines of the stream, the parsing loop
    assigns every slot. *)
Lemma parse_lines_fills n : ∀ f pre arr',
  count_lines f 0 = n →
  parse_lines n (length pre) f (pre ++ replicate n None) = Some arr' →
  ∃ names, arr' = pre ++ (Some <$> names) ∧ length names = n
    ∧ Forall (λ name, (COLON ∉ name)
                      ∧ Forall (λ ch, isspace ch = false ∧ ch ≠ NUL) name) names.
Proof.
  induction n as [|n IH]; intros f pre arr' Hcount.
  - simpl. intros [= <-]. exists []. by repeat split.
  - rewrite count_lines_step in Hcount.
    destruct (getline f) as [[line f']|] eqn:Hg; [|done].
    rewrite count_lines_add in Hcount.
    assert (count_lines f' 0 = n) as Hcount' by lia.
    simpl parse_lines. rewrite Hg.
    destruct (sscanf_ms line) as [tok|] eqn:Htok; [|done].
    destruct (index tok COLON) as [k|] eqn:Hk; [|done].
    rewrite insert_app_r_alt by lia. rewrite Nat.sub_diag. simpl.
    intros Hparse.
    specialize (IH f' (pre ++ [Some (take k tok)]) arr' Hcount').
    rewrite length_app, Nat.add_1_r, <- app_assoc in IH.
    destruct (IH Hparse) as (names & -> & Hlen & Hnames).
    exists (take k tok :: names).
    split; [by rewrite <- app_assoc|]. split; [simpl; by rewrite Hlen|].
    constructor; [|done]. split; [by apply index_take_no_colon|].
    apply Forall_take. by eapply sscanf_ms_token.
Qed.

(** X8.  A file that cannot be opened, or that has fewer lines than the header,
    is fatal to every run, list-only mode included: one message, exit code
    1, nothing on standard output.  No other file is fatal to the lister. *)
Theorem listing_failure_is_fatal (c : cmdline) (s : sys) :
  (proc_net_dev s = None →
   main c s = Run [] [could_not_open_dev] (Exited EXIT_FAILURE) [])
  ∧ (∀ f, proc_net_dev s = Some f →
       (count_lines f 0 < PROC_NET_DEV_HEADER_LINES)%nat →
       main c s = Run [] [could_not_parse_dev] (Exited EXIT_FAILURE) [])
  ∧ (∀ f m, get_interfaces (Some f) = ListerFatal m →
       (count_lines f 0 < PROC_NET_DEV_HEADER_LINES)%nat).
Proof.
  split; [|split].
  - intros Hdev. unfold main. by rewrite Hdev.
  - intros f Hdev Hcount%skip_header_count. unfold main, get_interfaces.
    by rewrite Hdev, Hcount.
  - intros f m. unfold get_interfaces.
    destruct (skip_header _ f) as [body|] eqn:Hskip;
      [|intros _; by apply skip_header_count].
    by destruct (parse_lines _ _ _ _).
Qed.

(** The sample host without its listing, and with only the first header
    line. *)
Lemma listing_failure_is_fatal_witness :
  main (Cmdline [FlagListInterfaces] []) (with_proc_net_dev None sample_sys)
  = Run [] [could_not_open_dev] (Exited EXIT_FAILURE) []
  ∧ main (Cmdline [Flag4] [])
         (with_proc_net_dev (Some (table_of_lines [sample_header1])) sample_sys)
    = Run [] [could_not_parse_dev] (Exited EXIT_FAILURE) [].
Proof.
  split.
  - by apply (listing_failure_is_fatal (Cmdline [FlagListInterfaces] [])
                (with_proc_net_dev None sample_sys)).
  - eapply (listing_failure_is_fatal (Cmdline [Flag4] [])
              (with_proc_net_dev (Some (table_of_lines [sample_header1])) sample_sys));
      [reflexivity | vm_compute; lia].
Defined.

(** What the lister returns: every slot of the array holds a name, and the
    loop of list-only mode prints them all. *)
Lemma get_interfaces_Listed text arr num :
  get_interfaces text = Listed arr num →
  ∃ names body,
    arr = Some <$> names ∧ length names = num
    ∧ text ≫= skip_header PROC_NET_DEV_HEADER_LINES = Some body
    ∧ num = count_lines body 0
    ∧ Forall (λ name, (COLON ∉ name)
                      ∧ Forall (λ ch, isspace ch = false ∧ ch ≠ NUL) name) names
    ∧ print_interfaces num 0 arr = Some names.
Proof.
  unfold get_interfaces. destruct text as [f|]; [|done].
  destruct (skip_header PROC_NET_DEV_HEADER_LINES f) as [body|] eqn:Hskip; [|done].
  destruct (parse_lines _ _ _ _) as [arr'|] eqn:Hparse; [|done].
  intros [= <- <-].
  destruct (parse_lines_fills (count_lines body 0) body [] arr' eq_refl Hparse)
    as (names & -> & Hlen & Hnames).
  exists names, body. repeat split; try done.
  pose proof (print_interfaces_Some names []) as Hprint. simpl in Hprint.
  simpl app. by rewrite <- Hlen, Hprint.
Qed.

(** X9.  Whenever the lister returns, the array holds one name per line after
    the header, none of them NULL: each holds no colon, no white space and
    no NUL, and list-only mode prints them all and exits 0. *)
Theorem listed_names_are_complete (text : option (list ascii))
    (arr : list (option (list ascii))) (num : nat) :
  get_interfaces text = Listed arr num →
  ∃ names body,
    arr = Some <$> names ∧ length names = num
    ∧ text ≫= skip_header PROC_NET_DEV_HEADER_LINES = Some body
    ∧ num = count_lines body 0
    ∧ Forall (λ name, (COLON ∉ name)
                      ∧ Forall (λ ch, isspace ch = false ∧ ch ≠ NUL) name) names
    ∧ ∀ c s, proc_net_dev s = text → FlagListInterfaces ∈ flags c →
        main c s = Run names [] (Exited EXIT_SUCCESS) [].
Proof.
  intros Hlist.
  destruct (get_interfaces_Listed text arr num Hlist)
    as (names & body & Harr & Hlen & Hskip & Hnum & Hnames & Hprint).
  exists names, body. repeat split; try done.
  intros c s Hdev Hflag.
  destruct (argp_parse_spec c) as (_ & _ & _ & Hl & _). simpl in Hl.
  apply Hl in Hflag. unfold main. by rewrite Hdev, Hlist, Hflag, Hprint.
Qed.

(** The listing of the sample host. *)
Lemma listed_names_are_complete_witness :
  ∃ names body,
    [Some (chars "lo"); Some (chars "eth0")] = Some <$> names ∧ length names = 2%nat
    ∧ Some sample_dev ≫= skip_header PROC_NET_DEV_HEADER_LINES = Some body
    ∧ 2%nat = count_lines body 0
    ∧ Forall (λ name, (COLON ∉ name)
                      ∧ Forall (λ ch, isspace ch = false ∧ ch ≠ NUL) name) names
    ∧ ∀ c s, proc_net_dev s = Some sample_dev → FlagListInterfaces ∈ flags c →
        main c s = Run names [] (Exited EXIT_SUCCESS) [].
Proof.
  apply (listed_names_are_complete (Some sample_dev)
           [Some (chars "lo"); Some (chars "eth0")] 2).
  reflexivity.
Defined.

(** X10.  A line of text after the header that is blank, or whose first
    token has no colon, is not skipped: whatever the command line, the run
    has undefined behaviour (a write through a NULL pointer) before anything
    is printed, and the lines after it are never looked at. *)
Theorem malformed_listing_line_is_undefined (c : cmdline) (s : sys)
    (header1 header2 : list ascii) (before : list (list ascii))
    (bad : list ascii) (rest : list (list ascii)) :
  proc_net_dev s
  = Some (table_of_lines (header1 :: header2 :: before ++ bad :: rest)) →
  text_line header1 = true → text_line header2 = true →
  Forall (λ l, data_line l = true) before →
  text_line bad = true → data_line bad = false →
  Forall (λ l, text_line l = true) rest →
  main c s = Run [] [] Undefined [].
Proof.
  intros Hdev H1 H2 Hbefore Htext Hbad Hrest. unfold main. rewrite Hdev.
  by rewrite (get_interfaces_crashes_on_bad_line header1 header2 before bad rest).
Qed.

(** The sample listing with an empty line between lo and eth0. *)
Lemma malformed_listing_line_is_undefined_witness :
  main (Cmdline [FlagListInterfaces] [])
       (with_proc_net_dev
          (Some (table_of_lines
                   (sample_header1 :: sample_header2
                    :: [chars "    lo: 1500 10 0 0 1500 10 0 0"]
                    ++ [] :: [chars "  eth0:9000000 70 0 0 8000 60 0 0"])))
          sample_sys)
  = Run [] [] Undefined [].
Proof.
  apply (malformed_listing_line_is_undefined (Cmdline [FlagListInterfaces] []) _
           sample_header1 sample_header2
           [chars "    lo: 1500 10 0 0 1500 10 0 0"] []
           [chars "  eth0:9000000 70 0 0 8000 60 0 0"]);
    try reflexivity; repeat constructor.
Defined.

(** *** A listing without final newline *)

Lemma getline_last_line l :
  text_line l = true → l ≠ [] → getline l = Some (l, []).
Proof.
  unfold text_line. induction l as [|c l IH]; [done|]. simpl.
  intros [[Hc _]%andb_prop Hl]%andb_prop _.
  apply negb_true_iff in Hc. rewrite Hc.
  destruct l as [|d l]; [done|]. by rewrite IH.
Qed.

Lemma upto_nul_no_NUL l :
  forallb (λ c, negb (Ascii.eqb c NUL)) l = true → upto_nul l = l.
Proof.
  induction l as [|c l IH]; simpl; [done|].
  intros [Hc Hl]%andb_prop. apply negb_true_iff in Hc. by rewrite Hc, IH.
Qed.

Lemma sscanf_ms_head line : sscanf_ms line = head (tokens (upto_nul line)).
Proof.
  unfold sscanf_ms. pose proof (scan_s_tokens (upto_nul line)) as H.
  destruct (scan_s (upto_nul line)) as [[t r]|]; rewrite H; done.
Qed.

(** [sscanf] reads the same token off a line with and without its newline. *)
Lemma sscanf_ms_newline l :
  text_line l = true → sscanf_ms l = sscanf_ms (l ++ [LF]).
Proof.
  intros Hl. rewrite !sscanf_ms_head, upto_nul_text_line by done.
  rewrite upto_nul_no_NUL.
  - rewrite tokens_app_space by done. by rewrite app_nil_r.
  - unfold text_line in Hl. rewrite forallb_forall in Hl |- *.
    intros c Hc. by destruct (andb_prop _ _ (Hl c Hc)).
Qed.

Lemma table_of_lines_cons l ls rest :
  table_of_lines (l :: ls) ++ rest = l ++ LF :: (table_of_lines ls ++ rest).
Proof.
  unfold table_of_lines. rewrite fmap_cons, concat_cons, <- !app_assoc. done.
Qed.

Lemma count_lines_last_line l ls : ∀ num,
  Forall (λ l, text_line l = true) ls → text_line l = true → l ≠ [] →
  count_lines (table_of_lines ls ++ l) num
  = count_lines (table_of_lines ls ++ l ++ [LF]) num.
Proof.
  induction ls as [|l0 ls IH]; intros num Hls Hl Hne.
  - simpl. rewrite (count_lines_step l), (count_lines_step (l ++ [LF])).
    by rewrite getline_last_line, getline_text_line.
  - inversion Hls as [|? ? Hl0 Hls']; subst.
    rewrite !table_of_lines_cons.
    rewrite (count_lines_step (l0 ++ _)), (count_lines_step (l0 ++ LF :: _ ++ _ ++ _)).
    rewrite !getline_text_line by done. by apply IH.
Qed.

Lemma parse_lines_last_line l ls : ∀ n i arr,
  Forall (λ l, text_line l = true) ls → text_line l = true → l ≠ [] →
  parse_lines n i (table_of_lines ls ++ l) arr
  = parse_lines n i (table_of_lines ls ++ l ++ [LF]) arr.
Proof.
  induction ls as [|l0 ls IH]; intros n i arr Hls Hl Hne.
  - destruct n as [|n]; [done|]. simpl.
    rewrite getline_last_line, getline_text_line by done.
    rewrite <- sscanf_ms_newline by done.
    destruct (sscanf_ms l) as [tok|]; [|done].
    destruct (index tok COLON); [|done]. by destruct n.
  - inversion Hls as [|? ? Hl0 Hls']; subst.
    rewrite !table_of_lines_cons. destruct n as [|n]; [done|]. simpl.
    rewrite !getline_text_line by done.
    destruct (sscanf_ms (l0 ++ [LF])) as [tok|]; [|done].
    destruct (index tok COLON); [|done]. by apply IH.
Qed.

(** X11.  The lister does not depend on the newline at the end of the file: a
    listing whose last line is not ended by a newline gives the same result
    (names, fatal error or crash) as the listing with the newline added. *)
Theorem listing_without_final_newline (ls : list (list ascii)) (l : list ascii) :
  Forall (λ l, text_line l = true) ls → text_line l = true → l ≠ [] →
  get_interfaces (Some (table_of_lines ls ++ l))
  = get_interfaces (Some (table_of_lines (ls ++ [l]))).
Proof.
  intros Hls Hl Hne.
  assert (table_of_lines (ls ++ [l]) = table_of_lines ls ++ l ++ [LF]) as ->.
  { unfold table_of_lines. rewrite fmap_app, concat_app. simpl.
    by rewrite app_nil_r. }
  unfold get_interfaces, PROC_NET_DEV_HEADER_LINES.
  destruct ls as [|h1 [|h2 data]].
  - simpl. by rewrite getline_last_line, getline_text_line.
  - inversion Hls as [|? ? H1 _]; subst.
    rewrite !table_of_lines_cons. simpl skip_header.
    rewrite !getline_text_line by done. by rewrite getline_last_line.
  - inversion Hls as [|? ? H1 Hls1]; subst.
    inversion Hls1 as [|? ? H2 Hdata]; subst.
    rewrite !table_of_lines_cons. simpl skip_header.
    rewrite !getline_text_line by done.
    rewrite <- count_lines_last_line by done.
    by rewrite <- parse_lines_last_line by done.
Qed.

(** The sample listing cut after the last counter of eth0. *)
Lemma listing_without_final_newline_witness :
  get_interfaces
    (Some (table_of_lines [sample_header1; sample_header2;
                           chars "    lo: 1500 10 0 0 1500 10 0 0"]
           ++ chars "  eth0:9000000 70 0 0 8000 60 0 0"))
  = get_interfaces (Some sample_dev).
Proof.
  apply (listing_without_final_newline
           [sample_header1; sample_header2; chars "    lo: 1500 10 0 0 1500 10 0 0"]
           (chars "  eth0:9000000 70 0 0 8000 60 0 0")).
  - repeat constructor.
  - reflexivity.
  - discriminate.
Defined.

(** *** The validator: diagnostics and return value *)

Lemma probed_partition ok names : ∀ i,
  probed_ok ok i names ++ probed_bad ok i names ≡ₚ names.
Proof.
  induction names as [|n names IH]; intros i; simpl; [done|].
  destruct (ok i (strncpy n IFNAMSIZ)); simpl.
  - by rewrite IH.
  - by rewrite <- Permutation_middle, IH.
Qed.

Lemma remove_bad_loop_return ok n : ∀ in_ix out_ix arr err errno,
  (out_ix ≤ in_ix)%nat → (in_ix + n ≤ length arr)%nat →
  ∃ rm, remove_bad_loop ok n in_ix out_ix arr err errno = Some rm
    ∧ rm_return rm
      = if errno
           || negb (bool_decide (probed_bad ok in_ix (take n (drop in_ix arr)) = []))
        then -1 else 0.
Proof.
  induction n as [|n IH]; intros in_ix out_ix arr err errno Hle Hlen.
  - eexists. split; [reflexivity|]. simpl. by destruct errno.
  - destruct (lookup_lt_is_Some_2 arr in_ix) as [name Hname]; [lia|].
    simpl. rewrite Hname. rewrite (drop_S _ _ _ Hname). simpl.
    destruct (ok in_ix (strncpy name IFNAMSIZ)) eqn:Hok.
    + destruct (IH (S in_ix) (S out_ix) (<[out_ix:=name]> arr) err errno)
        as (rm & Hrm & Hret); [lia | rewrite length_insert; lia |].
      exists rm. split; [exact Hrm|].
      by rewrite drop_insert_lt in Hret by lia.
    + destruct (IH (S in_ix) out_ix arr
                  (err ++ [could_not_open_interface name]) true)
        as (rm & Hrm & Hret); [lia | lia |].
      exists rm. split; [exact Hrm|]. rewrite Hret. simpl.
      by rewrite orb_true_r.
Qed.

(** X13.  What [remove_bad_interfaces] reports: one line on standard error per
    name whose probe failed, in order; the return value -1 when there is
    such a name and 0 when there is none; the names kept and the names
    reported are, together, the names given. *)
Theorem remove_bad_interfaces_reports
    (ok : nat → list ascii → bool) (arr : list (list ascii)) (num : nat) :
  (num ≤ length arr)%nat →
  let bad := probed_bad ok 0 (take num arr) in
  ∃ rm, remove_bad_interfaces ok arr num = Some rm
    ∧ rm_stderr rm = could_not_open_interface <$> bad
    ∧ rm_return rm = (if bool_decide (bad = []) then 0 else -1)
    ∧ (rm_num_interfaces rm + length bad = num)%nat
    ∧ take (rm_num_interfaces rm) (rm_interfaces rm) ++ bad ≡ₚ take num arr.
Proof.
  intros Hnum bad. subst bad. unfold remove_bad_interfaces.
  destruct (remove_bad_loop_spec ok num 0 0 arr [] false)
    as (rm & Hrm & Htake & Hn & _ & Herr); [lia | lia |].
  destruct (remove_bad_loop_return ok num 0 0 arr [] false)
    as (rm' & Hrm' & Hret); [lia | lia |].
  rewrite Hrm in Hrm'. injection Hrm' as <-.
  rewrite drop_0 in Htake, Hn, Herr, Hret. simpl in *.
  exists rm. split; [done|]. split; [done|].
  pose proof (probed_partition ok (take num arr) 0) as Hperm.
  split; [|split].
  - rewrite Hret. by destruct (bool_decide _).
  - rewrite Hn, <- length_app, Hperm, length_take. lia.
  - by rewrite Htake.
Qed.

(** Four names, two of which the sample host knows. *)
Lemma remove_bad_interfaces_reports_witness :
  ∃ rm, remove_bad_interfaces (λ _ name, bool_decide (upto_nul name ∈ known_names))
          [chars "nope"; chars "eth0"; chars "wlan7"; chars "lo"] 4 = Some rm
    ∧ rm_stderr rm = [chars "could not open interface nope";
                      chars "could not open interface wlan7"]
    ∧ rm_return rm = -1
    ∧ (rm_num_interfaces rm + 2 = 4)%nat
    ∧ take (rm_num_interfaces rm) (rm_interfaces rm) ++ [chars "nope"; chars "wlan7"]
      ≡ₚ [chars "nope"; chars "eth0"; chars "wlan7"; chars "lo"].
Proof.
  pose proof (remove_bad_interfaces_reports
                (λ _ name, bool_decide (upto_nul name ∈ known_names))
                [chars "nope"; chars "eth0"; chars "wlan7"; chars "lo"] 4) as H.
  vm_compute in H |- *. apply H. lia.
Defined.

(** *** The validator run twice *)

Lemma probed_ok_length ok names : ∀ i,
  (length (probed_ok ok i names) ≤ length names)%nat.
Proof.
  induction names as [|n names IH]; intros i; simpl; [lia|].
  destruct (ok i (strncpy n IFNAMSIZ)); simpl; specialize (IH (S i)); lia.
Qed.

(** When every probe succeeds the array is left as it is. *)
Lemma remove_bad_loop_all_ok ok n : ∀ i arr err errno,
  (i + n ≤ length arr)%nat →
  Forall (λ name, ∀ j, ok j (strncpy name IFNAMSIZ) = true) (take n (drop i arr)) →
  remove_bad_loop ok n i i arr err errno
  = Some (Removed arr (i + n) err (if errno then -1 else 0)).
Proof.
  induction n as [|n IH]; intros i arr err errno Hlen Hall.
  - simpl. by rewrite Nat.add_0_r.
  - destruct (lookup_lt_is_Some_2 arr i) as [name Hname]; [lia|].
    rewrite (drop_S _ _ _ Hname) in Hall. simpl in Hall.
    inversion Hall as [|? ? Hok Hall']; subst.
    simpl. rewrite Hname, Hok, (list_insert_id _ _ _ Hname).
    rewrite IH by (done || lia). do 2 f_equal. lia.
Qed.

(** X14.  [remove_bad_interfaces] is idempotent: on a host whose answer to the
    probe of a name does not change, a second call on the array and the
    count that the first call left keeps both as they are, writes nothing
    to standard error and returns 0. *)
Theorem remove_bad_interfaces_idempotent
    (ok : nat → list ascii → bool) (arr : list (list ascii)) (num : nat) :
  (∀ i j name, ok i name = ok j name) → (num ≤ length arr)%nat →
  ∃ rm, remove_bad_interfaces ok arr num = Some rm
    ∧ remove_bad_interfaces ok (rm_interfaces rm) (rm_num_interfaces rm)
      = Some (Removed (rm_interfaces rm) (rm_num_interfaces rm) [] 0).
Proof.
  intros Hok Hnum. unfold remove_bad_interfaces.
  destruct (remove_bad_loop_spec ok num 0 0 arr [] false)
    as (rm & Hrm & Htake & Hn & Hlen & _); [lia | lia |].
  rewrite drop_0 in Htake, Hn. simpl in *.
  exists rm. split; [done|].
  pose proof (probed_ok_length ok (take num arr) 0) as Hle.
  rewrite length_take in Hle.
  rewrite (remove_bad_loop_all_ok ok (rm_num_interfaces rm) 0 (rm_interfaces rm) [] false);
    [done | lia |].
  rewrite drop_0, Htake. apply Forall_forall. intros name Hname j.
  apply (probed_ok_elem ok _ Hok) in Hname as [_ Hname]. by rewrite (Hok j 0%nat).
Qed.

(** Four names, two of which the sample host knows, validated twice. *)
Lemma remove_bad_interfaces_idempotent_witness :
  ∃ rm, remove_bad_interfaces (λ _ name, bool_decide (upto_nul name ∈ known_names))
          [chars "nope"; chars "eth0"; chars "wlan7"; chars "lo"] 4 = Some rm
    ∧ remove_bad_interfaces (λ _ name, bool_decide (upto_nul name ∈ known_names))
        (rm_interfaces rm) (rm_num_interfaces rm)
      = Some (Removed (rm_interfaces rm) (rm_num_interfaces rm) [] 0).
Proof.
  apply (remove_bad_interfaces_idempotent
           (λ _ name, bool_decide (upto_nul name ∈ known_names))
           [chars "nope"; chars "eth0"; chars "wlan7"; chars "lo"] 4).
  - reflexivity.
  - simpl. lia.
Defined.

(** *** The interface test *)

(** X15.  The interface test is an exact, case-sensitive match: when names were
    given, a name passes the test exactly when it is, character for
    character, one of the [num_interfaces] leading names of the array. *)
Theorem interface_filter_is_exact_match (a : args) (name : list ascii) :
  interfaces_specified a = true →
  Forall (λ c, c ≠ NUL) name →
  Forall (Forall (λ c, c ≠ NUL)) (take (num_interfaces a) (interfaces a)) →
  selected a name = true ↔ name ∈ take (num_interfaces a) (interfaces a).
Proof.
  intros Hspec Hname Hnames. unfold selected. rewrite Hspec, lfind_matches. simpl.
  rewrite matches_true. rewrite Forall_forall in Hnames. split.
  - intros (n & Hn & Hcmp). apply strcmp_0_iff in Hcmp as ->; auto.
  - intros Hin. exists name. split; [done|]. by apply strcmp_0_iff.
Qed.

(** eth0 among the names eth0 and lo; Eth0 and eth are not. *)
Lemma interface_filter_is_exact_match_witness :
  let a := argp_parse (Cmdline [] [chars "eth0"; chars "lo"]) initial_args in
  (selected a (chars "eth0") = true
   ↔ chars "eth0" ∈ take (num_interfaces a) (interfaces a))
  ∧ selected a (chars "eth0") = true
  ∧ selected a (chars "Eth0") = false
  ∧ selected a (chars "eth") = false.
Proof.
  split; [|by vm_compute].
  apply (interface_filter_is_exact_match
           (argp_parse (Cmdline [] [chars "eth0"; chars "lo"]) initial_args)
           (chars "eth0")).
  - reflexivity.
  - repeat constructor; discriminate.
  - repeat constructor; discriminate.
Defined.

(** *** The size of the reconstructed address *)

Lemma strn_take n : ∀ m b, (n ≤ m)%nat → strn n (take m b) = strn n b.
Proof.
  induction n as [|n IH]; intros m b Hm; [by destruct (take m b), b|].
  destruct m as [|m]; [lia|]. destruct b as [|c b]; [done|]. simpl.
  destruct (Ascii.eqb c NUL); [done|]. f_equal. apply IH. lia.
Qed.

Lemma strn_drop_take n k m b :
  (k + n ≤ m)%nat → strn n (drop k (take m b)) = strn n (drop k b).
Proof.
  intros Hm. rewrite skipn_firstn_comm. apply strn_take. lia.
Qed.

(** The groups of [pretty_ip], before [snprintf] cuts the line to the size
    of the array. *)
Lemma pretty_ip_length ip :
  (7 ≤ length (strn 4 ip ++ COLON :: strn 4 (drop 4 ip) ++ COLON ::
               strn 4 (drop 8 ip) ++ COLON :: strn 4 (drop 12 ip) ++ COLON ::
               strn 4 (drop 16 ip) ++ COLON :: strn 4 (drop 20 ip) ++ COLON ::
               strn 4 (drop 24 ip) ++ COLON :: strn 4 (drop 28 ip)) ≤ 39)%nat.
Proof.
  repeat (rewrite length_app || rewrite length_cons).
  pose proof (strn_length 4 ip). pose proof (strn_length 4 (drop 4 ip)).
  pose proof (strn_length 4 (drop 8 ip)). pose proof (strn_length 4 (drop 12 ip)).
  pose proof (strn_length 4 (drop 16 ip)). pose proof (strn_length 4 (drop 20 ip)).
  pose proof (strn_length 4 (drop 24 ip)). pose proof (strn_length 4 (drop 28 ip)).
  lia.
Qed.

Lemma pretty_ip_take_32 ip : pretty_ip (take 32 ip) = pretty_ip ip.
Proof.
  unfold pretty_ip. rewrite <- (drop_0 (take 32 ip)), <- (drop_0 ip) at 1.
  by rewrite !strn_drop_take by lia.
Qed.

(** X16.  Whatever the array [ip] holds, the line that [snprintf] builds has
    between 7 and 39 characters: the 46 bytes of [pretty_ip] always suffice
    and the line is never cut.  The line is made of the eight groups that
    ["%.4s"] reads at the offsets 0, 4, ..., 28, and it only depends on the
    first 32 bytes of the array. *)
Theorem pretty_ip_never_truncated (ip : list ascii) :
  (7 ≤ length (pretty_ip ip) ≤ 39)%nat
  ∧ pretty_ip ip
    = colon_join ((λ k, strn 4 (drop (4 * k) ip)) <$> seq 0 8)
  ∧ pretty_ip (take 32 ip) = pretty_ip ip.
Proof.
  assert (pretty_ip ip
          = colon_join ((λ k, strn 4 (drop (4 * k) ip)) <$> seq 0 8)) as Heq.
  { unfold pretty_ip. pose proof (pretty_ip_length ip) as Hlen.
    rewrite take_ge by (rewrite ADDRSTRLEN_eq; lia). reflexivity. }
  split; [|split; [exact Heq | apply pretty_ip_take_32]].
  rewrite Heq. apply (pretty_ip_length ip).
Qed.

(** X17.  An address field of more than 32 characters (and fewer than 46, so
    that it fits the array) is not rejected: the line printed is made of
    its first 32 characters. *)
Theorem long_address_is_cut_to_32 (tok old : list ascii) :
  (32 ≤ length tok < ADDRSTRLEN)%nat →
  Forall (λ c, c ≠ NUL) tok →
  length old = ADDRSTRLEN →
  ∃ ip, store tok old = Some ip
    ∧ pretty_ip ip = colon_join (groups_of 8 (take 32 tok)).
Proof.
  intros Hlen Htok Hold.
  eexists. split; [apply store_fits; lia|].
  rewrite <- pretty_ip_take_32. unfold stored.
  rewrite take_app_le by lia.
  transitivity (pretty_ip (take 32 tok ++ [NUL])).
  { rewrite <- (pretty_ip_take_32 (take 32 tok ++ [NUL])).
    rewrite take_app_le by (rewrite length_take; lia). by rewrite take_idemp. }
  apply pretty_ip_of_stored.
  - apply Forall_take. eapply Forall_impl; [exact Htok|].
    intros c Hc. by apply Ascii.eqb_neq.
  - rewrite length_take. lia.
Qed.

(** A field of 40 characters: a packed address followed by eight more. *)
Lemma long_address_is_cut_to_32_witness :
  ∃ ip, store (chars "20010db8000000000000000000000042deadbeef")
              (replicate ADDRSTRLEN "x"%char) = Some ip
    ∧ pretty_ip ip = chars "2001:0db8:0000:0000:0000:0000:0000:0042".
Proof.
  apply (long_address_is_cut_to_32
           (chars "20010db8000000000000000000000042deadbeef")
           (replicate ADDRSTRLEN "x"%char)).
  - vm_compute. lia.
  - repeat constructor; discriminate.
  - reflexivity.
Defined.

(** *** The IPv6 table as a sequence of tokens *)

Lemma scan_skip_nil f : tokens f = [] → scan_skip f = None.
Proof. intros Hf. unfold scan_skip. by rewrite (scan_s_nil f Hf). Qed.

(** What a call of [fscanf] does, read off the tokens left in the stream. *)
Lemma fscanf_by_tokens f ip ifc :
  match tokens f with
  | [] => fscanf_if_inet6 f ip ifc = FscanfEOF
  | t1 :: ts =>
      match store t1 ip with
      | None => fscanf_if_inet6 f ip ifc = FscanfOverrun
      | Some ip' =>
          match ts with
          | _ :: _ :: _ :: _ :: t6 :: ts' =>
              match store t6 ifc with
              | None => fscanf_if_inet6 f ip ifc = FscanfOverrun
              | Some ifc' =>
                  ∃ f', fscanf_if_inet6 f ip ifc = FscanfItems 2 ip' ifc' f'
                        ∧ tokens f' = ts'
              end
          | _ => fscanf_if_inet6 f ip ifc = FscanfItems 1 ip' ifc []
          end
      end
  end.
Proof.
  unfold fscanf_if_inet6.
  destruct (tokens f) as [|t1 ts] eqn:Hf; [by rewrite (scan_s_nil f Hf)|].
  destruct (scan_s_cons _ _ _ Hf) as (f1 & -> & Hf1).
  destruct (store t1 ip) as [ip'|]; [|done].
  destruct ts as [|t2 ts]; [by rewrite (scan_skip_nil f1 Hf1)|].
  destruct (scan_skip_cons _ _ _ Hf1) as (f2 & -> & Hf2). simpl.
  destruct ts as [|t3 ts]; [by rewrite (scan_skip_nil f2 Hf2)|].
  destruct (scan_skip_cons _ _ _ Hf2) as (f3 & -> & Hf3). simpl.
  destruct ts as [|t4 ts]; [by rewrite (scan_skip_nil f3 Hf3)|].
  destruct (scan_skip_cons _ _ _ Hf3) as (f4 & -> & Hf4). simpl.
  destruct ts as [|t5 ts]; [by rewrite (scan_skip_nil f4 Hf4)|].
  destruct (scan_skip_cons _ _ _ Hf4) as (f5 & -> & Hf5). simpl.
  destruct ts as [|t6 ts]; [by rewrite (scan_s_nil f5 Hf5)|].
  destruct (scan_s_cons _ _ _ Hf5) as (f6 & -> & Hf6).
  destruct (store t6 ifc) as [ifc'|]; [|done]. eauto.
Qed.

(** The loop reads the table as its sequence of tokens. *)
Lemma while_fscanf_tokens {A} (body : list ascii → list ascii → option (list A)) :
  ∀ f g ip ifc, tokens f = tokens g →
  while_fscanf body f ip ifc = while_fscanf body g ip ifc.
Proof.
  intros f. remember (length f) as n eqn:Hn. revert f Hn.
  induction n as [n IH] using lt_wf_ind. intros f -> g ip ifc Htok.
  rewrite (while_fscanf_step body f), (while_fscanf_step body g).
  pose proof (fscanf_by_tokens f ip ifc) as Hf.
  pose proof (fscanf_by_tokens g ip ifc) as Hg.
  rewrite <- Htok in Hg.
  destruct (tokens f) as [|t1 ts]; [by rewrite Hf, Hg|].
  destruct (store t1 ip) as [ip'|]; [|by rewrite Hf, Hg].
  destruct ts as [|t2 [|t3 [|t4 [|t5 [|t6 ts]]]]]; try (by rewrite Hf, Hg).
  destruct (store t6 ifc) as [ifc'|]; [|by rewrite Hf, Hg].
  destruct Hf as (f' & Hf & Hf'), Hg as (g' & Hg & Hg').
  rewrite Hf, Hg. destruct (body ip' ifc'); [|done].
  apply fscanf_if_inet6_shorter in Hf.
  by rewrite (IH (length f') Hf f' eq_refl g' ip' ifc') by congruence.
Qed.

(** X18.  The IPv6 table is read as a sequence of white-space delimited tokens:
    two tables with the same tokens give the same run, wherever their line
    breaks and blanks are. *)
Theorem ipv6_table_is_read_by_tokens (c : cmdline) (s : sys) (f g : list ascii) :
  if_inet6 s = Some f → tokens g = tokens f →
  main c (with_if_inet6 (Some g) s) = main c s.
Proof.
  intros Hf Htok. unfold main.
  change (proc_net_dev (with_if_inet6 (Some g) s)) with (proc_net_dev s).
  destruct (get_interfaces (proc_net_dev s)); [|done..].
  destruct (list_interfaces (argp_parse c initial_args)); [done|].
  rewrite !list_addresses_resolve.
  change (access_proc_net (with_if_inet6 (Some g) s)) with (access_proc_net s).
  change (access_if_inet6 (with_if_inet6 (Some g) s)) with (access_if_inet6 s).
  change (socket_ok (with_if_inet6 (Some g) s)) with (socket_ok s).
  change (validated (argp_parse c initial_args) (with_if_inet6 (Some g) s))
    with (validated (argp_parse c initial_args) s).
  destruct (negb (access_proc_net s)); [done|].
  destruct (negb (access_if_inet6 s)); [done|].
  destruct (negb (socket_ok s)); [done|].
  destruct (validated (argp_parse c initial_args) s) as [[a err]|]; [|done].
  unfold resolve.
  change (ifconf_len (with_if_inet6 (Some g) s)) with (ifconf_len s).
  change (malloc_ok (with_if_inet6 (Some g) s)) with (malloc_ok s).
  change (ifconf_table (with_if_inet6 (Some g) s)) with (ifconf_table s).
  change (if_inet6 (with_if_inet6 (Some g) s)) with (Some g).
  change (stack_ip (with_if_inet6 (Some g) s)) with (stack_ip s).
  change (stack_ifc (with_if_inet6 (Some g) s)) with (stack_ifc s).
  rewrite Hf. unfold ipv6_loop.
  by rewrite (while_fscanf_tokens (ipv6_body a) g f) by done.
Qed.

(** The IPv6 table of the sample host written on one line, its fields
    separated by single spaces, without final newline. *)
Lemma ipv6_table_is_read_by_tokens_witness :
  main (Cmdline [] [])
    (with_if_inet6
       (Some (chars ("00000000000000000000000000000001 01 80 10 80 lo "
                     ++ "fe800000000000000a0027fffe4e66a1 02 40 20 80 eth0 "
                     ++ "20010db8000000000000000000000042 02 40 00 80 eth0")))
       sample_sys)
  = main (Cmdline [] []) sample_sys.
Proof.
  apply (ipv6_table_is_read_by_tokens (Cmdline [] []) sample_sys sample_if_inet6).
  - reflexivity.
  - vm_compute. reflexivity.
Defined.

(** *** Rows that are not well formed *)

Lemma tokens_table_of_lines_app ls g :
  tokens (table_of_lines ls ++ g) = concat (tokens <$> ls) ++ tokens g.
Proof.
  induction ls as [|l ls IH]; [done|].
  rewrite table_of_lines_cons, tokens_app_space by done.
  by rewrite IH, fmap_cons, concat_cons, app_assoc.
Qed.

Lemma table_rows_step f ip ifc :
  table_rows f ip ifc =
  match fscanf_if_inet6 f ip ifc with
  | FscanfEOF => ([], true)
  | FscanfOverrun => ([], false)
  | FscanfItems _ ip' ifc' f' =>
      let '(more, ok) := table_rows f' ip' ifc' in ((ip', ifc') :: more, ok)
  end.
Proof.
  unfold table_rows. rewrite while_fscanf_step.
  by destruct (fscanf_if_inet6 f ip ifc).
Qed.

Lemma arrays_at_end_cons t1 t6 fields ip ifc :
  arrays_at_end ((t1, t6) :: fields) ip ifc
  = arrays_at_end fields (stored t1 ip) (stored t6 ifc).
Proof.
  unfold arrays_at_end. simpl. rewrite last_cons.
  by destruct (last (arrays_after fields (stored t1 ip) (stored t6 ifc))).
Qed.

(** On a table that starts with well-formed lines the parser reads one row
    per line, and goes on with what follows them. *)
Lemma table_rows_then ls : ∀ f ip ifc ts,
  tokens f = concat (tokens <$> ls) ++ ts →
  Forall (λ l, table_line l = true) ls →
  length ip = ADDRSTRLEN → length ifc = IFNAMSIZ →
  ∃ f', tokens f' = ts
    ∧ length (arrays_at_end (omap six_fields ls) ip ifc).1 = ADDRSTRLEN
    ∧ length (arrays_at_end (omap six_fields ls) ip ifc).2 = IFNAMSIZ
    ∧ table_rows f ip ifc
      = let '(more, ok) :=
          table_rows f' (arrays_at_end (omap six_fields ls) ip ifc).1
                        (arrays_at_end (omap six_fields ls) ip ifc).2 in
        (arrays_after (omap six_fields ls) ip ifc ++ more, ok).
Proof.
  induction ls as [|l ls IH]; intros f ip ifc ts Hf Hls Hip Hifc.
  - exists f. repeat split; try done. simpl.
    by destruct (table_rows f ip ifc).
  - inversion Hls as [|? ? Hl Hls']; subst. unfold table_line in Hl.
    destruct (six_fields l) as [[t1 t6]|] eqn:Hsix; [|done].
    destruct (six_fields_tokens _ _ _ Hsix) as (t2 & t3 & t4 & t5 & Htok).
    apply andb_prop in Hl as [[H1 H6]%andb_prop _].
    apply bool_decide_eq_true in H1, H6.
    rewrite fmap_cons, concat_cons, Htok in Hf. simpl in Hf.
    destruct (fscanf_six f ip ifc _ _ _ _ _ _ _ Hf) as (f1 & Hscan & Hf1);
      [lia | lia |].
    destruct (IH f1 (stored t1 ip) (stored t6 ifc) ts Hf1 Hls')
      as (f' & Hf' & Hlen1 & Hlen2 & Hrows);
      [rewrite length_stored; lia | rewrite length_stored; lia |].
    exists f'. simpl omap. rewrite Hsix. rewrite arrays_at_end_cons.
    repeat split; try done.
    rewrite table_rows_step, Hscan, Hrows. simpl.
    by destruct (table_rows f' _ _).
Qed.

(** A last row of fewer than six fields: [fscanf] stores the address,
    leaves [ifc] as it is and returns 1. *)
Lemma table_rows_short_row f ip ifc t1 more :
  tokens f = t1 :: more → (length more < 5)%nat → (length t1 < length ip)%nat →
  table_rows f ip ifc = ([(stored t1 ip, ifc)], true).
Proof.
  intros Hf Hmore H1. rewrite table_rows_step.
  pose proof (fscanf_by_tokens f ip ifc) as Hscan.
  rewrite Hf, (store_fits _ _ H1) in Hscan.
  assert (fscanf_if_inet6 f ip ifc = FscanfItems 1 (stored t1 ip) ifc []) as ->.
  { destruct more as [|t2 [|t3 [|t4 [|t5 [|t6 ts]]]]]; try done.
    simpl in Hmore. lia. }
  rewrite table_rows_step.
  assert (fscanf_if_inet6 [] (stored t1 ip) ifc = FscanfEOF) as -> by done.
  done.
Qed.

Lemma arrays_after_app fields1 : ∀ fields2 ip ifc,
  arrays_after (fields1 ++ fields2) ip ifc
  = arrays_after fields1 ip ifc
    ++ arrays_after fields2 (arrays_at_end fields1 ip ifc).1
                            (arrays_at_end fields1 ip ifc).2.
Proof.
  induction fields1 as [|[t1 t6] fields1 IH]; intros fields2 ip ifc; [done|].
  simpl. by rewrite IH, arrays_at_end_cons.
Qed.

(** X19.  A table whose last row breaks off before its sixth field still gives a
    line for that row: [fscanf] returns 1, not [EOF], the loop body runs
    with the array [ifc] as the row before left it, and the address is
    printed (or not) as an address of that row's interface. *)
Theorem short_last_row_reuses_the_interface_name (a : args)
    (ls : list (list ascii)) (l frag addr name t1 : list ascii)
    (more : list (list ascii)) (ip ifc : list ascii) :
  Forall (λ l, full_address_line l = true) (ls ++ [l]) →
  six_fields l = Some (addr, name) →
  tokens frag = t1 :: more → (length more < 5)%nat →
  length t1 = 32%nat → Forall (λ c, c ≠ NUL) t1 →
  length ip = ADDRSTRLEN → length ifc = IFNAMSIZ →
  ipv6_loop a (table_of_lines (ls ++ [l]) ++ frag) ip ifc
  = (line6 <$> filter (λ p, Is_true (selected a p.2))
                 (omap six_fields (ls ++ [l]) ++ [(t1, name)]),
     true).
Proof.
  intros Hfull Hsix Hfrag Hmore Hlen1 Hnul1 Hip Hifc.
  assert (Forall (λ l, table_line l = true) (ls ++ [l])) as Hls.
  { eapply Forall_impl; [exact Hfull|]. by intros l' [? _]%andb_prop. }
  destruct (table_rows_then (ls ++ [l]) (table_of_lines (ls ++ [l]) ++ frag)
              ip ifc (t1 :: more))
    as (f' & Hf' & Hlip & Hlifc & Hrows); try done.
  { by rewrite tokens_table_of_lines_app, Hfrag. }
  set (fields := omap six_fields (ls ++ [l])) in *.
  set (ip' := (arrays_at_end fields ip ifc).1) in *.
  set (ifc' := (arrays_at_end fields ip ifc).2) in *.
  rewrite (table_rows_short_row f' ip' ifc' t1 more) in Hrows
    by (done || rewrite Hlip, Hlen1; vm_compute; lia).
  (* the array [ifc] holds the name of the last full row *)
  assert (∃ b, ifc' = stored name b) as [b Hifc'].
  { subst ifc' fields. rewrite omap_app. simpl. rewrite Hsix. simpl.
    unfold arrays_at_end. rewrite arrays_after_app. simpl.
    rewrite last_snoc. simpl. by eexists. }
  assert (forallb (λ c, negb (Ascii.eqb c NUL)) name = true) as Hname.
  { apply Forall_app in Hls as [_ Hl]. inversion Hl as [|? ? Hl' _]; subst.
    unfold table_line in Hl'. rewrite Hsix in Hl'.
    apply andb_prop in Hl' as [_ Hn]. rewrite forallb_app in Hn.
    by apply andb_prop in Hn as [_ ?]. }
  assert (ipv6_body a (stored t1 ip') ifc'
          = Some (if selected a name then [line6 (t1, name)] else [])) as Hbody.
  { assert (cstr ifc' = Some name) as Hcstr
      by (rewrite Hifc'; by apply cstr_app_NUL).
    unfold ipv6_body, selected, line6.
    rewrite (cstr_upto_nul _ _ Hcstr), Hcstr.
    unfold stored. rewrite pretty_ip_of_stored; [|by eapply Forall_impl;
      [exact Hnul1 | intros c Hc; by apply Ascii.eqb_neq] | done].
    simpl. destruct (interfaces_specified a); simpl; [|done].
    by destruct (bool_decide _). }
  unfold ipv6_loop.
  erewrite while_fscanf_rows; [|exact Hrows|].
  - f_equal. rewrite bind_app, filter_app, fmap_app. f_equal.
    + subst fields. by apply arrays_after_lines.
    + simpl. rewrite Hbody. simpl. rewrite app_nil_r.
      destruct (selected a name) eqn:Hsel.
      * rewrite filter_cons_True; [done | by apply Is_true_true].
      * rewrite filter_cons_False; [done | by apply Is_true_false].
  - apply Forall_app. split; [by apply arrays_after_defined|].
    constructor; [|constructor]. simpl. by rewrite Hbody.
Qed.

(** The IPv6 table of the sample host followed by an address alone. *)
Lemma short_last_row_reuses_the_interface_name_witness :
  ipv6_loop (argp_parse (Cmdline [] [chars "eth0"]) initial_args)
    (sample_if_inet6 ++ chars "20010db8000000000000000000000099 02")
    (replicate ADDRSTRLEN NUL) (replicate IFNAMSIZ NUL)
  = ([ AddressLine (chars "eth0") AF_INET6
         (chars "fe80:0000:0000:0000:0a00:27ff:fe4e:66a1");
       AddressLine (chars "eth0") AF_INET6
         (chars "2001:0db8:0000:0000:0000:0000:0000:0042");
       AddressLine (chars "eth0") AF_INET6
         (chars "2001:0db8:0000:0000:0000:0000:0000:0099") ], true).
Proof.
  apply (short_last_row_reuses_the_interface_name
           (argp_parse (Cmdline [] [chars "eth0"]) initial_args)
           [ chars "00000000000000000000000000000001 01 80 10 80       lo";
             chars "fe800000000000000a0027fffe4e66a1 02 40 20 80     eth0" ]
           (chars "20010db8000000000000000000000042 02 40 00 80     eth0")
           (chars "20010db8000000000000000000000099 02")
           (chars "20010db8000000000000000000000042") (chars "eth0")
           (chars "20010db8000000000000000000000099") [chars "02"]).
  - repeat constructor.
  - vm_compute. reflexivity.
  - vm_compute. reflexivity.
  - simpl. lia.
  - reflexivity.
  - repeat constructor; discriminate.
  - reflexivity.
  - reflexivity.
Defined.

(** [fscanf] on a row whose address field does not fit [ip], or whose
    sixth field does not fit [ifc]. *)
Lemma table_rows_overrun f ip ifc t1 ts :
  tokens f = t1 :: ts →
  (length ip ≤ length t1)%nat
  ∨ (∃ t2 t3 t4 t5 t6 ts', ts = t2 :: t3 :: t4 :: t5 :: t6 :: ts'
                           ∧ (length ifc ≤ length t6)%nat) →
  table_rows f ip ifc = ([], false).
Proof.
  intros Hf Hlong. rewrite table_rows_step.
  pose proof (fscanf_by_tokens f ip ifc) as Hscan. rewrite Hf in Hscan.
  unfold store in Hscan.
  destruct (decide (length t1 < length ip)%nat) as [H1|H1]; [|by rewrite Hscan].
  destruct Hlong as [?|(t2 & t3 & t4 & t5 & t6 & ts' & -> & H6)]; [lia|].
  rewrite decide_False in Hscan by lia. by rewrite Hscan.
Qed.

(** X20.  A field that does not fit its array is not cut and the row is not
    skipped: after well-formed lines, a row whose address field has 46
    characters or more, or whose sixth field has 16 characters or more,
    makes [fscanf] write past the end of the array.  The lines before it
    were printed; the behaviour from there on is undefined. *)
Theorem overlong_field_overruns (a : args) (ls : list (list ascii))
    (bad : list ascii) (rest : list (list ascii)) (t1 : list ascii)
    (ts : list (list ascii)) (ip ifc : list ascii) :
  Forall (λ l, full_address_line l = true) ls →
  tokens bad = t1 :: ts →
  (ADDRSTRLEN ≤ length t1)%nat
  ∨ (∃ t2 t3 t4 t5 t6 ts', ts = t2 :: t3 :: t4 :: t5 :: t6 :: ts'
                           ∧ (IFNAMSIZ ≤ length t6)%nat) →
  length ip = ADDRSTRLEN → length ifc = IFNAMSIZ →
  ipv6_loop a (table_of_lines (ls ++ bad :: rest)) ip ifc
  = (line6 <$> filter (λ p, Is_true (selected a p.2)) (omap six_fields ls), false).
Proof.
  intros Hfull Hbad Hlong Hip Hifc.
  assert (Forall (λ l, table_line l = true) ls) as Hls.
  { eapply Forall_impl; [exact Hfull|]. by intros l' [? _]%andb_prop. }
  destruct (table_rows_then ls (table_of_lines (ls ++ bad :: rest)) ip ifc
              (t1 :: ts ++ concat (tokens <$> rest)))
    as (f' & Hf' & Hlip & Hlifc & Hrows); try done.
  { rewrite tokens_table_of_lines, fmap_app, concat_app, fmap_cons, concat_cons.
    by rewrite Hbad. }
  rewrite (table_rows_overrun f' _ _ t1 (ts ++ concat (tokens <$> rest))) in Hrows.
  - rewrite app_nil_r in Hrows. unfold ipv6_loop.
    erewrite while_fscanf_rows; [|exact Hrows | by apply arrays_after_defined].
    by rewrite arrays_after_lines.
  - done.
  - rewrite Hlip, Hlifc.
    destruct Hlong as [?|(t2 & t3 & t4 & t5 & t6 & ts' & -> & H6)]; [by left|].
    right. exists t2, t3, t4, t5, t6, (ts' ++ concat (tokens <$> rest)). done.
Qed.

(** The IPv6 table of the sample host with, before its last line, a line
    whose address field has 48 characters. *)
Lemma overlong_field_overruns_witness :
  ipv6_loop (argp_parse (Cmdline [] []) initial_args)
    (table_of_lines
       ([ chars "00000000000000000000000000000001 01 80 10 80       lo";
          chars "fe800000000000000a0027fffe4e66a1 02 40 20 80     eth0" ]
        ++ overlong_line
        :: [chars "20010db8000000000000000000000042 02 40 00 80     eth0"]))
    (replicate ADDRSTRLEN NUL) (replicate IFNAMSIZ NUL)
  = ([ AddressLine (chars "lo") AF_INET6
         (chars "0000:0000:0000:0000:0000:0000:0000:0001");
       AddressLine (chars "eth0") AF_INET6
         (chars "fe80:0000:0000:0000:0a00:27ff:fe4e:66a1") ], false).
Proof.
  apply (overlong_field_overruns (argp_parse (Cmdline [] []) initial_args)
           [ chars "00000000000000000000000000000001 01 80 10 80       lo";
             chars "fe800000000000000a0027fffe4e66a1 02 40 20 80     eth0" ]
           overlong_line
           [chars "20010db8000000000000000000000042 02 40 00 80     eth0"]
           (chars "fe800000000000000a0027fffe4e66a1fe800000000000ff")
           [chars "02"; chars "40"; chars "20"; chars "80"; chars "eth0"]).
  - repeat constructor.
  - vm_compute. reflexivity.
  - left. vm_compute. lia.
  - reflexivity.
  - reflexivity.
Defined.

(** *** How a run ends *)

Lemma ipv4_loop_dotted_decimal a reqs :
  Forall dotted_decimal (ar_address <$> ipv4_loop a reqs).
Proof.
  apply Forall_fmap. eapply Forall_impl; [apply ipv4_loop_lines|].
  intros r (_ & _ & (e & _ & ->) & _). apply inet_ntop_dotted_decimal.
Qed.

(** A run that lists addresses, by the answers of the system. *)
Lemma address_mode_run c s :
  let r := list_addresses (argp_parse c initial_args) s in
  if setup_ok s then
    if wants6 c then
      match if_inet6 s with
      | None => exit_status r = Exited EXIT_FAILURE ∧ stderr r ≠ []
                ∧ Forall dotted_decimal (stdout r)
      | Some f =>
          ∃ a, exit_status r
               = if (ipv6_loop a f (resize ADDRSTRLEN NUL (stack_ip s))
                       (resize IFNAMSIZ NUL (stack_ifc s))).2
                 then Exited EXIT_SUCCESS else Undefined
      end
    else exit_status r = Exited EXIT_SUCCESS
  else exit_status r = Exited EXIT_FAILURE ∧ stderr r ≠ [] ∧ stdout r = [].
Proof.
  assert (∀ err : list (list ascii), err ++ [something_went_wrong] ≠ []) as Hne
    by (by intros []).
  cbv zeta. rewrite list_addresses_resolve. unfold setup_ok.
  destruct (access_proc_net s); simpl; [|by repeat split].
  destruct (access_if_inet6 s); simpl; [|by repeat split].
  destruct (socket_ok s); simpl; [|by repeat split].
  destruct (validated_main c s) as (a & err & -> & _ & W6 & _).
  unfold resolve. rewrite W6.
  destruct (ifconf_len s) as [len|]; simpl; [|repeat split; (apply Hne || done)].
  destruct (malloc_ok s); simpl; [|repeat split; (apply Hne || done)].
  destruct (ifconf_table s) as [table|]; simpl; [|repeat split; (apply Hne || done)].
  destruct (wants6 c); [|done].
  destruct (if_inet6 s) as [f|].
  - exists a. by destruct (ipv6_loop a f _ _) as [out6 []].
  - repeat split; [apply Hne | apply ipv4_loop_dotted_decimal].
Qed.

(** X21.  A run ends with exit code 1 exactly when the interface listing cannot
    be opened or has no header, or when, outside list-only mode, a call
    before the loops fails or IPv6 output is wanted and the IPv6 table
    cannot be opened.  A name that fails the probe never makes the run
    fail.  A failed run has written a message to standard error, and what
    it has printed, if anything, are IPv4 addresses; it has printed nothing
    when a call before the loops failed. *)
Theorem exit_failure_iff (c : cmdline) (s : sys) :
  (exit_status (main c s) = Exited EXIT_FAILURE
   ↔ (∃ m, get_interfaces (proc_net_dev s) = ListerFatal m)
     ∨ ((∃ arr num, get_interfaces (proc_net_dev s) = Listed arr num)
        ∧ (FlagListInterfaces ∉ flags c)
        ∧ (setup_ok s = false ∨ (wants6 c = true ∧ if_inet6 s = None))))
  ∧ (exit_status (main c s) = Exited EXIT_FAILURE →
     stderr (main c s) ≠ []
     ∧ Forall dotted_decimal (stdout (main c s))
     ∧ (setup_ok s = false → stdout (main c s) = [])).
Proof.
  destruct (argp_parse_spec c) as (_ & _ & _ & Hl & _). simpl in Hl.
  pose proof (address_mode_run c s) as Hrun. cbv zeta in Hrun.
  unfold main in *.
  destruct (get_interfaces (proc_net_dev s)) as [arr num|m|] eqn:Hlist.
  - destruct (list_interfaces (argp_parse c initial_args)) eqn:Hmode.
    + assert (FlagListInterfaces ∈ flags c) as Hmode' by (by apply Hl).
      assert (∀ st, st = Exited EXIT_SUCCESS ∨ st = Undefined →
                st ≠ Exited EXIT_FAILURE) as Hst by (by intros st [-> | ->]).
      assert (exit_status (match print_interfaces num 0 arr with
                           | Some out => Run out [] (Exited EXIT_SUCCESS) []
                           | None => Run [] [] Undefined []
                           end) ≠ Exited EXIT_FAILURE) as Hno
        by (apply Hst; destruct (print_interfaces num 0 arr); auto).
      split; [split|]; [done | | done].
      intros [[m [=]]|(_ & Hno' & _)]. done.
    + assert (FlagListInterfaces ∉ flags c) as Hmode'
        by (intros H; by apply Hl in H).
      set (r := list_addresses (argp_parse c initial_args) s) in *.
      destruct (setup_ok s).
      * destruct (wants6 c).
        -- destruct (if_inet6 s) as [f|].
           ++ destruct Hrun as [a Hrun].
              assert (exit_status r ≠ Exited EXIT_FAILURE) as Hno
                by (rewrite Hrun; by destruct (_.2)).
              split; [split|]; [done | | done].
              intros [[m [=]]|(_ & _ & [[=]|[_ [=]]])].
           ++ destruct Hrun as (Hexit & Herr & Hout).
              split; [split|]; [|done|done].
              intros _. right. repeat split; eauto.
        -- split; [split|]; [by rewrite Hrun | | by rewrite Hrun].
           intros [[m [=]]|(_ & _ & [[=]|[[=] _]])].
      * destruct Hrun as (Hexit & Herr & Hout).
        split; [split|]; [| done |].
        -- intros _. right. repeat split; eauto.
        -- intros _. rewrite Hout. by repeat split.
  - split; [split|]; [eauto | done | by repeat split].
  - split; [split|]; [done | | done].
    intros [[m [=]]|[(arr & num & [=]) _]].
Qed.

(** The sample host with an IPv6 table that cannot be opened. *)
Lemma exit_failure_iff_witness :
  exit_status (main (Cmdline [] []) (with_if_inet6 None sample_sys))
  = Exited EXIT_FAILURE
  ∧ stderr (main (Cmdline [] []) (with_if_inet6 None sample_sys)) ≠ []
  ∧ Forall dotted_decimal (stdout (main (Cmdline [] []) (with_if_inet6 None sample_sys))).
Proof.
  destruct (exit_failure_iff (Cmdline [] []) (with_if_inet6 None sample_sys))
    as [Hiff Hout].
  assert (exit_status (main (Cmdline [] []) (with_if_inet6 None sample_sys))
          = Exited EXIT_FAILURE) as Hexit.
  { apply Hiff. right. split; [by apply sample_sys_lists_interfaces|].
    split; [simpl; apply not_elem_of_nil|]. right. by split. }
  split; [exact Hexit|]. destruct (Hout Hexit) as (Herr & Hlines & _). by split.
Defined.

(** *** Runs without undefined behaviour *)




(** *** The listing outside list-only mode *)

(** X12.  Outside list-only mode the names that the lister returns are not used:
    as long as the listing is read without error, the run does not depend
    on what it holds. *)
Theorem listing_is_only_used_in_list_mode (c : cmdline) (s : sys)
    (text : option (list ascii))
    (arr arr' : list (option (list ascii))) (num num' : nat) :
  FlagListInterfaces ∉ flags c →
  get_interfaces (proc_net_dev s) = Listed arr num →
  get_interfaces text = Listed arr' num' →
  main c (with_proc_net_dev text s) = main c s.
Proof.
  intros Hmode Hlist Hlist'.
  rewrite (main_address_mode c s arr num Hlist Hmode).
  by rewrite (main_address_mode c (with_proc_net_dev text s) arr' num' Hlist' Hmode).
Qed.

(** The sample host with a listing of the two header lines alone. *)
Lemma listing_is_only_used_in_list_mode_witness :
  main (Cmdline [] [chars "eth0"])
       (with_proc_net_dev (Some (table_of_lines [sample_header1; sample_header2]))
          sample_sys)
  = main (Cmdline [] [chars "eth0"]) sample_sys.
Proof.
  apply (listing_is_only_used_in_list_mode (Cmdline [] [chars "eth0"]) sample_sys
           (Some (table_of_lines [sample_header1; sample_header2]))
           [Some (chars "lo"); Some (chars "eth0")] [] 2 0).
  - simpl. apply not_elem_of_nil.
  - reflexivity.
  - reflexivity.
Defined.

(** *** Address fields of any length *)

Lemma strn_app_NUL n : ∀ l r,
  Forall (λ c, c ≠ NUL) l → strn n (l ++ NUL :: r) = take n l.
Proof.
  induction n as [|n IH]; intros l r Hl; [by destruct l|].
  destruct l as [|c l]; simpl; [done|].
  inversion Hl as [|? ? Hc Hl']; subst.
  apply Ascii.eqb_neq in Hc. rewrite Hc. f_equal. by apply IH.
Qed.

(** The group read at offset [k] of the array after the store. *)
Lemma strn_stored tok old k :
  Forall (λ c, c ≠ NUL) tok →
  strn 4 (drop k (stored tok old))
  = if decide (k ≤ length tok)%nat then take 4 (drop k tok)
    else strn 4 (drop k old).
Proof.
  intros Htok. unfold stored. destruct (decide (k ≤ length tok)%nat) as [Hk|Hk].
  - rewrite drop_app_le by done. apply strn_app_NUL. by apply Forall_drop.
  - rewrite drop_app_ge by lia.
    replace (k - length tok)%nat with (S (k - length tok - 1))%nat by lia.
    rewrite skipn_cons, drop_drop. do 2 f_equal. lia.
Qed.

(** X24.  The address of any field that fits.  When [fscanf] has stored an
    address field of fewer than 46 characters over the array [ip], the line
    printed is made of eight groups joined by colons: a group whose offset
    0, 4, ..., 28 lies within the field is made of the (up to four) characters
    of the field from that offset on; a group whose offset lies past the
    end of the field is read from the bytes that the array held before, that
    is, from the row read before. *)
Theorem address_groups_of_any_field (tok old : list ascii) :
  (length tok < ADDRSTRLEN)%nat → Forall (λ c, c ≠ NUL) tok →
  length old = ADDRSTRLEN →
  ∃ ip, store tok old = Some ip
    ∧ pretty_ip ip = colon_join (groups_after_store tok old).
Proof.
  intros Hlen Htok Hold.
  eexists. split; [apply store_fits; lia|].
  unfold pretty_ip, groups_after_store.
  rewrite take_ge by (pose proof (pretty_ip_length (stored tok old));
                      rewrite ADDRSTRLEN_eq; lia).
  rewrite <- (drop_0 (stored tok old)) at 1.
  rewrite !strn_stored by done. reflexivity.
Qed.

(** A field of five characters stored over the array that the address
    2001:0db8:...:0042 was stored in before. *)
Lemma address_groups_of_any_field_witness :
  ∃ ip, store (chars "fe801")
              (stored (chars "20010db8000000000000000000000042")
                      (replicate ADDRSTRLEN NUL)) = Some ip
    ∧ pretty_ip ip = chars "fe80:1:0000:0000:0000:0000:0000:0042".
Proof.
  apply (address_groups_of_any_field (chars "fe801")
           (stored (chars "20010db8000000000000000000000042")
                   (replicate ADDRSTRLEN NUL))).
  - vm_compute. lia.
  - repeat constructor; discriminate.
  - reflexivity.
Defined.
